(** * ecapture: kernel-capability resolver and module life cycle

    A shallow embedding of [pkg/util/ebpf/bpf.go] (package [ebpf]),
    of the kernel-version file shipped next to it (package [kernel]) and of
    the Postgres module (package [module]).

    Go values are modelled as follows.
    - [string] is a Go string: a sequence of bytes.
    - unsigned integers ([byte], [uint32], [uint64]) are [N], with the
      wrap-around of each operation written out.
    - [(T, error)] results are [result T]; a nil-able pointer or interface
      is an [option].
    - [map[string]string] and [map[*ebpf.Map]IEventStruct] are [gmap]s. *)

From Stdlib Require Import NArith Ascii String List Lia Bool.
From stdpp Require Import gmap strings.

Local Open Scope string_scope.
Local Open Scope N_scope.

(** ** Bytes and strings *)

Definition byteOf (c : ascii) : N := N_of_ascii c.

Definition charOf (n : N) : ascii := ascii_of_N n.

Definition isDigit (c : ascii) : bool :=
  (48 <=? byteOf c) && (byteOf c <=? 57).

Definition digitVal (c : ascii) : N := byteOf c - 48.

Definition digitChar (d : N) : ascii := charOf (48 + d).

Fixpoint allDigits (s : string) : bool :=
  match s with
  | EmptyString => true
  | String c s' => isDigit c && allDigits s'
  end.

Definition startsWithDigit (s : string) : bool :=
  match s with
  | EmptyString => false
  | String c _ => isDigit c
  end.

Fixpoint hasNewline (s : string) : bool :=
  match s with
  | EmptyString => false
  | String c s' => (byteOf c =? 10) || hasNewline s'
  end.

Fixpoint dropBytes (n : nat) (s : string) : string :=
  match n, s with
  | O, _ => s
  | S n', String _ s' => dropBytes n' s'
  | S _, EmptyString => EmptyString
  end.

Fixpoint takeBytes (n : nat) (s : string) : string :=
  match n, s with
  | O, _ => EmptyString
  | S n', String c s' => String c (takeBytes n' s')
  | S _, EmptyString => EmptyString
  end.

(** ** Results *)

Inductive result (E A : Type) : Type :=
| Ok (a : A)
| Err (e : E).
Arguments Ok {E A} a.
Arguments Err {E A} e.

Definition isOk {E A} (r : result E A) : bool :=
  match r with Ok _ => true | Err _ => false end.

(** ** strconv.ParseUint, base 10

    [ParseUint s 10 bitSize] returns a value and an error.  On a syntax
    error the value is 0; on a range error it is the largest value of
    [bitSize] bits. *)

Module strconv.

Inductive NumError := ErrSyntax | ErrRange.

Definition maxUint64 : N := 2 ^ 64 - 1.

Definition cutoff : N := maxUint64 / 10 + 1.

Fixpoint parseLoop (maxVal : N) (s : string) (n : N) : N * option NumError :=
  match s with
  | EmptyString => (n, None)
  | String c s' =>
      if isDigit c then
        if cutoff <=? n then (maxVal, Some ErrRange)
        else
          let n10 := n * 10 in
          let n1 := (n10 + digitVal c) mod 2 ^ 64 in
          if (n1 <? n10) || (maxVal <? n1) then (maxVal, Some ErrRange)
          else parseLoop maxVal s' n1
      else (0, Some ErrSyntax)
  end.

Definition ParseUint (s : string) (bitSize : N) : N * option NumError :=
  match s with
  | EmptyString => (0, Some ErrSyntax)
  | _ => parseLoop (2 ^ bitSize - 1) s 0
  end.

End strconv.

(** ** fmt: decimal rendering of an unsigned integer ([%d])

    The digits are produced from the least significant one, as
    [fmt.fmtInteger] does; [fuel] bounds the number of digits. *)

Module fmt.

Fixpoint fmtDec (fuel : nat) (u : N) (buf : string) : string :=
  match fuel with
  | O => String (digitChar (u mod 10)) buf
  | S f =>
      if 10 <=? u
      then fmtDec f (u / 10) (String (digitChar (u mod 10)) buf)
      else String (digitChar u) buf
  end.

Definition Sprint_d (u : N) : string := fmtDec (N.size_nat u) u "".

End fmt.

(** ** unicode/utf8: runes of a string

    Go's scanner and its regular expressions read a string rune by rune.
    [DecodeRune] is [utf8.DecodeRuneInString]: the code point and width of
    the first rune, [RuneError] with width 1 for a byte that starts no
    valid encoding. *)

Module utf8.

Definition RuneError : N := 65533.

Definition inRange (lo hi b : N) : bool := (lo <=? b) && (b <=? hi).

Definition low6 (b : N) : N := N.land b 63.

Definition DecodeRune (s : string) : N * nat :=
  match s with
  | EmptyString => (RuneError, 0%nat)
  | String c0 s1 =>
      let b0 := byteOf c0 in
      if b0 <? 128 then (b0, 1%nat)
      else if (b0 <? 194) || (244 <? b0) then (RuneError, 1%nat)
      else
        match s1 with
        | EmptyString => (RuneError, 1%nat)
        | String c1 s2 =>
            let b1 := byteOf c1 in
            let lo := if b0 =? 224 then 160 else if b0 =? 240 then 144 else 128 in
            let hi := if b0 =? 237 then 159 else if b0 =? 244 then 143 else 191 in
            if negb (inRange lo hi b1) then (RuneError, 1%nat)
            else if b0 <? 224
            then (N.lor (N.shiftl (N.land b0 31) 6) (low6 b1), 2%nat)
            else
              match s2 with
              | EmptyString => (RuneError, 1%nat)
              | String c2 s3 =>
                  let b2 := byteOf c2 in
                  if negb (inRange 128 191 b2) then (RuneError, 1%nat)
                  else if b0 <? 240
                  then (N.lor (N.shiftl (N.land b0 15) 12)
                          (N.lor (N.shiftl (low6 b1) 6) (low6 b2)), 3%nat)
                  else
                    match s3 with
                    | EmptyString => (RuneError, 1%nat)
                    | String c3 _ =>
                        let b3 := byteOf c3 in
                        if negb (inRange 128 191 b3) then (RuneError, 1%nat)
                        else (N.lor (N.shiftl (N.land b0 7) 18)
                                (N.lor (N.shiftl (low6 b1) 12)
                                   (N.lor (N.shiftl (low6 b2) 6) (low6 b3))),
                              4%nat)
                    end
              end
        end
  end.

(** A rune of the input together with the bytes it was decoded from. *)
Record Rune := mkRune { code : N; raw : string }.

(** The runes of a string, in order. *)
Fixpoint decode (s : string) : list Rune :=
  match s with
  | EmptyString => []
  | String c0 s1 =>
      let (r, w) := DecodeRune s in
      match w, s1 with
      | 2%nat, String c1 s2 =>
          mkRune r (String c0 (String c1 "")) :: decode s2
      | 3%nat, String c1 (String c2 s3) =>
          mkRune r (String c0 (String c1 (String c2 ""))) :: decode s3
      | 4%nat, String c1 (String c2 (String c3 s4)) =>
          mkRune r (String c0 (String c1 (String c2 (String c3 "")))) :: decode s4
      | _, _ => mkRune r (String c0 "") :: decode s1
      end
  end.

(** The bytes a rune is written back as ([utf8.AppendRune]): an invalid
    byte is written as the encoding of U+FFFD. *)
Definition encode (r : Rune) : string :=
  if code r =? RuneError
  then String (charOf 239) (String (charOf 191) (String (charOf 189) ""))
  else raw r.

(** The bytes a sequence of runes was read from. *)
Fixpoint rawOf (rs : list Rune) : string :=
  match rs with
  | [] => ""
  | r :: rs' => raw r +:+ rawOf rs'
  end.

End utf8.

(** ** fmt.Sscanf

    The scanner of package [fmt], for the formats this program uses: the
    verb [%d] storing into a [*uint8], the verb [%s] storing into a
    [*string], literal characters and a single space between verbs.
    A format is given as its sequence of items: ["%d.%d.%d"] is
    [[FUint8; FLit "."; FUint8; FLit "."; FUint8]].

    Scanning stops at the first error; operands stored before the error
    keep their values, the others are left untouched. *)

Module scan.
Import utf8.

Inductive fmtItem :=
| FUint8              (* %d, operand of type *uint8 *)
| FString             (* %s, operand of type *string *)
| FLit (c : ascii)    (* a literal character of the format *)
| FSpace.             (* a space of the format *)

Inductive scanned :=
| VUint8 (n : N)
| VString (s : string).

Inductive ScanError :=
| ErrUnexpectedNewline
| ErrEOF
| ErrUnexpectedEOF
| ErrExpectedInteger
| ErrParse (e : strconv.NumError)
| ErrOverflow (tok : string)
| ErrInputMismatch
| ErrExpectedSpace
| ErrNewlineInInput.

(** The space table of fmt/scan.go. *)
Definition isSpace (r : N) : bool :=
  inRange 9 13 r || (r =? 32) || (r =? 133) || (r =? 160) || (r =? 5760)
  || inRange 8192 8202 r || inRange 8232 8233 r || (r =? 8239)
  || (r =? 8287) || (r =? 12288).

Definition peekNewline (inp : list Rune) : bool :=
  match inp with
  | r :: _ => code r =? 10
  | [] => false
  end.

(** [ss.SkipSpace] of a scanner created by [Sscanf] (newlines are not
    spaces). *)
Fixpoint SkipSpace (inp : list Rune) : result ScanError (list Rune) :=
  match inp with
  | [] => Ok []
  | r :: rest =>
      if (code r =? 13) && peekNewline rest then SkipSpace rest
      else if code r =? 10 then Err ErrUnexpectedNewline
      else if isSpace (code r) then SkipSpace rest
      else Ok inp
  end.

Definition isDigitRune (r : Rune) : bool := inRange 48 57 (code r).

(** [ss.scanNumber]: the longest run of decimal digits. *)
Fixpoint acceptDigits (inp : list Rune) : string * list Rune :=
  match inp with
  | r :: rest =>
      if isDigitRune r
      then let (tok, rest') := acceptDigits rest in (encode r +:+ tok, rest')
      else ("", inp)
  | [] => ("", [])
  end.

(** [ss.scanUint(verb 'd', bitSize 8)]. *)
Definition scanUint8 (inp : list Rune) : result ScanError (N * list Rune) :=
  match SkipSpace inp with
  | Err e => Err e
  | Ok [] => Err ErrEOF
  | Ok inp1 =>
      let (tok, rest) := acceptDigits inp1 in
      match tok with
      | EmptyString => Err ErrExpectedInteger
      | _ =>
          match strconv.ParseUint tok 64 with
          | (_, Some e) => Err (ErrParse e)
          | (i, None) =>
              if i mod 2 ^ 8 =? i then Ok (i, rest) else Err (ErrOverflow tok)
          end
      end
  end.

(** [ss.token(true, notSpace)]: the runes up to the next space. *)
Fixpoint tokenNotSpace (inp : list Rune) : string * list Rune :=
  match inp with
  | r :: rest =>
      if isSpace (code r) then ("", inp)
      else let (tok, rest') := tokenNotSpace rest in (encode r +:+ tok, rest')
  | [] => ("", [])
  end.

(** [ss.convertString(verb 's')]. *)
Definition convertString (inp : list Rune) : result ScanError (string * list Rune) :=
  match SkipSpace inp with
  | Err e => Err e
  | Ok [] => Err ErrEOF
  | Ok inp1 =>
      match SkipSpace inp1 with
      | Err e => Err e
      | Ok inp2 => Ok (tokenNotSpace inp2)
      end
  end.

(** The spaces, other than newline, that a space of the format consumes. *)
Fixpoint skipBlanks (inp : list Rune) : list Rune :=
  match inp with
  | r :: rest =>
      if isSpace (code r) && negb (code r =? 10) then skipBlanks rest else inp
  | [] => []
  end.

(** A space of the format standing alone: it matches one or more spaces of
    the input, or the end of the input. *)
Definition advanceSpace (inp : list Rune) : result ScanError (list Rune) :=
  match inp with
  | [] => Ok []
  | r :: _ =>
      if negb (isSpace (code r)) then Err ErrExpectedSpace
      else if code r =? 10 then Err ErrNewlineInInput
      else Ok (skipBlanks inp)
  end.

(** [ss.doScanf]: the operands stored so far, and the error if any. *)
Fixpoint doScanf (format : list fmtItem) (inp : list Rune) (stored : list scanned)
  : list scanned * option ScanError :=
  match format with
  | [] => (stored, None)
  | FLit c :: format' =>
      match inp with
      | [] => (stored, Some ErrUnexpectedEOF)
      | r :: rest =>
          if code r =? byteOf c then doScanf format' rest stored
          else (stored, Some ErrInputMismatch)
      end
  | FSpace :: format' =>
      match advanceSpace inp with
      | Err e => (stored, Some e)
      | Ok inp' => doScanf format' inp' stored
      end
  | FUint8 :: format' =>
      match SkipSpace inp with
      | Err e => (stored, Some e)
      | Ok inp1 =>
          match scanUint8 inp1 with
          | Err e => (stored, Some e)
          | Ok (v, rest) => doScanf format' rest (stored ++ [VUint8 v])
          end
      end
  | FString :: format' =>
      match SkipSpace inp with
      | Err e => (stored, Some e)
      | Ok inp1 =>
          match convertString inp1 with
          | Err e => (stored, Some e)
          | Ok (v, rest) => doScanf format' rest (stored ++ [VString v])
          end
      end
  end.

Definition Sscanf (str : string) (format : list fmtItem)
  : list scanned * option ScanError :=
  doScanf format (decode str) [].

(** The value of the [i]-th operand after the call, given its value
    before the call. *)
Definition uint8Operand (stored : list scanned) (i : nat) (before : N) : N :=
  match nth_error stored i with
  | Some (VUint8 n) => n
  | _ => before
  end.

Definition stringOperand (stored : list scanned) (i : nat) (before : string) : string :=
  match nth_error stored i with
  | Some (VString s) => s
  | _ => before
  end.

End scan.

(** ** regexp

    A backtracking matcher with capture groups, with Go's leftmost-first
    preference: a repetition tries the longest run first, an optional part
    is tried before it is skipped, and [FindStringSubmatch] returns the
    match that starts earliest.  Repetition is over a class of runes, which
    is all the patterns of this program need. *)

Module regexp.
Import utf8.

Inductive regex :=
| REmpty                                  (* the empty pattern *)
| RBegin                                  (* ^ *)
| REnd                                    (* $ *)
| RSet (p : N -> bool)                    (* one rune of a class *)
| RStar (p : N -> bool)                   (* p*, greedy *)
| RSeq (r1 r2 : regex)
| ROpt (r : regex)                        (* r?, greedy *)
| RGroup (i : nat) (r : regex).           (* the i-th capturing group *)

Definition RPlus (p : N -> bool) : regex := RSeq (RSet p) (RStar p).

(** Classes. *)
Definition digit (r : N) : bool := inRange 48 57 r.                (* \d *)
Definition anyNotNL (r : N) : bool := negb (r =? 10).              (* . *)
Definition lit (c : ascii) (r : N) : bool := r =? byteOf c.        (* c *)
Definition alnum (r : N) : bool :=                                 (* [[:alnum:]] *)
  inRange 48 57 r || inRange 65 90 r || inRange 97 122 r.

Fixpoint RLits (s : string) : regex :=
  match s with
  | EmptyString => REmpty
  | String c s' => RSeq (RSet (lit c)) (RLits s')
  end.

(** Concatenation of the parts of a pattern. *)
Fixpoint RCat (parts : list regex) : regex :=
  match parts with
  | [] => REmpty
  | r :: parts' => RSeq r (RCat parts')
  end.

(** The text of each group; [None] while a group has not taken part. *)
Definition Caps := list (option string).

(** A continuation receives the position reached, the rest of the input
    and the groups so far. *)
Definition Cont := nat -> list Rune -> Caps -> option Caps.

Fixpoint star (p : N -> bool) (pos : nat) (inp : list Rune) (caps : Caps) (k : Cont)
  : option Caps :=
  match inp with
  | r :: rest =>
      if p (code r) then
        match star p (S pos) rest caps k with
        | Some c => Some c
        | None => k pos inp caps
        end
      else k pos inp caps
  | [] => k pos inp caps
  end.

Fixpoint run (re : regex) (pos : nat) (inp : list Rune) (caps : Caps) (k : Cont)
  : option Caps :=
  match re with
  | REmpty => k pos inp caps
  | RBegin => match pos with O => k pos inp caps | S _ => None end
  | REnd => match inp with [] => k pos inp caps | _ :: _ => None end
  | RSet p =>
      match inp with
      | r :: rest => if p (code r) then k (S pos) rest caps else None
      | [] => None
      end
  | RStar p => star p pos inp caps k
  | RSeq r1 r2 =>
      run r1 pos inp caps (fun pos' inp' caps' => run r2 pos' inp' caps' k)
  | ROpt r =>
      match run r pos inp caps k with
      | Some c => Some c
      | None => k pos inp caps
      end
  | RGroup i r =>
      run r pos inp caps
        (fun pos' inp' caps' =>
           k pos' inp' (<[i := Some (rawOf (firstn (pos' - pos) inp))]> caps'))
  end.

(** A match attempt at one starting position; group 0 is the whole match. *)
Definition matchAt (re : regex) (groups : nat) (pos : nat) (inp : list Rune)
  : option Caps :=
  run (RGroup 0 re) pos inp (replicate (S groups) None)
    (fun _ _ caps => Some caps).

Fixpoint search (re : regex) (groups : nat) (pos : nat) (inp : list Rune)
  : option Caps :=
  match matchAt re groups pos inp with
  | Some c => Some c
  | None =>
      match inp with
      | [] => None
      | _ :: rest => search re groups (S pos) rest
      end
  end.

(** [Regexp.FindStringSubmatch]: the whole match followed by the text of
    each group, the empty string for a group that did not take part;
    the empty list (a nil slice) when there is no match. *)
Definition FindStringSubmatch (re : regex) (groups : nat) (s : string) : list string :=
  match search re groups 0 (decode s) with
  | Some caps => map (fun c => match c with Some t => t | None => "" end) caps
  | None => []
  end.

End regexp.

(** ** Errors

    A Go [error] value, by the call that built it. *)

Inductive error :=
| ErrOS (msg : string)
    (* an error returned by the operating system or by a library *)
| ErrNew (msg : string)
    (* errors.New(msg), or fmt.Errorf whose operands are strings
       rendered with %s *)
| ErrQuote (before s after : string)
    (* fmt.Errorf with one operand s rendered with %q *)
| ErrWrap (before : string) (e : error) (after : string)
    (* fmt.Errorf with one error operand rendered with %s or %v *)
| ErrScan (e : scan.ScanError)
    (* an error of fmt.Sscanf *)
| ErrNum (num : string) (e : strconv.NumError).
    (* the *strconv.NumError of ParseUint on num *)

(** ** The operating system

    What the program reads from the host.  [syscall.Utsname] holds
    65-byte arrays; [GetSystemConfig] is defined in another file of package
    [ebpf] and reads the kernel build configuration. *)

Module syscall.

Record Utsname := {
  Sysname : string;
  Nodename : string;
  Release : string;
  Version : string;
  Machine : string;
  Domainname : string
}.

End syscall.

Record Host := {
  os_Stat : string -> option error;            (* None: the path exists *)
  ReadFile : string -> result error string;
  Uname : result error syscall.Utsname;
  GetSystemConfig : result error (gmap string string)
}.

(** Calls to the host, in the order they are made. *)
Inductive Call :=
| CallStat (path : string)
| CallReadFile (path : string)
| CallUname
| CallGetSystemConfig.

(** Process-wide state: the package variable [kernel.hostVersion] and the
    calls made so far. *)
Record State := mkState {
  hostVersion : N;
  trace : list Call
}.

Definition M (A : Type) : Type := State -> A * State.

Definition ret {A} (a : A) : M A := fun st => (a, st).

Definition bind {A B} (m : M A) (f : A -> M B) : M B :=
  fun st => let (a, st') := m st in f a st'.

Notation "'do' x <- m ; k" := (bind m (fun x => k))
  (at level 10, x name, m at level 100, k at level 200).

Definition call (c : Call) : M unit :=
  fun st => (tt, mkState (hostVersion st) (trace st ++ [c])).

Definition getHostVersion : M N := fun st => (hostVersion st, st).

Definition setHostVersion (v : N) : M unit :=
  fun st => (tt, mkState v (trace st)).

Definition initialState : State := mkState 0 [].

(** ** Package kernel *)

Module kernel.
Import regexp.

(** [type Version uint32] *)
Definition Version := N.

Definition u32 (x : N) : N := x mod 2 ^ 32.
Definition u64 (x : N) : N := x mod 2 ^ 64.

(** [func (v Version) String() string] *)
Definition String_ (v : Version) : string :=
  let a := N.shiftr v 16 in
  let b := N.land (N.shiftr v 8) 255 in
  let c := N.land v 255 in
  fmt.Sprint_d a +:+ "." +:+ fmt.Sprint_d b +:+ "." +:+ fmt.Sprint_d c.

(** [func VersionCode(major, minor, patch byte) Version] *)
Definition VersionCode (major minor patch : N) : Version :=
  u32 (u32 (u32 (N.shiftl major 16) + u32 (N.shiftl minor 8)) + patch).

(** The format ["%d.%d.%d"]. *)
Definition versionFormat : list scan.fmtItem :=
  [scan.FUint8; scan.FLit "."; scan.FUint8; scan.FLit "."; scan.FUint8].

(** [func ParseVersion(s string) Version]: the count and the error of
    [Sscanf] are discarded. *)
Definition ParseVersion (s : string) : Version :=
  let (stored, _) := scan.Sscanf s versionFormat in
  let a := scan.uint8Operand stored 0 0 in
  let b := scan.uint8Operand stored 1 0 in
  let c := scan.uint8Operand stored 2 0 in
  VersionCode a b c.

(** [releasePattern]: [^(\d+)\.(\d+)(?:.(\d+))?.*$] *)
Definition releasePattern : regex :=
  RCat [ RBegin;
         RGroup 1 (RPlus digit);
         RSet (lit ".");
         RGroup 2 (RPlus digit);
         ROpt (RSeq (RSet anyNotNL) (RGroup 3 (RPlus digit)));
         RStar anyNotNL;
         REnd ].

Definition nthString (l : list string) (i : nat) : string := nth i l "".

(** [func kernelVersionFromReleaseString(releaseString string) (uint32, error)] *)
Definition kernelVersionFromReleaseString (releaseString : string) : result error N :=
  let versionParts := FindStringSubmatch releasePattern 3 releaseString in
  if (length versionParts <? 3)%nat then
    Err (ErrQuote "got invalid release version " releaseString
           " (expected format '4.3.2-1')")
  else
    match strconv.ParseUint (nthString versionParts 1) 8 with
    | (_, Some e) => Err (ErrNum (nthString versionParts 1) e)
    | (major, None) =>
        match strconv.ParseUint (nthString versionParts 2) 8 with
        | (_, Some e) => Err (ErrNum (nthString versionParts 2) e)
        | (minor, None) =>
            let patch :=
              if (4 <=? length versionParts)%nat
              then fst (strconv.ParseUint (nthString versionParts 3) 8)
              else 0 in
            let patch :=
              if (major =? 4) && (minor =? 14) && (252 <=? patch)
              then 255 else patch in
            let out := u64 (u64 (u64 (u64 (major * 256) * 256) + u64 (minor * 256)) + patch) in
            Ok (u32 out)
        end
    end.

(** The format ["%s %s %s"]. *)
Definition ubuntuFormat : list scan.fmtItem :=
  [scan.FString; scan.FSpace; scan.FString; scan.FSpace; scan.FString].

(** [func parseUbuntuVersion(procVersion string) (uint32, error)] *)
Definition parseUbuntuVersion (procVersion : string) : result error N :=
  match scan.Sscanf procVersion ubuntuFormat with
  | (_, Some e) => Err (ErrScan e)
  | (stored, None) =>
      kernelVersionFromReleaseString (scan.stringOperand stored 2 "")
  end.

(** [debianVersionRegex]: any characters, the text [ SMP Debian ], the
    group [(\d+\.\d+.\d+-\d+)], optionally a [+] followed by any number of
    [[:alnum:]] characters (a group that does not capture), any
    characters.  The dot between the second and third number is not
    escaped. *)
Definition debianVersionRegex : regex :=
  RCat [ RStar anyNotNL;
         RLits " SMP Debian ";
         RGroup 1 (RCat [ RPlus digit; RSet (lit "."); RPlus digit;
                          RSet anyNotNL; RPlus digit; RSet (lit "-");
                          RPlus digit ]);
         ROpt (RSeq (RSet (lit "+")) (RStar alnum));
         RStar anyNotNL ].

(** [func parseDebianVersion(str string) (uint32, error)] *)
Definition parseDebianVersion (str : string) : result error N :=
  let match_ := FindStringSubmatch debianVersionRegex 1 str in
  if negb (length match_ =? 2)%nat then
    Err (ErrNew ("failed to parse kernel version from /proc/version: " +:+ str))
  else kernelVersionFromReleaseString (nthString match_ 1).

(** [func utsnameStr(in []int8) string]: the result starts with [len(in)]
    zero bytes, the bytes of [in] before its first zero follow. *)
Fixpoint untilNul (s : string) : string :=
  match s with
  | EmptyString => ""
  | String c s' => if byteOf c =? 0 then "" else String c (untilNul s')
  end.

Fixpoint zeros (n : nat) : string :=
  match n with
  | O => ""
  | S n' => String (charOf 0) (zeros n')
  end.

Definition utsnameStr (in_ : string) : string :=
  zeros (String.length in_) +:+ untilNul in_.

(** [strings.Trim(s, "\x00")] *)
Fixpoint trimLeftNul (s : string) : string :=
  match s with
  | EmptyString => ""
  | String c s' => if byteOf c =? 0 then trimLeftNul s' else s
  end.

Fixpoint trimRightNul (s : string) : string :=
  match s with
  | EmptyString => ""
  | String c s' =>
      match trimRightNul s' with
      | EmptyString => if byteOf c =? 0 then "" else String c ""
      | t => String c t
      end
  end.

Definition TrimNul (s : string) : string := trimLeftNul (trimRightNul s).

Section WithHost.
Variable host : Host.

(** [func currentVersionUbuntu() (uint32, error)] *)
Definition currentVersionUbuntu : M (result error N) :=
  do _ <- call (CallReadFile "/proc/version_signature");
  match ReadFile host "/proc/version_signature" with
  | Err err => ret (Err err)
  | Ok procVersion => ret (parseUbuntuVersion procVersion)
  end.

(** [func currentVersionDebian() (uint32, error)] *)
Definition currentVersionDebian : M (result error N) :=
  do _ <- call (CallReadFile "/proc/version");
  match ReadFile host "/proc/version" with
  | Err err => ret (Err (ErrWrap "error reading /proc/version: " err ""))
  | Ok procVersion => ret (parseDebianVersion procVersion)
  end.

(** [func currentVersionUname() (uint32, error)] *)
Definition currentVersionUname : M (result error N) :=
  do _ <- call CallUname;
  match Uname host with
  | Err err => ret (Err err)
  | Ok buf =>
      let releaseString := TrimNul (utsnameStr (syscall.Release buf)) in
      ret (kernelVersionFromReleaseString releaseString)
  end.

(** [func CurrentKernelVersion() (uint32, error)] *)
Definition CurrentKernelVersion : M (result error N) :=
  do r <- currentVersionUbuntu;
  match r with
  | Ok version => ret (Ok version)
  | Err _ =>
      do r <- currentVersionDebian;
      match r with
      | Ok version => ret (Ok version)
      | Err _ => currentVersionUname
      end
  end.

(** [func HostVersion() (Version, error)] *)
Definition HostVersion : M (result error Version) :=
  do cached <- getHostVersion;
  if negb (cached =? 0) then ret (Ok cached)
  else
    do r <- CurrentKernelVersion;
    match r with
    | Err err => ret (Err err)
    | Ok kv =>
        do _ <- setHostVersion kv;
        do v <- getHostVersion;
        ret (Ok v)
    end.

End WithHost.

End kernel.

(** ** Package ebpf *)

Module ebpf.

Record UnameInfo := {
  SysName : string;
  Nodename : string;
  Release : string;
  Version : string;
  Machine : string;
  Domainname : string
}.

(** [func charsToString(ca [65]byte) string]: the bytes before the first
    zero byte. *)
Definition charsToString (ca : string) : string := kernel.untilNul ca.

Section WithHost.
Variable host : Host.

(** The table [locations] of path templates is declared in another file
    of the package; [Sprintf loc release] stands for
    [fmt.Sprintf(loc, release)]. *)
Variable locations : list string.
Variable Sprintf : string -> string -> string.

(** [func getOSUnamer()], returning a pointer to [UnameInfo] and an error. *)
Definition getOSUnamer : M (result error UnameInfo) :=
  do _ <- call CallUname;
  match Uname host with
  | Err e => ret (Err e)
  | Ok u =>
      ret (Ok {| SysName := charsToString (syscall.Sysname u);
                 Nodename := charsToString (syscall.Nodename u);
                 Release := charsToString (syscall.Release u);
                 Version := charsToString (syscall.Version u);
                 Machine := charsToString (syscall.Machine u);
                 Domainname := charsToString (syscall.Domainname u) |})
  end.

(** [os.Stat(path)], keeping only the error. *)
Definition stat (path : string) : M (option error) :=
  do _ <- call (CallStat path);
  ret (os_Stat host path).

(** The loop of [findVMLinux]: the first location that exists ends it. *)
Fixpoint scanLocations (locs : list string) (release : string) : M bool :=
  match locs with
  | [] => ret false
  | loc :: locs' =>
      do err <- stat (Sprintf loc release);
      match err with
      | Some _ => scanLocations locs' release
      | None => ret true
      end
  end.

(** [func findVMLinux() (bool, error)]: the [err] returned after the loop
    is the one of [getOSUnamer], which is nil there. *)
Definition findVMLinux : M (bool * option error) :=
  do r <- getOSUnamer;
  match r with
  | Err err => ret (false, Some err)
  | Ok kv =>
      do hit <- scanLocations locations (Release kv);
      if hit then ret (true, None) else ret (false, None)
  end.

(** [func checkKernelBTF() (bool, error)] *)
Definition checkKernelBTF : M (bool * option error) :=
  do err <- stat "/sys/kernel/btf/vmlinux";
  match err with
  | None => ret (true, None)
  | Some _ => findVMLinux
  end.

Definition getSystemConfig : M (result error (gmap string string)) :=
  do _ <- call CallGetSystemConfig;
  ret (GetSystemConfig host).

(** [func IsEnableBTF() (bool, error)] *)
Definition IsEnableBTF : M (bool * option error) :=
  do r <- checkKernelBTF;
  match r with
  | (true, None) => ret (true, None)
  | _ =>
      do c <- getSystemConfig;
      match c with
      | Err e => ret (false, Some e)
      | Ok KernelConfig =>
          match KernelConfig !! "CONFIG_DEBUG_INFO_BTF" with
          | None => ret (false, None)
          | Some bc =>
              if negb (String.eqb bc "y") then ret (false, None)
              else ret (true, None)
          end
      end
  end.

(** The flags [IsEnableBPF] requires, in the order it checks them. *)
Definition requiredFlags : list string :=
  ["CONFIG_BPF"; "CONFIG_UPROBES"; "CONFIG_ARCH_SUPPORTS_UPROBES"].

(** The loop of [IsEnableBPF]. *)
Fixpoint checkFlags (KernelConfig : gmap string string) (items : list string)
  : bool * option error :=
  match items with
  | [] => (true, None)
  | item :: items' =>
      match KernelConfig !! item with
      | None =>
          (false, Some (ErrNew ("Config not found,  item:" +:+ item +:+ ".")))
      | Some bc =>
          if negb (String.eqb bc "y")
          then (false, Some (ErrNew ("Config disabled, item :" +:+ item +:+ ".")))
          else checkFlags KernelConfig items'
      end
  end.

(** [func IsEnableBPF() (bool, error)] *)
Definition IsEnableBPF : M (bool * option error) :=
  do c <- getSystemConfig;
  match c with
  | Err e => ret (false, Some e)
  | Ok KernelConfig => ret (checkFlags KernelConfig requiredFlags)
  end.

End WithHost.

End ebpf.

(** ** Package module: the Postgres module

    The eBPF manager, the asset store and the base type [Module] are
    outside this file; their operations are parameters.  A method that
    dereferences a nil pointer panics, which is an outcome of its own. *)

Module module.

Inductive outcome (A : Type) : Type :=
| Returns (a : A)
| Panics (why : string).
Arguments Returns {A} a.
Arguments Panics {A} why.

(** A [*ebpf.Map], by its address. *)
Definition ebpfMap := N.

(** The dynamic type of an [event.IEventStruct]; the nil interface is
    [None]. *)
Inductive IEventStruct := PostgresEvent.

Record PostgresConfig := {
  PostgresPath : string;
  FuncName : string
}.

Record Probe := {
  Section_ : string;
  EbpfFuncName : string;
  AttachToFuncName : string;
  BinaryPath : string
}.

Record Rlimit := { Cur : N; Max : N }.

Record Options := {
  DefaultKProbeMaxActive : N;
  LogSize : N;
  RLimit : option Rlimit
}.

Definition zeroOptions : Options :=
  {| DefaultKProbeMaxActive := 0; LogSize := 0; RLimit := None |}.

Section WithLibraries.

(** The part of a [manager.Manager] that the library keeps to itself. *)
Variable ManagerState : Type.
Variable freshManager : ManagerState.

Record Manager := {
  Probes : list Probe;
  Maps : list string;
  internal : ManagerState
}.

Variable host : Host.
Variable Asset : string -> result error string.
Variable InitWithOptions : Manager -> string -> Options -> Manager * option error.
Variable Manager_Start : Manager -> Manager * option error.
Variable Manager_Stop : Manager -> Manager * option error.
Variable GetMap : Manager -> string -> ebpfMap * bool * option error.
Variable Module_Close : option error.

Record PostgresModule := {
  conf : PostgresConfig;
  bpfManager : option Manager;                          (* nil: None *)
  bpfManagerOptions : Options;
  eventFuncMaps : option (gmap ebpfMap IEventStruct);   (* nil map: None *)
  eventMaps : list ebpfMap
}.

(** The module as [init] creates it, before [Init] is called. *)
Definition newModule (c : PostgresConfig) : PostgresModule :=
  {| conf := c; bpfManager := None; bpfManagerOptions := zeroOptions;
     eventFuncMaps := None; eventMaps := [] |}.

(** [func (postgresModule *PostgresModule) Init(...) error] *)
Definition Init (m : PostgresModule) (c : PostgresConfig) : PostgresModule * option error :=
  ({| conf := c; bpfManager := bpfManager m;
      bpfManagerOptions := bpfManagerOptions m;
      eventFuncMaps := Some ∅; eventMaps := [] |}, None).

(** [func (postgresModule *PostgresModule) setupManagers() error] *)
Definition setupManagers (m : PostgresModule) : PostgresModule * option error :=
  let postgresPath := PostgresPath (conf m) in
  match os_Stat host postgresPath with
  | Some err => (m, Some err)
  | None =>
      let attachFunc := FuncName (conf m) in
      ({| conf := conf m;
          bpfManager := Some
            {| Probes := [ {| Section_ := "uprobe/exec_simple_query";
                              EbpfFuncName := "postgres_query";
                              AttachToFuncName := attachFunc;
                              BinaryPath := postgresPath |} ];
               Maps := ["events"];
               internal := freshManager |};
          bpfManagerOptions :=
            {| DefaultKProbeMaxActive := 512;
               LogSize := 2097152;
               RLimit := Some {| Cur := 2 ^ 64 - 1; Max := 2 ^ 64 - 1 |} |};
          eventFuncMaps := eventFuncMaps m;
          eventMaps := eventMaps m |}, None)
  end.

Definition setManager (m : PostgresModule) (mgr : Manager) : PostgresModule :=
  {| conf := conf m; bpfManager := Some mgr;
     bpfManagerOptions := bpfManagerOptions m;
     eventFuncMaps := eventFuncMaps m; eventMaps := eventMaps m |}.

Definition nilDereference : string :=
  "invalid memory address or nil pointer dereference".

Definition nilMapWrite : string := "assignment to entry in nil map".

(** [func (postgresModule *PostgresModule) initDecodeFun() error] *)
Definition initDecodeFun (m : PostgresModule) : outcome (PostgresModule * option error) :=
  match bpfManager m with
  | None => Panics nilDereference
  | Some mgr =>
      match GetMap mgr "events" with
      | (_, _, Some err) => Returns (m, Some err)
      | (_, false, None) => Returns (m, Some (ErrNew "cant found map: events"))
      | (postgresEventsMap, true, None) =>
          match eventFuncMaps m with
          | None => Panics nilMapWrite
          | Some funcs =>
              Returns
                ({| conf := conf m; bpfManager := bpfManager m;
                    bpfManagerOptions := bpfManagerOptions m;
                    eventFuncMaps := Some (<[postgresEventsMap := PostgresEvent]> funcs);
                    eventMaps := eventMaps m ++ [postgresEventsMap] |}, None)
          end
      end
  end.

(** [func (postgresModule *PostgresModule) Start() error].  The two log
    lines, which need the logger that [Init] sets, are left out; [conf] is
    taken to hold a [PostgresConfig], as the type assertion requires. *)
Definition Start (m : PostgresModule) : outcome (PostgresModule * option error) :=
  match Asset "user/bytecode/postgres_kern.o" with
  | Err _ => Returns (m, Some (ErrNew "couldn't find asset"))
  | Ok byteBuf =>
      match setupManagers m with
      | (m1, Some err) =>
          Returns (m1, Some (ErrWrap "postgres module couldn't find binPath " err "."))
      | (m1, None) =>
          match bpfManager m1 with
          | None => Panics nilDereference
          | Some mgr =>
              match InitWithOptions mgr byteBuf (bpfManagerOptions m1) with
              | (mgr1, Some err) =>
                  Returns (setManager m1 mgr1, Some (ErrWrap "couldn't init manager " err ""))
              | (mgr1, None) =>
                  match Manager_Start mgr1 with
                  | (mgr2, Some err) =>
                      Returns (setManager m1 mgr2,
                               Some (ErrWrap "couldn't start bootstrap manager " err ""))
                  | (mgr2, None) => initDecodeFun (setManager m1 mgr2)
                  end
              end
          end
      end
  end.

(** [func (postgresModule *PostgresModule) Close() error]: [Stop] reads the
    manager through its receiver, so a nil [bpfManager] is dereferenced. *)
Definition Close (m : PostgresModule) : outcome (PostgresModule * option error) :=
  match bpfManager m with
  | None => Panics nilDereference
  | Some mgr =>
      match Manager_Stop mgr with
      | (mgr1, Some err) =>
          Returns (setManager m mgr1, Some (ErrWrap "couldn't stop manager " err "."))
      | (mgr1, None) => Returns (setManager m mgr1, Module_Close)
      end
  end.

(** [func (postgresModule *PostgresModule) DecodeFun(em *ebpf.Map)
    (event.IEventStruct, bool)]: a lookup in a map, nil or not, yields the
    zero value and false for a key that is not there. *)
Definition DecodeFun (m : PostgresModule) (em : ebpfMap) : option IEventStruct * bool :=
  match eventFuncMaps m with
  | None => (None, false)
  | Some funcs =>
      match funcs !! em with
      | Some fun_ => (Some fun_, true)
      | None => (None, false)
      end
  end.

(** [func (postgresModule *PostgresModule) Events() []*ebpf.Map] *)
Definition Events (m : PostgresModule) : list ebpfMap := eventMaps m.

End WithLibraries.

End module.

(** * Properties *)

(** ** Minimum instrumentation support: [IsEnableBPF] *)

Section EnableBPF.
Import ebpf.

Lemma eqb_y (v : string) : String.eqb v "y" = true <-> v = "y".
Proof. apply String.eqb_eq. Qed.

Lemma checkFlags_all_y (cfg : gmap string string) (items : list string) :
  Forall (fun f => cfg !! f = Some "y") items ->
  checkFlags cfg items = (true, None).
Proof.
  induction 1 as [|f items Hf _ IH]; simpl; [reflexivity|].
  rewrite Hf. simpl. exact IH.
Qed.

Lemma checkFlags_skip (cfg : gmap string string) (pre rest : list string) :
  Forall (fun g => cfg !! g = Some "y") pre ->
  checkFlags cfg (pre ++ rest) = checkFlags cfg rest.
Proof.
  induction 1 as [|g pre Hg _ IH]; simpl; [reflexivity|].
  rewrite Hg. simpl. exact IH.
Qed.

Lemma checkFlags_absent (cfg : gmap string string) (pre post : list string) (f : string) :
  Forall (fun g => cfg !! g = Some "y") pre ->
  cfg !! f = None ->
  checkFlags cfg (pre ++ f :: post)
  = (false, Some (ErrNew ("Config not found,  item:" +:+ f +:+ "."))).
Proof.
  intros Hpre Hf. rewrite checkFlags_skip by assumption.
  simpl. rewrite Hf. reflexivity.
Qed.

Lemma checkFlags_disabled (cfg : gmap string string) (pre post : list string)
      (f v : string) :
  Forall (fun g => cfg !! g = Some "y") pre ->
  cfg !! f = Some v -> v <> "y" ->
  checkFlags cfg (pre ++ f :: post)
  = (false, Some (ErrNew ("Config disabled, item :" +:+ f +:+ "."))).
Proof.
  intros Hpre Hf Hv. rewrite checkFlags_skip by assumption.
  simpl. rewrite Hf.
  destruct (String.eqb v "y") eqn:E; [apply eqb_y in E; contradiction|].
  reflexivity.
Qed.

(** C4. Given the kernel configuration [cfg] read by [GetSystemConfig]:
    when the three required flags are all ["y"], [IsEnableBPF] returns
    true and no error; when a required flag [f] is the first one that is
    absent, the error is "Config not found,  item:f."; when it is the
    first one present with a value other than ["y"], the error is
    "Config disabled, item :f.". *)
Theorem IsEnableBPF_flags (host : Host) (st : State) (cfg : gmap string string) :
  GetSystemConfig host = Ok cfg ->
  (Forall (fun f => cfg !! f = Some "y") requiredFlags ->
   fst (IsEnableBPF host st) = (true, None))
  /\ (forall (pre : list string) (f : string) (post : list string),
        requiredFlags = (pre ++ f :: post)%list ->
        Forall (fun g => cfg !! g = Some "y") pre ->
        (cfg !! f = None ->
         fst (IsEnableBPF host st)
         = (false, Some (ErrNew ("Config not found,  item:" +:+ f +:+ "."))))
        /\ (forall v, cfg !! f = Some v -> v <> "y" ->
            fst (IsEnableBPF host st)
            = (false, Some (ErrNew ("Config disabled, item :" +:+ f +:+ ".")))))
  /\ requiredFlags
     = ["CONFIG_BPF"; "CONFIG_UPROBES"; "CONFIG_ARCH_SUPPORTS_UPROBES"].
Proof.
  intros Hcfg.
  assert (Hrun : fst (IsEnableBPF host st) = checkFlags cfg requiredFlags).
  { unfold IsEnableBPF, getSystemConfig, bind, call, ret. simpl.
    rewrite Hcfg. reflexivity. }
  rewrite Hrun. split; [|split].
  - apply checkFlags_all_y.
  - intros pre f post Heq Hpre. rewrite Heq. split.
    + intros Hf. apply checkFlags_absent; assumption.
    + intros v Hf Hv. eapply checkFlags_disabled; eassumption.
  - reflexivity.
Qed.

End EnableBPF.

(** ** Portable-instrumentation support: [IsEnableBTF] *)

Section EnableBTF.
Import ebpf.

Variable host : Host.
Variable locations : list string.
Variable Sprintf : string -> string -> string.

Definition btfPath : string := "/sys/kernel/btf/vmlinux".

Lemma scanLocations_miss (locs : list string) (release : string) (st : State) :
  Forall (fun loc => os_Stat host (Sprintf loc release) <> None) locs ->
  fst (scanLocations host Sprintf locs release st) = false.
Proof.
  intros H. revert st. induction H as [|loc locs Hloc _ IH]; intros st.
  - reflexivity.
  - simpl. unfold bind, stat, call, ret. simpl.
    destruct (os_Stat host (Sprintf loc release)) eqn:E; [|contradiction].
    apply IH.
Qed.

(** No location of the table holds a kernel image for the release that
    [uname] reports. *)
Definition scanMisses : Prop :=
  forall u, Uname host = Ok u ->
    Forall (fun loc =>
              os_Stat host (Sprintf loc (charsToString (syscall.Release u))) <> None)
           locations.

Lemma checkKernelBTF_miss (st : State) :
  os_Stat host btfPath <> None -> scanMisses ->
  fst (checkKernelBTF host locations Sprintf st) <> (true, None).
Proof.
  intros Hfixed Hscan.
  unfold checkKernelBTF, bind, stat, call, ret. simpl.
  fold btfPath.
  destruct (os_Stat host btfPath) eqn:E; [|contradiction].
  unfold findVMLinux, getOSUnamer, bind, call, ret. simpl.
  destruct (Uname host) as [u|e'] eqn:Eu; simpl; [|discriminate].
  match goal with
  | |- context [scanLocations ?h ?f ?l ?r ?s] =>
      pose proof (scanLocations_miss l r s (Hscan u Eu)) as Hm;
      destruct (scanLocations h f l r s) as [hit st']
  end.
  simpl in Hm. subst hit. simpl. discriminate.
Qed.

Lemma IsEnableBTF_fallback (st : State) (cfg : gmap string string) :
  fst (checkKernelBTF host locations Sprintf st) <> (true, None) ->
  GetSystemConfig host = Ok cfg ->
  fst (IsEnableBTF host locations Sprintf st)
  = match cfg !! "CONFIG_DEBUG_INFO_BTF" with
    | Some bc => (String.eqb bc "y", None)
    | None => (false, None)
    end.
Proof.
  intros Hck Hcfg. unfold IsEnableBTF, bind.
  destruct (checkKernelBTF host locations Sprintf st) as [[found e] st1].
  simpl in Hck.
  assert (Hrest :
    fst ((do c <- getSystemConfig host;
          match c with
          | Err e0 => ret (false, Some e0)
          | Ok KernelConfig =>
              match KernelConfig !! "CONFIG_DEBUG_INFO_BTF" with
              | None => ret (false, None)
              | Some bc =>
                  if negb (String.eqb bc "y") then ret (false, None)
                  else ret (true, None)
              end
          end) st1)
    = match cfg !! "CONFIG_DEBUG_INFO_BTF" with
      | Some bc => (String.eqb bc "y", None)
      | None => (false, None)
      end).
  { unfold bind, getSystemConfig, call, ret. simpl. rewrite Hcfg.
    destruct (cfg !! "CONFIG_DEBUG_INFO_BTF") as [bc|]; [|reflexivity].
    destruct (String.eqb bc "y"); reflexivity. }
  destruct found; [destruct e as [e|]|]; try exact Hrest.
  contradiction.
Qed.

(** C5. When the fixed path exists, [IsEnableBTF] returns true after
    that single call to the host: neither the path scan nor the
    configuration is consulted.  When the fixed path is absent and the path
    scan finds nothing, the readable configuration decides: true when
    [CONFIG_DEBUG_INFO_BTF] is ["y"], and false with a nil error when it
    has another value or is absent. *)
Theorem IsEnableBTF_detection (st : State) :
  (os_Stat host btfPath = None ->
   IsEnableBTF host locations Sprintf st
   = ((true, None), mkState (hostVersion st) (trace st ++ [CallStat btfPath])))
  /\ (forall cfg : gmap string string,
        os_Stat host btfPath <> None -> scanMisses ->
        GetSystemConfig host = Ok cfg ->
        (cfg !! "CONFIG_DEBUG_INFO_BTF" = Some "y" ->
         fst (IsEnableBTF host locations Sprintf st) = (true, None))
        /\ (cfg !! "CONFIG_DEBUG_INFO_BTF" <> Some "y" ->
            fst (IsEnableBTF host locations Sprintf st) = (false, None))).
Proof.
  split.
  - intros Hfixed.
    unfold IsEnableBTF, checkKernelBTF, bind, stat, call, ret. simpl.
    fold btfPath. rewrite Hfixed. reflexivity.
  - intros cfg Hfixed Hscan Hcfg.
    rewrite (IsEnableBTF_fallback st cfg (checkKernelBTF_miss st Hfixed Hscan) Hcfg).
    split.
    + intros Hy. rewrite Hy. reflexivity.
    + intros Hn. destruct (cfg !! "CONFIG_DEBUG_INFO_BTF") as [bc|]; [|reflexivity].
      destruct (String.eqb bc "y") eqn:E; [|reflexivity].
      apply String.eqb_eq in E. subst bc. contradiction.
Qed.

End EnableBTF.

(** ** Kernel-version resolution *)

Section Resolution.
Import kernel.

Variable host : Host.

(** What each strategy yields on this host. *)
Definition ubuntuResult : result error N :=
  match ReadFile host "/proc/version_signature" with
  | Err err => Err err
  | Ok procVersion => parseUbuntuVersion procVersion
  end.

Definition debianResult : result error N :=
  match ReadFile host "/proc/version" with
  | Err err => Err (ErrWrap "error reading /proc/version: " err "")
  | Ok procVersion => parseDebianVersion procVersion
  end.

Definition unameResult : result error N :=
  match Uname host with
  | Err err => Err err
  | Ok buf =>
      kernelVersionFromReleaseString (TrimNul (utsnameStr (syscall.Release buf)))
  end.

Definition logged (st : State) (calls : list Call) : State :=
  mkState (hostVersion st) (trace st ++ calls).

Lemma currentVersionUbuntu_run (st : State) :
  currentVersionUbuntu host st
  = (ubuntuResult, logged st [CallReadFile "/proc/version_signature"]).
Proof.
  unfold currentVersionUbuntu, ubuntuResult, bind, call, ret, logged. simpl.
  destruct (ReadFile host "/proc/version_signature"); reflexivity.
Qed.

Lemma currentVersionDebian_run (st : State) :
  currentVersionDebian host st
  = (debianResult, logged st [CallReadFile "/proc/version"]).
Proof.
  unfold currentVersionDebian, debianResult, bind, call, ret, logged. simpl.
  destruct (ReadFile host "/proc/version"); reflexivity.
Qed.

Lemma currentVersionUname_run (st : State) :
  currentVersionUname host st = (unameResult, logged st [CallUname]).
Proof.
  unfold currentVersionUname, unameResult, bind, call, ret, logged. simpl.
  destruct (Uname host); reflexivity.
Qed.

Lemma logged_logged (st : State) (a b : list Call) :
  logged (logged st a) b = logged st (a ++ b).
Proof. unfold logged. simpl. rewrite <- app_assoc. reflexivity. Qed.

Lemma CurrentKernelVersion_run (st : State) :
  CurrentKernelVersion host st
  = match ubuntuResult with
    | Ok v => (Ok v, logged st [CallReadFile "/proc/version_signature"])
    | Err _ =>
        match debianResult with
        | Ok v => (Ok v, logged st [CallReadFile "/proc/version_signature";
                                    CallReadFile "/proc/version"])
        | Err _ => (unameResult,
                    logged st [CallReadFile "/proc/version_signature";
                               CallReadFile "/proc/version"; CallUname])
        end
    end.
Proof.
  unfold CurrentKernelVersion, bind.
  rewrite currentVersionUbuntu_run.
  destruct ubuntuResult as [v|e]; [reflexivity|].
  rewrite currentVersionDebian_run.
  destruct debianResult as [v|e']; unfold ret; rewrite ?logged_logged;
    [reflexivity|].
  rewrite currentVersionUname_run, logged_logged. reflexivity.
Qed.

(** C6. [CurrentKernelVersion] reads the Ubuntu signature file, then
    the Debian banner, then calls uname, stopping at the first strategy
    that succeeds and returning its version; a strategy that fails is
    followed by the next one, and the call fails only when all three do. *)
Theorem CurrentKernelVersion_first_success (st : State) :
  (forall v, ubuntuResult = Ok v ->
     CurrentKernelVersion host st
     = (Ok v, logged st [CallReadFile "/proc/version_signature"]))
  /\ (forall e v, ubuntuResult = Err e -> debianResult = Ok v ->
        CurrentKernelVersion host st
        = (Ok v, logged st [CallReadFile "/proc/version_signature";
                            CallReadFile "/proc/version"]))
  /\ (forall e e', ubuntuResult = Err e -> debianResult = Err e' ->
        CurrentKernelVersion host st
        = (unameResult, logged st [CallReadFile "/proc/version_signature";
                                   CallReadFile "/proc/version"; CallUname]))
  /\ (forall err, fst (CurrentKernelVersion host st) = Err err ->
        isOk ubuntuResult = false /\ isOk debianResult = false
        /\ unameResult = Err err).
Proof.
  rewrite CurrentKernelVersion_run.
  repeat split.
  - intros v ->. reflexivity.
  - intros e v -> ->. reflexivity.
  - intros e e' -> ->. reflexivity.
  - destruct ubuntuResult; [discriminate|reflexivity].
  - destruct ubuntuResult; [discriminate|].
    destruct debianResult; [discriminate|reflexivity].
  - destruct ubuntuResult; [discriminate|].
    destruct debianResult; [discriminate|]. simpl in H. exact H.
Qed.

(** C7, as amended. Once [HostVersion] has succeeded with a version
    other than 0, every later call returns that version and leaves the
    state as it is, whatever the host would answer: no file is read and
    uname is not called. *)
Theorem HostVersion_cached (st : State) (v : Version) :
  fst (HostVersion host st) = Ok v -> v <> 0 ->
  forall host' : Host,
    HostVersion host' (snd (HostVersion host st))
    = (Ok v, snd (HostVersion host st)).
Proof.
  intros Hfirst Hv host'.
  unfold HostVersion at 2 3. unfold HostVersion in Hfirst.
  unfold bind, getHostVersion in *.
  destruct (hostVersion st =? 0) eqn:Ecached; simpl in *.
  - rewrite CurrentKernelVersion_run in *.
    assert (Hcached : forall kv st1,
      HostVersion host' (mkState kv (trace st1)) = (Ok kv, mkState kv (trace st1))
      \/ kv = 0).
    { intros kv st1. destruct (N.eq_dec kv 0) as [->|Hkv]; [right; reflexivity|].
      left. unfold HostVersion, bind, getHostVersion. simpl.
      apply N.eqb_neq in Hkv. rewrite Hkv. reflexivity. }
    destruct ubuntuResult as [kv|e].
    + simpl in *. injection Hfirst as <-.
      destruct (Hcached kv (logged st [CallReadFile "/proc/version_signature"]))
        as [H|H]; [exact H|contradiction].
    + destruct debianResult as [kv|e'].
      * simpl in *. injection Hfirst as <-.
        destruct (Hcached kv (logged st [CallReadFile "/proc/version_signature";
                                          CallReadFile "/proc/version"]))
          as [H|H]; [exact H|contradiction].
      * destruct unameResult as [kv|e'']; simpl in *; [|discriminate].
        injection Hfirst as <-.
        destruct (Hcached kv (logged st [CallReadFile "/proc/version_signature";
                                          CallReadFile "/proc/version"; CallUname]))
          as [H|H]; [exact H|contradiction].
  - injection Hfirst as <-.
    unfold HostVersion, bind, getHostVersion, ret. rewrite Ecached. reflexivity.
Qed.

End Resolution.

(** ** The Postgres module *)

Section Postgres.
Import module.

Variable ManagerState : Type.
Variable freshManager : ManagerState.
Variable host : Host.
Variable Asset : string -> result error string.
Variable InitWithOptions :
  Manager ManagerState -> string -> Options -> Manager ManagerState * option error.
Variable Manager_Start : Manager ManagerState -> Manager ManagerState * option error.
Variable Manager_Stop : Manager ManagerState -> Manager ManagerState * option error.
Variable GetMap : Manager ManagerState -> string -> ebpfMap * bool * option error.
Variable Module_Close : option error.

Abbreviation PModule := (PostgresModule ManagerState).

(** The handles bound to a decoder. *)
Definition registered (m : PModule) (em : ebpfMap) : Prop :=
  exists funcs, eventFuncMaps _ m = Some funcs /\ is_Some (funcs !! em).

Lemma DecodeFun_unregistered (m : PModule) (em : ebpfMap) :
  ~ registered m em -> DecodeFun _ m em = (None, false).
Proof.
  intros Hnot. unfold DecodeFun.
  destruct (eventFuncMaps _ m) as [funcs|] eqn:E; [|reflexivity].
  destruct (funcs !! em) as [f|] eqn:El; [|reflexivity].
  exfalso. apply Hnot. exists funcs. split; [exact E|]. rewrite El. eauto.
Qed.

Lemma DecodeFun_registered (m : PModule) (em : ebpfMap) :
  registered m em -> exists f, DecodeFun _ m em = (Some f, true).
Proof.
  intros (funcs & E & [f El]). exists f. unfold DecodeFun.
  rewrite E, El. reflexivity.
Qed.

(** C9. [DecodeFun] on a handle that the decode binding never
    registered returns the nil decoder and found = false; it is a total
    function, so nothing else can happen.  After a decode binding that
    succeeds on an initialised module, the handle of the map "events" is
    bound to the Postgres decoder, and it is the only handle bound. *)
Theorem DecodeFun_found (m : PModule) (em : ebpfMap) :
  (~ registered m em -> DecodeFun _ m em = (None, false))
  /\ (registered m em -> exists f, DecodeFun _ m em = (Some f, true))
  /\ (forall m',
        eventFuncMaps _ m = Some ∅ ->
        initDecodeFun _ GetMap m = Returns (m', None) ->
        exists mgr h,
          bpfManager _ m = Some mgr
          /\ GetMap mgr "events" = (h, true, None)
          /\ DecodeFun _ m' h = (Some PostgresEvent, true)
          /\ (em <> h -> DecodeFun _ m' em = (None, false))).
Proof.
  split; [apply DecodeFun_unregistered|].
  split; [apply DecodeFun_registered|].
  intros m' Hinit Hrun. unfold initDecodeFun in Hrun.
  destruct (bpfManager _ m) as [mgr|]; [|discriminate].
  destruct (GetMap mgr "events") as [[h found] o] eqn:Eg.
  destruct found, o as [err|]; simpl in Hrun; try discriminate.
  rewrite Hinit in Hrun. injection Hrun as <-.
  exists mgr, h. split; [reflexivity|]. split; [exact Eg|]. split.
  - unfold DecodeFun. simpl. rewrite lookup_insert_eq. reflexivity.
  - intros Hne. unfold DecodeFun. simpl.
    rewrite lookup_insert_ne by congruence. reflexivity.
Qed.

(** C3. A module that was initialised, and whose [Start] finds no binary
    at the configured path, is returned by [Start] with an error and a
    nil manager; [Close] on it dereferences that nil manager and panics. *)
Theorem Close_after_failed_Start (c : PostgresConfig) (err : error) :
  os_Stat host (PostgresPath c) = Some err ->
  exists m1 e,
    Start _ freshManager host Asset InitWithOptions Manager_Start GetMap
      (fst (Init _ (newModule _ c) c))
    = Returns (m1, Some e)
    /\ Close _ Manager_Stop Module_Close m1 = Panics nilDereference.
Proof.
  intros Hstat. unfold Start, setupManagers, Init. simpl.
  destruct (Asset "user/bytecode/postgres_kern.o") as [byteBuf|e0].
  - rewrite Hstat. eexists _, _. split; [reflexivity|]. reflexivity.
  - eexists _, _. split; [reflexivity|]. reflexivity.
Qed.

(** When the manager was created, [Close] returns: with the wrapped error
    of [Stop], or with the result of the base type's [Close]. *)
Lemma Close_with_manager (m : PModule) (mgr : Manager ManagerState) :
  bpfManager _ m = Some mgr ->
  exists m1 e, Close _ Manager_Stop Module_Close m = Returns (m1, e).
Proof.
  intros Hm. unfold Close. rewrite Hm.
  destruct (Manager_Stop mgr) as [mgr1 [e|]]; eexists _, _; reflexivity.
Qed.

End Postgres.

(** ** Decimal text *)

Section Decimal.

(** The number that a run of decimal digits denotes, continuing from
    [acc]. *)
Fixpoint decVal (s : string) (acc : N) : N :=
  match s with
  | EmptyString => acc
  | String c s' => decVal s' (acc * 10 + digitVal c)
  end.

Lemma append_cons (x : ascii) (a b : string) :
  String x a +:+ b = String x (a +:+ b).
Proof. reflexivity. Qed.

Lemma append_nil_l (a : string) : "" +:+ a = a.
Proof. reflexivity. Qed.

Lemma append_assoc (a b c : string) : (a +:+ b) +:+ c = a +:+ (b +:+ c).
Proof.
  induction a as [|x a IH]; [reflexivity|].
  rewrite !append_cons, IH. reflexivity.
Qed.

Lemma append_nil_r (a : string) : a +:+ "" = a.
Proof.
  induction a as [|x a IH]; [reflexivity|].
  rewrite append_cons, IH. reflexivity.
Qed.

Lemma isDigit_digitChar (d : N) : d < 10 -> isDigit (digitChar d) = true.
Proof.
  intros H. unfold isDigit, digitChar, byteOf, charOf.
  rewrite N_ascii_embedding by lia.
  apply andb_true_intro. split; apply N.leb_le; lia.
Qed.

Lemma digitVal_digitChar (d : N) : d < 10 -> digitVal (digitChar d) = d.
Proof.
  intros H. unfold digitVal, digitChar, byteOf, charOf.
  rewrite N_ascii_embedding by lia. lia.
Qed.

Lemma allDigits_app (a b : string) :
  allDigits (a +:+ b) = allDigits a && allDigits b.
Proof.
  induction a as [|x a IH]; [reflexivity|].
  rewrite append_cons. simpl. rewrite IH, andb_assoc. reflexivity.
Qed.

Lemma decVal_app (a b : string) (acc : N) :
  decVal (a +:+ b) acc = decVal b (decVal a acc).
Proof.
  revert acc. induction a as [|x a IH]; intros acc; [reflexivity|].
  rewrite append_cons. simpl. apply IH.
Qed.

Lemma decVal_ge (s : string) (acc : N) : acc <= decVal s acc.
Proof.
  revert acc. induction s as [|c s IH]; intros acc; simpl; [lia|].
  specialize (IH (acc * 10 + digitVal c)). lia.
Qed.

Lemma decVal_mono (s : string) (a b : N) : a <= b -> decVal s a <= decVal s b.
Proof.
  revert a b. induction s as [|c s IH]; intros a b H; simpl; [exact H|].
  apply IH. lia.
Qed.

Lemma size_nat_div10 (u : N) (f : nat) :
  10 <= u -> (N.size_nat u <= S f)%nat -> (N.size_nat (u / 10) <= f)%nat.
Proof.
  intros Hu Hs.
  assert (Hlt : u / 10 < u) by (apply N.div_lt; lia).
  assert (Hhalf : u / 10 <= u / 2).
  { apply N.div_le_compat_l. lia. }
  assert (Hsz : forall a b : N, a <= b -> (N.size_nat a <= N.size_nat b)%nat).
  { intros a b Hab. destruct a as [|a]; [simpl; lia|].
    destruct b as [|b]; [lia|]. simpl.
    revert b Hab. induction a as [a IH|a IH|]; intros [b|b|] Hab; simpl;
      try lia; try (apply le_n_S, IH; lia).
    all: exfalso; lia. }
  assert (Hd : (N.size_nat (u / 2) <= f)%nat).
  { rewrite <- N.div2_div.
    destruct u as [|[q|q|]]; simpl in *; lia. }
  specialize (Hsz _ _ Hhalf). lia.
Qed.

(** The digits that [fmtDec] writes in front of the buffer denote [u]. *)
Lemma fmtDec_spec (fuel : nat) (u : N) (buf : string) :
  (N.size_nat u <= fuel)%nat ->
  exists ds, fmt.fmtDec fuel u buf = ds +:+ buf
             /\ allDigits ds = true /\ ds <> "" /\ decVal ds 0 = u.
Proof.
  revert u buf. induction fuel as [|f IH]; intros u buf Hsz.
  - destruct u; [|simpl in Hsz; destruct p; simpl in Hsz; lia].
    exists "0". repeat split; discriminate.
  - simpl. destruct (10 <=? u) eqn:E.
    + apply N.leb_le in E.
      destruct (IH (u / 10) (String (digitChar (u mod 10)) buf)
                  (size_nat_div10 u f E Hsz)) as (ds & Hf & Hd & Hne & Hv).
      exists (ds +:+ String (digitChar (u mod 10)) "").
      assert (Hm : u mod 10 < 10) by (apply N.mod_lt; lia).
      rewrite Hf, append_assoc. simpl. split; [reflexivity|].
      rewrite allDigits_app, Hd. simpl. rewrite isDigit_digitChar by exact Hm.
      split; [reflexivity|]. split.
      * destruct ds; discriminate.
      * rewrite decVal_app, Hv. simpl. rewrite digitVal_digitChar by exact Hm.
        rewrite (N.div_mod u 10) at 3 by lia. lia.
    + apply N.leb_gt in E. exists (String (digitChar u) "").
      simpl. rewrite isDigit_digitChar, digitVal_digitChar by exact E.
      repeat split; discriminate.
Qed.

Lemma Sprint_d_spec (u : N) :
  allDigits (fmt.Sprint_d u) = true /\ fmt.Sprint_d u <> ""
  /\ decVal (fmt.Sprint_d u) 0 = u.
Proof.
  destruct (fmtDec_spec (N.size_nat u) u "" (le_n _)) as (ds & Hf & Hd & Hne & Hv).
  unfold fmt.Sprint_d. rewrite Hf, append_nil_r. auto.
Qed.

End Decimal.

(** ** [strconv.ParseUint] on a run of digits *)

Section ParseUintFacts.
Import strconv.

Lemma digitVal_lt (c : ascii) : isDigit c = true -> digitVal c < 10.
Proof.
  unfold isDigit, digitVal. intros H. apply andb_prop in H as [H1 H2].
  apply N.leb_le in H1. apply N.leb_le in H2. lia.
Qed.

Lemma two64 : 2 ^ 64 = 18446744073709551616.
Proof. reflexivity. Qed.

Lemma cutoff_val : cutoff = 1844674407370955162.
Proof. reflexivity. Qed.

Lemma parseLoop_spec (maxVal : N) (s : string) (n : N) :
  maxVal < 2 ^ 64 -> n <= maxVal -> allDigits s = true ->
  parseLoop maxVal s n
  = if decVal s n <=? maxVal then (decVal s n, None) else (maxVal, Some ErrRange).
Proof.
  rewrite two64. intros Hmax. revert n.
  induction s as [|c s IH]; intros n Hn Hd.
  - simpl. destruct (n <=? maxVal) eqn:E; [reflexivity|].
    apply N.leb_gt in E. lia.
  - simpl in Hd. apply andb_prop in Hd as [Hc Hs].
    pose proof (digitVal_lt c Hc) as Hdv.
    cbn [parseLoop decVal]. rewrite Hc, cutoff_val, two64.
    pose proof (decVal_ge s (n * 10 + digitVal c)) as Hge.
    destruct (1844674407370955162 <=? n) eqn:Ecut.
    + apply N.leb_le in Ecut.
      destruct (decVal s (n * 10 + digitVal c) <=? maxVal) eqn:E; [|reflexivity].
      apply N.leb_le in E. lia.
    + apply N.leb_gt in Ecut.
      destruct (N.lt_ge_cases (n * 10 + digitVal c) 18446744073709551616) as [Hlt|Hge64].
      * rewrite (N.mod_small _ _ Hlt).
        destruct (n * 10 + digitVal c <? n * 10) eqn:E1;
          [apply N.ltb_lt in E1; lia|].
        destruct (maxVal <? n * 10 + digitVal c) eqn:E2; simpl.
        -- apply N.ltb_lt in E2.
           destruct (decVal s (n * 10 + digitVal c) <=? maxVal) eqn:E; [|reflexivity].
           apply N.leb_le in E. lia.
        -- apply N.ltb_ge in E2. apply IH; assumption.
      * assert (Hm : (n * 10 + digitVal c) mod 18446744073709551616
                     = n * 10 + digitVal c - 18446744073709551616).
        { symmetry. apply N.mod_unique with 1; lia. }
        rewrite Hm.
        destruct (n * 10 + digitVal c - 18446744073709551616 <? n * 10) eqn:E1;
          [|apply N.ltb_ge in E1; lia].
        simpl.
        destruct (decVal s (n * 10 + digitVal c) <=? maxVal) eqn:E; [|reflexivity].
        apply N.leb_le in E. lia.
Qed.

Lemma ParseUint_digits (s : string) (bitSize : N) :
  bitSize <= 64 -> allDigits s = true -> s <> "" ->
  ParseUint s bitSize
  = if decVal s 0 <=? 2 ^ bitSize - 1
    then (decVal s 0, None) else (2 ^ bitSize - 1, Some ErrRange).
Proof.
  intros Hb Hd Hne. destruct s as [|c s]; [contradiction|].
  unfold ParseUint. apply parseLoop_spec; [|lia|exact Hd].
  assert (2 ^ bitSize <= 2 ^ 64) by (apply N.pow_le_mono_r; lia).
  assert (0 < 2 ^ bitSize) by (apply N.neq_0_lt_0, N.pow_nonzero; lia).
  lia.
Qed.

End ParseUintFacts.

(** ** ASCII text as runes *)

Section AsciiRunes.
Import utf8.

Fixpoint isAscii (s : string) : bool :=
  match s with
  | EmptyString => true
  | String c s' => (byteOf c <? 128) && isAscii s'
  end.

Definition runeOf (c : ascii) : Rune := mkRune (byteOf c) (String c "").

Fixpoint runesOf (s : string) : list Rune :=
  match s with
  | EmptyString => []
  | String c s' => runeOf c :: runesOf s'
  end.

Lemma decode_cons_ascii (c : ascii) (t : string) :
  (byteOf c <? 128) = true -> decode (String c t) = runeOf c :: decode t.
Proof.
  intros H. cbn [decode DecodeRune]. rewrite H. reflexivity.
Qed.

Lemma decode_ascii (s t : string) :
  isAscii s = true -> decode (s +:+ t) = (runesOf s ++ decode t)%list.
Proof.
  induction s as [|c s IH]; intros H; [reflexivity|].
  simpl in H. apply andb_prop in H as [Hc Hs].
  rewrite append_cons, decode_cons_ascii by exact Hc.
  simpl. rewrite IH by exact Hs. reflexivity.
Qed.

Lemma decode_ascii_all (s : string) : isAscii s = true -> decode s = runesOf s.
Proof.
  intros H. rewrite <- (append_nil_r s) at 1.
  rewrite decode_ascii by exact H. apply app_nil_r.
Qed.

Lemma isDigit_ascii (c : ascii) : isDigit c = true -> (byteOf c <? 128) = true.
Proof.
  unfold isDigit. intros H. apply andb_prop in H as [H1 H2].
  apply N.leb_le in H1. apply N.leb_le in H2. apply N.ltb_lt. lia.
Qed.

Lemma allDigits_ascii (s : string) : allDigits s = true -> isAscii s = true.
Proof.
  induction s as [|c s IH]; simpl; [reflexivity|].
  intros H. apply andb_prop in H as [Hc Hs].
  rewrite (isDigit_ascii c Hc), (IH Hs). reflexivity.
Qed.

Lemma length_runesOf (s : string) : length (runesOf s) = String.length s.
Proof. induction s as [|c s IH]; simpl; [reflexivity|]. rewrite IH. reflexivity. Qed.

Lemma encode_runeOf (c : ascii) : encode (runeOf c) = String c "".
Proof.
  unfold encode, runeOf, RuneError. simpl.
  pose proof (N_ascii_bounded c) as Hb. unfold byteOf.
  destruct (N_of_ascii c =? 65533) eqn:E; [|reflexivity].
  apply N.eqb_eq in E. lia.
Qed.

Lemma rawOf_runesOf (s : string) : rawOf (runesOf s) = s.
Proof.
  induction s as [|c s IH]; simpl; [reflexivity|].
  rewrite IH. reflexivity.
Qed.

(** The first rune, if any, is not a decimal digit. *)
Definition noDigitAhead (inp : list Rune) : bool :=
  match inp with
  | r :: _ => negb (inRange 48 57 (code r))
  | [] => true
  end.

Lemma isDigit_inRange (c : ascii) : inRange 48 57 (byteOf c) = isDigit c.
Proof. reflexivity. Qed.

End AsciiRunes.

(** ** Runes of arbitrary bytes *)

Section Utf8Facts.
Import utf8.

Lemma pos_lor_ge_l (p q : positive) : (p <= Pos.lor p q)%positive.
Proof.
  revert q. induction p as [p IH|p IH|]; intros q; destruct q as [q|q|].
  - change (Pos.lor p~1 q~1) with ((Pos.lor p q)~1)%positive.
    specialize (IH q). lia.
  - change (Pos.lor p~1 q~0) with ((Pos.lor p q)~1)%positive.
    specialize (IH q). lia.
  - change (Pos.lor p~1 1) with (p~1)%positive. lia.
  - change (Pos.lor p~0 q~1) with ((Pos.lor p q)~1)%positive.
    specialize (IH q). lia.
  - change (Pos.lor p~0 q~0) with ((Pos.lor p q)~0)%positive.
    specialize (IH q). lia.
  - change (Pos.lor p~0 1) with (p~1)%positive. lia.
  - change (Pos.lor 1 q~1) with (q~1)%positive. lia.
  - change (Pos.lor 1 q~0) with (q~1)%positive. lia.
  - change (Pos.lor 1 1) with 1%positive. lia.
Qed.

Lemma lor_ge_l (a b : N) : a <= N.lor a b.
Proof.
  destruct a as [|p], b as [|q]; try (change (N.lor 0 0) with 0); try (change (N.lor 0 (N.pos q)) with (N.pos q)); try (change (N.lor (N.pos p) 0) with (N.pos p)); try lia.
  change (N.lor (N.pos p) (N.pos q)) with (N.pos (Pos.lor p q)).
  pose proof (pos_lor_ge_l p q). lia.
Qed.

Lemma lor_ge_r (a b : N) : b <= N.lor a b.
Proof. rewrite N.lor_comm. apply lor_ge_l. Qed.

Lemma land_mod (x k : N) : N.land x (N.ones k) = x mod 2 ^ k.
Proof. apply N.land_ones. Qed.

Lemma DecodeRune_high (c0 : ascii) (s1 : string) :
  128 <= byteOf c0 -> 128 <= fst (DecodeRune (String c0 s1)).
Proof.
  intros Hb. unfold DecodeRune.
  destruct (byteOf c0 <? 128) eqn:E0; [apply N.ltb_lt in E0; lia|].
  assert (HE : 128 <= RuneError) by (unfold RuneError; lia).
  destruct ((byteOf c0 <? 194) || (244 <? byteOf c0)) eqn:E1; [exact HE|].
  apply orb_false_elim in E1 as [E1 E2].
  apply N.ltb_ge in E1. apply N.ltb_ge in E2.
  destruct s1 as [|c1 s2]; [exact HE|].
  match goal with |- context [negb (inRange ?lo ?hi ?b)] =>
    destruct (inRange lo hi b) eqn:R1 end; [|exact HE].
  cbn [negb].
  unfold inRange in R1. apply andb_prop in R1 as [R1a R1b].
  apply N.leb_le in R1a. apply N.leb_le in R1b.
  destruct (byteOf c0 <? 224) eqn:E3.
  - apply N.ltb_lt in E3. simpl.
    etransitivity; [|apply lor_ge_l].
    rewrite N.shiftl_mul_pow2. change 31 with (N.ones 5). rewrite N.land_ones.
    change (2 ^ 5) with 32. change (2 ^ 6) with 64.
    assert (byteOf c0 mod 32 = byteOf c0 - 192)
      by (symmetry; apply N.mod_unique with 6; lia).
    lia.
  - apply N.ltb_ge in E3.
    destruct s2 as [|c2 s3]; [exact HE|].
    destruct (inRange 128 191 (byteOf c2)) eqn:R2; [|exact HE]. cbn [negb].
    destruct (byteOf c0 <? 240) eqn:E4.
    + apply N.ltb_lt in E4. simpl.
      destruct (byteOf c0 =? 224) eqn:E5.
      * apply N.eqb_eq in E5.
        assert (Hb1 : byteOf c1 <= 191)
          by (destruct (byteOf c0 =? 237); [lia|destruct (byteOf c0 =? 244); lia]).
        etransitivity; [|apply lor_ge_r]. etransitivity; [|apply lor_ge_l].
        unfold low6. rewrite N.shiftl_mul_pow2. change 63 with (N.ones 6).
        rewrite N.land_ones. change (2 ^ 6) with 64.
        assert (byteOf c1 mod 64 = byteOf c1 - 128)
          by (symmetry; apply N.mod_unique with 2; lia).
        lia.
      * apply N.eqb_neq in E5.
        etransitivity; [|apply lor_ge_l].
        rewrite N.shiftl_mul_pow2. change 15 with (N.ones 4). rewrite N.land_ones.
        change (2 ^ 4) with 16. change (2 ^ 12) with 4096.
        assert (byteOf c0 mod 16 = byteOf c0 - 224)
          by (symmetry; apply N.mod_unique with 14; lia).
        lia.
    + apply N.ltb_ge in E4.
      destruct s3 as [|c3 s4]; [exact HE|].
      destruct (inRange 128 191 (byteOf c3)) eqn:R3; [|exact HE]. cbn [negb].
      simpl.
      destruct (byteOf c0 =? 240) eqn:E5.
      * apply N.eqb_eq in E5.
        assert (Hb1 : byteOf c1 <= 191)
          by (destruct (byteOf c0 =? 237); [lia|destruct (byteOf c0 =? 244); lia]).
        assert (Ha1 : 144 <= byteOf c1)
          by (destruct (byteOf c0 =? 224); lia).
        etransitivity; [|apply lor_ge_r]. etransitivity; [|apply lor_ge_l].
        unfold low6. rewrite N.shiftl_mul_pow2. change 63 with (N.ones 6).
        rewrite N.land_ones. change (2 ^ 6) with 64. change (2 ^ 12) with 4096.
        assert (byteOf c1 mod 64 = byteOf c1 - 128)
          by (symmetry; apply N.mod_unique with 2; lia).
        lia.
      * apply N.eqb_neq in E5.
        etransitivity; [|apply lor_ge_l].
        rewrite N.shiftl_mul_pow2. change 7 with (N.ones 3). rewrite N.land_ones.
        change (2 ^ 3) with 8. change (2 ^ 18) with 262144.
        assert (byteOf c0 mod 8 = byteOf c0 - 240)
          by (symmetry; apply N.mod_unique with 30; lia).
        lia.
Qed.

Lemma DecodeRune_ascii (c0 : ascii) (s1 : string) :
  (byteOf c0 <? 128) = true -> DecodeRune (String c0 s1) = (byteOf c0, 1%nat).
Proof. intros H. unfold DecodeRune. rewrite H. reflexivity. Qed.

Ltac split_ifs H :=
  repeat match type of H with
         | context [if ?b then _ else _] => destruct b
         end.

Lemma decode_unfold (c0 : ascii) (s1 : string) :
  decode (String c0 s1)
  = mkRune (fst (DecodeRune (String c0 s1)))
      (takeBytes (snd (DecodeRune (String c0 s1))) (String c0 s1))
    :: decode (dropBytes (snd (DecodeRune (String c0 s1))) (String c0 s1))
  /\ (1 <= snd (DecodeRune (String c0 s1)) <= 4)%nat.
Proof.
  cbn [decode].
  destruct (DecodeRune (String c0 s1)) as [r w] eqn:E.
  cbn [fst snd].
  unfold DecodeRune in E.
  destruct s1 as [|c1 [|c2 [|c3 s4]]];
    split_ifs E; injection E as <- <-; cbn [takeBytes dropBytes];
    (split; [reflexivity|lia]).
Qed.

Lemma take_drop_bytes (n : nat) (s : string) : takeBytes n s +:+ dropBytes n s = s.
Proof.
  revert s. induction n as [|n IH]; intros [|c s]; try reflexivity.
  cbn [takeBytes dropBytes]. rewrite append_cons, IH. reflexivity.
Qed.

Lemma length_dropBytes (n : nat) (s : string) :
  String.length (dropBytes n s) = (String.length s - n)%nat.
Proof.
  revert s. induction n as [|n IH]; intros [|c s]; simpl; try lia. apply IH.
Qed.

Lemma hasNewline_dropBytes (n : nat) (s : string) :
  hasNewline s = false -> hasNewline (dropBytes n s) = false.
Proof.
  revert s. induction n as [|n IH]; intros [|c s] H; try exact H; try reflexivity.
  simpl in H. apply orb_false_elim in H as [_ H]. apply IH, H.
Qed.

(** Induction on a string, one rune at a time. *)
Lemma rune_ind (P : string -> Prop) :
  P "" ->
  (forall c0 s1,
      P (dropBytes (snd (DecodeRune (String c0 s1))) (String c0 s1)) ->
      P (String c0 s1)) ->
  forall s, P s.
Proof.
  intros Hnil Hstep s.
  remember (String.length s) as n eqn:Hn.
  revert s Hn. induction n as [n IH] using lt_wf_ind. intros s Hn.
  destruct s as [|c0 s1]; [exact Hnil|].
  apply Hstep.
  destruct (decode_unfold c0 s1) as [_ Hw].
  set (w := snd (DecodeRune (String c0 s1))) in *.
  apply (IH (String.length (dropBytes w (String c0 s1)))); [|reflexivity].
  rewrite length_dropBytes, Hn.
  change (String.length (String c0 s1)) with (S (String.length s1)). lia.
Qed.

Lemma rawOf_decode (s : string) : rawOf (decode s) = s.
Proof.
  induction s as [|c0 s1 IH] using rune_ind; [reflexivity|].
  destruct (decode_unfold c0 s1) as [-> _].
  cbn [rawOf raw]. rewrite IH. apply take_drop_bytes.
Qed.

Lemma head_code (c0 : ascii) (s1 : string) :
  (byteOf c0 <? 128) = true /\ fst (DecodeRune (String c0 s1)) = byteOf c0
  \/ 128 <= byteOf c0 /\ 128 <= fst (DecodeRune (String c0 s1)).
Proof.
  destruct (byteOf c0 <? 128) eqn:E.
  - left. split; [reflexivity|]. rewrite DecodeRune_ascii by exact E. reflexivity.
  - right. apply N.ltb_ge in E. split; [exact E|]. apply DecodeRune_high, E.
Qed.

Lemma decode_noNewline (s : string) :
  hasNewline s = false ->
  Forall (fun r => regexp.anyNotNL (code r) = true) (decode s).
Proof.
  induction s as [|c0 s1 IH] using rune_ind; intros H; [constructor|].
  destruct (decode_unfold c0 s1) as [-> _].
  constructor; [|apply IH, hasNewline_dropBytes, H].
  cbn [code]. unfold regexp.anyNotNL.
  simpl in H. apply orb_false_elim in H as [Hc _].
  destruct (head_code c0 s1) as [[_ ->]|[_ Hhigh]]; [rewrite Hc; reflexivity|].
  destruct (fst (DecodeRune (String c0 s1)) =? 10) eqn:E; [|reflexivity].
  apply N.eqb_eq in E. lia.
Qed.

(** The first rune is a decimal digit exactly when the first byte is. *)
Lemma head_digit (s : string) :
  noDigitAhead (decode s) = negb (startsWithDigit s).
Proof.
  destruct s as [|c0 s1]; [reflexivity|].
  destruct (decode_unfold c0 s1) as [-> _].
  cbn [noDigitAhead code startsWithDigit]. f_equal.
  destruct (head_code c0 s1) as [[_ ->]|[Hb Hhigh]]; [reflexivity|].
  unfold isDigit, inRange.
  destruct (fst (DecodeRune (String c0 s1)) <=? 57) eqn:E1;
    [apply N.leb_le in E1; lia|].
  destruct (byteOf c0 <=? 57) eqn:E2; [apply N.leb_le in E2; lia|].
  rewrite !andb_false_r. reflexivity.
Qed.

End Utf8Facts.

(** ** The scanner on decimal text *)

Section ScanFacts.
Import utf8 scan.

Lemma acceptDigits_run (ds : string) (rest : list Rune) :
  allDigits ds = true -> noDigitAhead rest = true ->
  acceptDigits (runesOf ds ++ rest) = (ds, rest).
Proof.
  intros Hd Hrest. induction ds as [|c ds IH].
  - simpl. destruct rest as [|r rest]; [reflexivity|].
    simpl in Hrest. simpl. unfold isDigitRune.
    destruct (inRange 48 57 (code r)); [discriminate|reflexivity].
  - simpl in Hd. apply andb_prop in Hd as [Hc Hs].
    cbn [runesOf app acceptDigits]. unfold isDigitRune at 1.
    change (code (runeOf c)) with (byteOf c).
    rewrite isDigit_inRange, Hc, (IH Hs), encode_runeOf. reflexivity.
Qed.

Lemma isSpace_digit (b : N) : inRange 48 57 b = true -> isSpace b = false.
Proof.
  unfold inRange. intros H. apply andb_prop in H as [H1 H2].
  apply N.leb_le in H1. apply N.leb_le in H2.
  unfold isSpace, inRange.
  repeat match goal with
         | |- context [?a <=? ?b] =>
             let E := fresh in destruct (a <=? b) eqn:E;
             [apply N.leb_le in E|apply N.leb_gt in E]
         | |- context [?a =? ?b] =>
             let E := fresh in destruct (a =? b) eqn:E;
             [apply N.eqb_eq in E|apply N.eqb_neq in E]
         end; simpl; try reflexivity; lia.
Qed.

Lemma SkipSpace_digit (c : ascii) (rest : list Rune) :
  isDigit c = true -> SkipSpace (runeOf c :: rest) = Ok (runeOf c :: rest).
Proof.
  intros Hc. cbn [SkipSpace]. change (code (runeOf c)) with (byteOf c).
  rewrite <- isDigit_inRange in Hc.
  rewrite (isSpace_digit _ Hc).
  unfold inRange in Hc. apply andb_prop in Hc as [H1 H2].
  apply N.leb_le in H1. apply N.leb_le in H2.
  destruct (byteOf c =? 13) eqn:E13; [apply N.eqb_eq in E13; lia|].
  destruct (byteOf c =? 10) eqn:E10; [apply N.eqb_eq in E10; lia|].
  reflexivity.
Qed.

Lemma scanUint8_digits (ds : string) (rest : list Rune) :
  allDigits ds = true -> ds <> "" -> decVal ds 0 < 256 ->
  noDigitAhead rest = true ->
  scanUint8 (runesOf ds ++ rest) = Ok (decVal ds 0, rest).
Proof.
  intros Hd Hne Hv Hrest. unfold scanUint8.
  destruct ds as [|c ds]; [contradiction|].
  pose proof Hd as Hd'. simpl in Hd'. apply andb_prop in Hd' as [Hc _].
  cbn [runesOf app]. rewrite (SkipSpace_digit c _ Hc).
  change (runeOf c :: (runesOf ds ++ rest))%list
    with (runesOf (String c ds) ++ rest)%list.
  rewrite (acceptDigits_run _ _ Hd Hrest).
  rewrite (ParseUint_digits _ 64 (N.le_refl _) Hd Hne).
  destruct (decVal (String c ds) 0 <=? 2 ^ 64 - 1) eqn:E.
  - rewrite (N.mod_small _ (2 ^ 8)) by exact Hv.
    rewrite N.eqb_refl. reflexivity.
  - apply N.leb_gt in E. rewrite two64 in E. lia.
Qed.

End ScanFacts.

(** ** Versions: rendering and parsing *)

Section VersionFacts.
Import utf8 scan kernel.

Lemma VersionCode_value (major minor patch : N) :
  major < 256 -> minor < 256 -> patch < 256 ->
  VersionCode major minor patch = major * 65536 + minor * 256 + patch.
Proof.
  intros Ha Hb Hc. unfold VersionCode, u32.
  rewrite !N.shiftl_mul_pow2.
  change (2 ^ 16) with 65536. change (2 ^ 8) with 256.
  change (2 ^ 32) with 4294967296.
  rewrite (N.mod_small (major * 65536)) by lia.
  rewrite (N.mod_small (minor * 256)) by lia.
  rewrite (N.mod_small (major * 65536 + minor * 256)) by lia.
  apply N.mod_small. lia.
Qed.

Lemma land_255 (x : N) : N.land x 255 = x mod 256.
Proof. change 255 with (N.ones 8). rewrite N.land_ones. reflexivity. Qed.

Lemma VersionCode_major (major minor patch : N) :
  major < 256 -> minor < 256 -> patch < 256 ->
  N.shiftr (VersionCode major minor patch) 16 = major.
Proof.
  intros Ha Hb Hc. rewrite VersionCode_value by assumption.
  rewrite N.shiftr_div_pow2. change (2 ^ 16) with 65536.
  symmetry. apply N.div_unique with (minor * 256 + patch); lia.
Qed.

Lemma VersionCode_minor (major minor patch : N) :
  major < 256 -> minor < 256 -> patch < 256 ->
  N.land (N.shiftr (VersionCode major minor patch) 8) 255 = minor.
Proof.
  intros Ha Hb Hc. rewrite VersionCode_value by assumption.
  rewrite land_255, N.shiftr_div_pow2. change (2 ^ 8) with 256.
  replace ((major * 65536 + minor * 256 + patch) / 256) with (major * 256 + minor)
    by (apply N.div_unique with patch; lia).
  symmetry. apply N.mod_unique with major; lia.
Qed.

Lemma VersionCode_patch (major minor patch : N) :
  major < 256 -> minor < 256 -> patch < 256 ->
  N.land (VersionCode major minor patch) 255 = patch.
Proof.
  intros Ha Hb Hc. rewrite VersionCode_value by assumption.
  rewrite land_255.
  symmetry. apply N.mod_unique with (major * 256 + minor); lia.
Qed.

Lemma String_VersionCode (major minor patch : N) :
  major < 256 -> minor < 256 -> patch < 256 ->
  String_ (VersionCode major minor patch)
  = fmt.Sprint_d major +:+ "." +:+ fmt.Sprint_d minor +:+ "." +:+ fmt.Sprint_d patch.
Proof.
  intros Ha Hb Hc. unfold String_.
  rewrite VersionCode_major, VersionCode_minor, VersionCode_patch by assumption.
  reflexivity.
Qed.

Lemma doScanf_uint8_digits (format : list fmtItem) (ds : string)
      (rest : list Rune) (stored : list scanned) :
  allDigits ds = true -> ds <> "" -> decVal ds 0 < 256 ->
  noDigitAhead rest = true ->
  doScanf (FUint8 :: format) (runesOf ds ++ rest) stored
  = doScanf format rest (stored ++ [VUint8 (decVal ds 0)]).
Proof.
  intros Hd Hne Hv Hrest. cbn [doScanf].
  assert (Hskip : SkipSpace (runesOf ds ++ rest) = Ok (runesOf ds ++ rest)%list).
  { destruct ds as [|c ds]; [contradiction|].
    simpl in Hd. apply andb_prop in Hd as [Hc _].
    apply (SkipSpace_digit c _ Hc). }
  rewrite Hskip, (scanUint8_digits ds rest Hd Hne Hv Hrest). reflexivity.
Qed.

Lemma doScanf_lit (format : list fmtItem) (c : ascii) (rest : list Rune)
      (stored : list scanned) :
  doScanf (FLit c :: format) (runeOf c :: rest) stored
  = doScanf format rest stored.
Proof.
  cbn [doScanf]. change (code (runeOf c)) with (byteOf c).
  rewrite N.eqb_refl. reflexivity.
Qed.

Lemma Sscanf_rendered (a b c : N) :
  a < 256 -> b < 256 -> c < 256 ->
  Sscanf (fmt.Sprint_d a +:+ "." +:+ fmt.Sprint_d b +:+ "." +:+ fmt.Sprint_d c)
         versionFormat
  = ([VUint8 a; VUint8 b; VUint8 c], None).
Proof.
  intros Ha Hb Hc.
  destruct (Sprint_d_spec a) as (Da & Na & Va).
  destruct (Sprint_d_spec b) as (Db & Nb & Vb).
  destruct (Sprint_d_spec c) as (Dc & Nc & Vc).
  unfold Sscanf, versionFormat.
  rewrite (decode_ascii _ _ (allDigits_ascii _ Da)).
  rewrite append_cons, append_nil_l, decode_cons_ascii by reflexivity.
  rewrite (decode_ascii _ _ (allDigits_ascii _ Db)).
  rewrite append_cons, append_nil_l, decode_cons_ascii by reflexivity.
  rewrite (decode_ascii_all _ (allDigits_ascii _ Dc)).
  rewrite doScanf_uint8_digits; [|assumption|assumption|rewrite Va; lia|reflexivity].
  rewrite doScanf_lit.
  rewrite doScanf_uint8_digits; [|assumption|assumption|rewrite Vb; lia|reflexivity].
  rewrite doScanf_lit.
  rewrite <- (app_nil_r (runesOf (fmt.Sprint_d c))).
  rewrite doScanf_uint8_digits; [|assumption|assumption|rewrite Vc; lia|reflexivity].
  rewrite Va, Vb, Vc. reflexivity.
Qed.

Lemma ParseVersion_String_bytes (major minor patch : N) :
  major < 256 -> minor < 256 -> patch < 256 ->
  ParseVersion (String_ (VersionCode major minor patch))
  = VersionCode major minor patch.
Proof.
  intros Ha Hb Hc. rewrite String_VersionCode by assumption.
  unfold ParseVersion. rewrite Sscanf_rendered by assumption. reflexivity.
Qed.

(** C1. For bytes [major], [minor], [patch] with [patch < 252], or with
    [(major, minor)] other than [(4, 14)], the version built from them is
    rendered as the three numbers in decimal separated by dots, and
    parsing that rendering gives the version back. *)
Theorem ParseVersion_String_roundtrip (major minor patch : N) :
  major < 256 -> minor < 256 -> patch < 256 ->
  patch < 252 \/ (major, minor) <> (4, 14) ->
  String_ (VersionCode major minor patch)
  = fmt.Sprint_d major +:+ "." +:+ fmt.Sprint_d minor +:+ "." +:+ fmt.Sprint_d patch
  /\ ParseVersion (String_ (VersionCode major minor patch))
     = VersionCode major minor patch.
Proof.
  intros Ha Hb Hc _. split.
  - apply String_VersionCode; assumption.
  - apply ParseVersion_String_bytes; assumption.
Qed.

End VersionFacts.

(** ** [ParseVersion] on any string *)

Section ParseVersionTotal.
Import utf8 scan kernel.

Fixpoint noStrings (format : list fmtItem) : bool :=
  match format with
  | [] => true
  | FString :: _ => false
  | _ :: format' => noStrings format'
  end.

Fixpoint countUint8 (format : list fmtItem) : nat :=
  match format with
  | [] => O
  | FUint8 :: format' => S (countUint8 format')
  | _ :: format' => countUint8 format'
  end.

Lemma scanUint8_bound (inp rest : list Rune) (v : N) :
  scanUint8 inp = Ok (v, rest) -> v < 256.
Proof.
  unfold scanUint8. intros H.
  destruct (SkipSpace inp) as [[|r inp1]|e]; try discriminate.
  destruct (acceptDigits (r :: inp1)) as [tok rest'].
  destruct tok as [|c tok]; [discriminate|].
  destruct (strconv.ParseUint (String c tok) 64) as [i [e|]]; [discriminate|].
  destruct (i mod 2 ^ 8 =? i) eqn:E; [|discriminate].
  injection H as <- _. apply N.eqb_eq in E. rewrite <- E.
  apply N.mod_lt. discriminate.
Qed.

Lemma doScanf_uint8_shape (format : list fmtItem) (inp : list Rune)
      (stored : list scanned) :
  noStrings format = true ->
  exists vals : list N,
    fst (doScanf format inp stored) = (stored ++ map VUint8 vals)%list
    /\ (length vals <= countUint8 format)%nat
    /\ Forall (fun v => v < 256) vals.
Proof.
  revert inp stored.
  assert (Hstop : forall (stored : list scanned) (n : nat),
    exists vals : list N,
      stored = (stored ++ map VUint8 vals)%list
      /\ (length vals <= n)%nat /\ Forall (fun v => v < 256) vals).
  { intros stored n. exists []. simpl. rewrite app_nil_r.
    repeat split; [lia|constructor]. }
  induction format as [|item format IH]; intros inp stored Hns.
  - apply Hstop.
  - destruct item; simpl in Hns; try discriminate; cbn [doScanf countUint8].
    + destruct (SkipSpace inp) as [inp1|e]; [|apply Hstop].
      destruct (scanUint8 inp1) as [[v rest]|e] eqn:Es; [|apply Hstop].
      destruct (IH rest (stored ++ [VUint8 v])%list Hns) as (vals & Hf & Hl & Hb).
      exists (v :: vals). rewrite Hf, <- app_assoc. simpl.
      repeat split; [lia|]. constructor; [|exact Hb].
      eapply scanUint8_bound; exact Es.
    + destruct inp as [|r rest]; [apply Hstop|].
      destruct (code r =? byteOf c); [|apply Hstop].
      destruct (IH rest stored Hns) as (vals & Hf & Hl & Hb).
      exists vals. auto.
    + destruct (advanceSpace inp) as [inp'|e]; [|apply Hstop].
      destruct (IH inp' stored Hns) as (vals & Hf & Hl & Hb).
      exists vals. auto.
Qed.

Lemma uint8Operand_map (vals : list N) (i : nat) :
  uint8Operand (map VUint8 vals) i 0 = nth i vals 0.
Proof.
  unfold uint8Operand. revert i.
  induction vals as [|v vals IH]; intros [|i]; simpl; try reflexivity.
  apply IH.
Qed.

(** C10. [ParseVersion] returns a version for every string: the
    operands that the scan stored, at most three bytes, give the
    components in order, and a component that was not stored is 0.  In
    particular ["not-a-version"] is parsed as version 0.0.0, which is 0. *)
Theorem ParseVersion_total :
  (forall s : string,
     exists vals : list N,
       fst (Sscanf s versionFormat) = map VUint8 vals
       /\ (length vals <= 3)%nat
       /\ Forall (fun v => v < 256) vals
       /\ ParseVersion s
          = VersionCode (nth 0 vals 0) (nth 1 vals 0) (nth 2 vals 0))
  /\ ParseVersion "not-a-version" = VersionCode 0 0 0
  /\ VersionCode 0 0 0 = 0.
Proof.
  split; [|split; reflexivity].
  intros s.
  destruct (doScanf_uint8_shape versionFormat (decode s) [] eq_refl)
    as (vals & Hf & Hl & Hb).
  exists vals. change (map VUint8 vals) with ([] ++ map VUint8 vals)%list.
  simpl in Hl. unfold Sscanf.
  repeat split; try assumption.
  unfold ParseVersion, Sscanf.
  destruct (doScanf versionFormat (decode s) []) as [stored err].
  simpl in Hf. subst stored. rewrite !uint8Operand_map. reflexivity.
Qed.

End ParseVersionTotal.

(** ** The matcher on decimal text *)

Section RegexFacts.
Import utf8 regexp.

Lemma run_RCat_cons (r : regex) (rs : list regex) (pos : nat) (inp : list Rune)
      (caps : Caps) (k : Cont) :
  run (RCat (r :: rs)) pos inp caps k
  = run r pos inp caps (fun pos' inp' caps' => run (RCat rs) pos' inp' caps' k).
Proof. reflexivity. Qed.

Lemma run_RCat_nil (pos : nat) (inp : list Rune) (caps : Caps) (k : Cont) :
  run (RCat []) pos inp caps k = k pos inp caps.
Proof. reflexivity. Qed.

Lemma run_RSeq (r1 r2 : regex) (pos : nat) (inp : list Rune) (caps : Caps) (k : Cont) :
  run (RSeq r1 r2) pos inp caps k
  = run r1 pos inp caps (fun pos' inp' caps' => run r2 pos' inp' caps' k).
Proof. reflexivity. Qed.

(** A repetition that can take a whole run, and whose continuation
    succeeds after it, succeeds with that choice. *)
Lemma star_run (p : N -> bool) (ds rest : list Rune) (pos : nat) (caps : Caps)
      (k : Cont) (c : Caps) :
  Forall (fun r => p (code r) = true) ds ->
  star p (pos + length ds) rest caps k = Some c ->
  star p pos (ds ++ rest) caps k = Some c.
Proof.
  intros Hds. revert pos. induction Hds as [|r ds Hr _ IH]; intros pos Hk.
  - simpl in *. rewrite Nat.add_0_r in Hk. exact Hk.
  - cbn [app star]. rewrite Hr. rewrite IH; [reflexivity|].
    simpl in Hk. rewrite Nat.add_succ_r in Hk. exact Hk.
Qed.

Lemma star_stop (p : N -> bool) (rest : list Rune) (pos : nat) (caps : Caps)
      (k : Cont) :
  match rest with r :: _ => p (code r) = false | [] => True end ->
  star p pos rest caps k = k pos rest caps.
Proof.
  destruct rest as [|r rest]; [reflexivity|].
  intros H. cbn [star]. rewrite H. reflexivity.
Qed.

Lemma digits_Forall (ds : string) :
  allDigits ds = true -> Forall (fun r => digit (code r) = true) (runesOf ds).
Proof.
  induction ds as [|c ds IH]; simpl; intros H; [constructor|].
  apply andb_prop in H as [Hc Hs]. constructor; [exact Hc|apply IH, Hs].
Qed.

Lemma noDigitAhead_stop (rest : list Rune) :
  noDigitAhead rest = true ->
  match rest with r :: _ => digit (code r) = false | [] => True end.
Proof.
  destruct rest as [|r rest]; [trivial|]. simpl. unfold digit.
  destruct (inRange 48 57 (code r)); [discriminate|reflexivity].
Qed.

Lemma firstn_runes (ds : string) (rest : list Rune) (pos : nat) :
  firstn (pos + String.length ds - pos) (runesOf ds ++ rest) = runesOf ds.
Proof.
  replace (pos + String.length ds - pos)%nat with (length (runesOf ds))
    by (rewrite length_runesOf; lia).
  rewrite firstn_app, Nat.sub_diag, firstn_all. simpl. apply app_nil_r.
Qed.

(** A capturing group of one or more digits takes the whole run. *)
Lemma group_plus_digits (i : nat) (ds : string) (rest : list Rune) (pos : nat)
      (caps : Caps) (k : Cont) (c : Caps) :
  allDigits ds = true -> ds <> "" -> noDigitAhead rest = true ->
  k (pos + String.length ds)%nat rest (<[i := Some ds]> caps) = Some c ->
  run (RGroup i (RPlus digit)) pos (runesOf ds ++ rest) caps k = Some c.
Proof.
  intros Hd Hne Hrest Hk.
  destruct ds as [|x ds]; [contradiction|].
  pose proof Hd as Hd'. simpl in Hd'. apply andb_prop in Hd' as [Hx Hs].
  cbn [run RPlus]. cbn [runesOf app].
  change (code (runeOf x)) with (byteOf x).
  change (digit (byteOf x)) with (isDigit x). rewrite Hx.
  apply star_run; [apply digits_Forall, Hs|].
  rewrite star_stop by (apply noDigitAhead_stop, Hrest).
  rewrite length_runesOf.
  change (runeOf x :: (runesOf ds ++ rest))%list
    with (runesOf (String x ds) ++ rest)%list.
  replace (S pos + String.length ds)%nat
    with (pos + String.length (String x ds))%nat by (simpl; lia).
  rewrite firstn_runes, rawOf_runesOf. exact Hk.
Qed.

Lemma set_lit (x : ascii) (rest : list Rune) (pos : nat) (caps : Caps) (k : Cont) :
  run (RSet (lit x)) pos (runeOf x :: rest) caps k = k (S pos) rest caps.
Proof.
  cbn [run]. unfold lit. change (code (runeOf x)) with (byteOf x).
  rewrite N.eqb_refl. reflexivity.
Qed.

Lemma set_any (r : Rune) (rest : list Rune) (pos : nat) (caps : Caps) (k : Cont) :
  (code r =? 10) = false ->
  run (RSet anyNotNL) pos (r :: rest) caps k = k (S pos) rest caps.
Proof. intros H. cbn [run]. unfold anyNotNL. rewrite H. reflexivity. Qed.

Lemma opt_taken (r : regex) (inp : list Rune) (pos : nat) (caps : Caps)
      (k : Cont) (c : Caps) :
  run r pos inp caps k = Some c -> run (ROpt r) pos inp caps k = Some c.
Proof. intros H. cbn [run]. rewrite H. reflexivity. Qed.

Lemma star_any_to_end (rest : list Rune) (pos : nat) (caps : Caps) (k : Cont)
      (c : Caps) :
  Forall (fun r => anyNotNL (code r) = true) rest ->
  k (pos + length rest)%nat [] caps = Some c ->
  run (RStar anyNotNL) pos rest caps k = Some c.
Proof.
  intros Hall Hk. cbn [run]. rewrite <- (app_nil_r rest).
  apply star_run; [exact Hall|]. exact Hk.
Qed.

End RegexFacts.

(** ** Release strings *)

Section ReleaseFacts.
Import utf8 regexp kernel.

Lemma run_RGroup (i : nat) (r : regex) (pos : nat) (inp : list Rune)
      (caps : Caps) (k : Cont) :
  run (RGroup i r) pos inp caps k
  = run r pos inp caps
      (fun pos' inp' caps' =>
         k pos' inp' (<[i := Some (rawOf (firstn (pos' - pos) inp))]> caps')).
Proof. reflexivity. Qed.

Lemma search_first (re : regex) (groups pos : nat) (inp : list Rune) (c : Caps) :
  matchAt re groups pos inp = Some c -> search re groups pos inp = Some c.
Proof. intros H. destruct inp; simpl; rewrite H; reflexivity. Qed.

(** A release string [d1.d2] followed by one more character and the
    digits [d3]: the third group of [releasePattern] is [d3], whatever
    that character is. *)
Lemma release_match (d1 d2 d3 tail : string) (sep : ascii) :
  allDigits d1 = true -> d1 <> "" ->
  allDigits d2 = true -> d2 <> "" ->
  allDigits d3 = true -> d3 <> "" ->
  (byteOf sep <? 128) = true -> (byteOf sep =? 10) = false ->
  isDigit sep = false ->
  hasNewline tail = false -> startsWithDigit tail = false ->
  exists whole,
    FindStringSubmatch releasePattern 3
      (d1 +:+ "." +:+ d2 +:+ String sep (d3 +:+ tail))
    = [whole; d1; d2; d3].
Proof.
  intros D1 N1 D2 N2 D3 N3 Hsep Hnl Hsd Htnl Htd.
  assert (Hm : exists whole,
    matchAt releasePattern 3 0
      (runesOf d1 ++ runeOf "." :: runesOf d2 ++ runeOf sep
         :: runesOf d3 ++ decode tail)%list
    = Some [Some whole; Some d1; Some d2; Some d3]).
  { eexists. unfold matchAt. rewrite run_RGroup. unfold releasePattern.
    rewrite run_RCat_cons. cbn [run]. cbv beta.
    rewrite run_RCat_cons. apply group_plus_digits; [assumption..|reflexivity|].
    rewrite run_RCat_cons, set_lit.
    rewrite run_RCat_cons. apply group_plus_digits; [assumption..| |].
    { simpl. rewrite isDigit_inRange, Hsd. reflexivity. }
    rewrite run_RCat_cons. apply opt_taken.
    rewrite run_RSeq, set_any by exact Hnl.
    apply group_plus_digits;
      [assumption..|rewrite head_digit, Htd; reflexivity|].
    rewrite run_RCat_cons.
    apply star_any_to_end; [apply decode_noNewline, Htnl|].
    rewrite run_RCat_cons. cbn [run]. rewrite run_RCat_nil.
    simpl. reflexivity. }
  destruct Hm as [whole Hm]. exists whole.
  unfold FindStringSubmatch.
  rewrite (decode_ascii _ _ (allDigits_ascii _ D1)).
  rewrite append_cons, append_nil_l, decode_cons_ascii by reflexivity.
  rewrite (decode_ascii _ _ (allDigits_ascii _ D2)).
  rewrite decode_cons_ascii by exact Hsep.
  rewrite (decode_ascii _ _ (allDigits_ascii _ D3)).
  rewrite (search_first _ _ _ _ _ Hm). reflexivity.
Qed.

End ReleaseFacts.

Section ReleaseVersions.
Import utf8 regexp kernel.

(** The patch number of a release string whose pattern groups are known. *)
Definition patchOf (d3 : string) : N := fst (strconv.ParseUint d3 8).

Lemma ParseUint8_rendered (p : N) :
  patchOf (fmt.Sprint_d p) = if p <=? 255 then p else 255.
Proof.
  destruct (Sprint_d_spec p) as (Dp & Np & Vp).
  unfold patchOf.
  rewrite (ParseUint_digits _ 8 ltac:(lia) Dp Np), Vp.
  change (2 ^ 8 - 1) with 255.
  destruct (p <=? 255); reflexivity.
Qed.

(** C2, as amended. A release string that starts with [4.14.] followed
    by a patch number of 252 or more is encoded with patch component 255:
    the clamp is applied by [kernelVersionFromReleaseString].  The text
    after the patch number is any text without a newline that does not
    continue the number.  [ParseVersion] and [VersionCode] apply no clamp:
    a version 4.14.q built from bytes keeps the patch component [q] through
    rendering and parsing. *)
Theorem release_4_14_clamped :
  (forall (p : N) (tail : string),
     252 <= p ->
     hasNewline tail = false -> startsWithDigit tail = false ->
     kernelVersionFromReleaseString ("4.14." +:+ fmt.Sprint_d p +:+ tail)
     = Ok (VersionCode 4 14 255))
  /\ N.land (VersionCode 4 14 255) 255 = 255
  /\ (forall q : N,
        q < 256 ->
        N.land (ParseVersion (String_ (VersionCode 4 14 q))) 255 = q).
Proof.
  split; [|split; [reflexivity|]].
  - intros p tail Hp Hnl Htd.
    destruct (Sprint_d_spec p) as (Dp & Np & Vp).
    destruct (release_match "4" "14" (fmt.Sprint_d p) tail "."
                eq_refl ltac:(discriminate) eq_refl ltac:(discriminate)
                Dp Np eq_refl eq_refl eq_refl Hnl Htd) as [whole Hm].
    unfold kernelVersionFromReleaseString.
    change ("4.14." +:+ fmt.Sprint_d p +:+ tail)
      with ("4" +:+ "." +:+ "14" +:+ String "." (fmt.Sprint_d p +:+ tail)).
    rewrite Hm. cbn [length Nat.ltb Nat.leb nthString nth].
    change (strconv.ParseUint "4" 8) with (4, @None strconv.NumError).
    change (strconv.ParseUint "14" 8) with (14, @None strconv.NumError).
    cbv iota beta.
    fold (patchOf (fmt.Sprint_d p)). rewrite ParseUint8_rendered.
    assert (Hclamp : (252 <=? (if p <=? 255 then p else 255)) = true).
    { destruct (p <=? 255); apply N.leb_le; lia. }
    rewrite Hclamp. reflexivity.
  - intros q Hq.
    rewrite ParseVersion_String_bytes by lia.
    apply VersionCode_patch; lia.
Qed.

(** C8. The release string ["5.15-76-generic"] has no patch component,
    yet it is encoded with patch 76: the pattern accepts any character,
    here [-], in front of the third number. *)
Theorem release_dash_taken_as_patch :
  kernelVersionFromReleaseString "5.15-76-generic" = Ok (VersionCode 5 15 76)
  /\ N.land (VersionCode 5 15 76) 255 = 76
  /\ FindStringSubmatch releasePattern 3 "5.15-76-generic"
     = ["5.15-76-generic"; "5"; "15"; "76"].
Proof. repeat split; vm_compute; reflexivity. Qed.

(** The parts of C8 that hold. *)
Lemma release_ubuntu_example :
  kernelVersionFromReleaseString "5.15.0-76-generic" = Ok (VersionCode 5 15 0).
Proof. vm_compute. reflexivity. Qed.

Lemma release_not_a_version :
  kernelVersionFromReleaseString "not-a-version"
  = Err (ErrQuote "got invalid release version " "not-a-version"
           " (expected format '4.3.2-1')").
Proof. vm_compute. reflexivity. Qed.

Lemma release_two_components :
  kernelVersionFromReleaseString "5.15" = Ok (VersionCode 5 15 0).
Proof. vm_compute. reflexivity. Qed.

End ReleaseVersions.

(** ** The encoding of a release string from its groups *)

Section ReleaseEncoding.
Import utf8 regexp kernel.

Lemma parseLoop_le (maxVal : N) (s : string) (n : N) :
  n <= maxVal -> fst (strconv.parseLoop maxVal s n) <= maxVal.
Proof.
  revert n. induction s as [|c s IH]; intros n Hn; [exact Hn|].
  cbn [strconv.parseLoop].
  destruct (isDigit c); [|simpl; lia].
  destruct (strconv.cutoff <=? n); [simpl; lia|].
  match goal with |- context [if ?b then _ else _] => destruct b eqn:E end;
    [simpl; lia|].
  apply IH. apply orb_false_elim in E as [_ E]. apply N.ltb_ge in E. exact E.
Qed.

Lemma patchOf_le (d3 : string) : patchOf d3 <= 255.
Proof.
  unfold patchOf, strconv.ParseUint. destruct d3 as [|c d3]; [simpl; lia|].
  change (2 ^ 8 - 1) with 255. apply parseLoop_le. lia.
Qed.

(** The clamp of [kernelVersionFromReleaseString]. *)
Definition clamp (major minor patch : N) : N :=
  if (major =? 4) && (minor =? 14) && (252 <=? patch) then 255 else patch.

Lemma clamp_le (major minor patch : N) :
  patch <= 255 -> clamp major minor patch <= 255.
Proof. unfold clamp. intros H. destruct (_ && _); lia. Qed.

Lemma ParseUint8_small (ds : string) :
  allDigits ds = true -> ds <> "" -> decVal ds 0 < 256 ->
  strconv.ParseUint ds 8 = (decVal ds 0, None).
Proof.
  intros Hd Hne Hv. rewrite (ParseUint_digits ds 8 ltac:(lia) Hd Hne).
  change (2 ^ 8 - 1) with 255.
  destruct (decVal ds 0 <=? 255) eqn:E; [reflexivity|].
  apply N.leb_gt in E. lia.
Qed.

(** When the pattern matches with groups [d1], [d2], [d3] and the first
    two denote bytes, the result is the version built from them and from
    the clamped patch number. *)
Lemma release_encoding (s whole d1 d2 d3 : string) :
  FindStringSubmatch releasePattern 3 s = [whole; d1; d2; d3] ->
  allDigits d1 = true -> d1 <> "" -> decVal d1 0 < 256 ->
  allDigits d2 = true -> d2 <> "" -> decVal d2 0 < 256 ->
  kernelVersionFromReleaseString s
  = Ok (VersionCode (decVal d1 0) (decVal d2 0)
          (clamp (decVal d1 0) (decVal d2 0) (patchOf d3))).
Proof.
  intros Hm D1 N1 V1 D2 N2 V2. unfold kernelVersionFromReleaseString.
  rewrite Hm. cbn [length Nat.ltb Nat.leb nthString nth].
  rewrite (ParseUint8_small d1 D1 N1 V1), (ParseUint8_small d2 D2 N2 V2).
  cbv iota beta. fold (patchOf d3).
  fold (clamp (decVal d1 0) (decVal d2 0) (patchOf d3)).
  pose proof (clamp_le (decVal d1 0) (decVal d2 0) _ (patchOf_le d3)) as Hc.
  set (a := decVal d1 0) in *. set (b := decVal d2 0) in *.
  set (c := clamp a b (patchOf d3)) in *.
  rewrite VersionCode_value by lia.
  f_equal. unfold u64, u32. rewrite two64. change (2 ^ 32) with 4294967296.
  rewrite (N.mod_small (a * 256)) by lia.
  rewrite (N.mod_small (a * 256 * 256)) by lia.
  rewrite (N.mod_small (b * 256)) by lia.
  rewrite (N.mod_small (a * 256 * 256 + b * 256)) by lia.
  rewrite (N.mod_small (a * 256 * 256 + b * 256 + c)) by lia.
  rewrite N.mod_small by lia. lia.
Qed.

Lemma opt_skipped (r : regex) (inp : list Rune) (pos : nat) (caps : Caps)
      (k : Cont) :
  run r pos inp caps k = None -> run (ROpt r) pos inp caps k = k pos inp caps.
Proof. intros H. cbn [run]. rewrite H. reflexivity. Qed.

(** A release string [d1.d2] that ends there, or goes on with a character
    that is not a digit and is not followed by one: the third group does
    not take part. *)
Lemma release_match_two (d1 d2 tail : string) :
  allDigits d1 = true -> d1 <> "" ->
  allDigits d2 = true -> d2 <> "" ->
  hasNewline tail = false -> startsWithDigit tail = false ->
  match tail with
  | String x t => (byteOf x <? 128) = true /\ startsWithDigit t = false
  | EmptyString => True
  end ->
  exists whole,
    FindStringSubmatch releasePattern 3 (d1 +:+ "." +:+ d2 +:+ tail)
    = [whole; d1; d2; ""].
Proof.
  intros D1 N1 D2 N2 Htnl Htd Hnext.
  assert (Hm : exists whole,
    matchAt releasePattern 3 0
      (runesOf d1 ++ runeOf "." :: runesOf d2 ++ decode tail)%list
    = Some [Some whole; Some d1; Some d2; None]).
  { eexists. unfold matchAt. rewrite run_RGroup. unfold releasePattern.
    rewrite run_RCat_cons. cbn [run]. cbv beta.
    rewrite run_RCat_cons. apply group_plus_digits; [assumption..|reflexivity|].
    rewrite run_RCat_cons, set_lit.
    rewrite run_RCat_cons. apply group_plus_digits;
      [assumption..|rewrite head_digit, Htd; reflexivity|].
    rewrite run_RCat_cons, opt_skipped.
    - rewrite run_RCat_cons.
      apply star_any_to_end; [apply decode_noNewline, Htnl|].
      rewrite run_RCat_cons. cbn [run]. rewrite run_RCat_nil.
      simpl. reflexivity.
    - rewrite run_RSeq. destruct tail as [|x t]; [reflexivity|].
      destruct Hnext as [Hx Ht].
      rewrite decode_cons_ascii by exact Hx. cbn [run].
      destruct (anyNotNL (code (runeOf x))); [|reflexivity].
      unfold RPlus. rewrite run_RSeq.
      pose proof (head_digit t) as Hh. rewrite Ht in Hh.
      destruct (decode t) as [|r rest]; [reflexivity|].
      cbn [run]. simpl in Hh. unfold digit.
      destruct (inRange 48 57 (code r)); [discriminate|reflexivity]. }
  destruct Hm as [whole Hm]. exists whole.
  unfold FindStringSubmatch.
  rewrite (decode_ascii _ _ (allDigits_ascii _ D1)).
  rewrite append_cons, append_nil_l, decode_cons_ascii by reflexivity.
  rewrite (decode_ascii _ _ (allDigits_ascii _ D2)).
  rewrite (search_first _ _ _ _ _ Hm). reflexivity.
Qed.

(** The patch number defaults to 0 when the third group does not take
    part. *)
Lemma release_without_patch (a b : N) (tail : string) :
  a < 256 -> b < 256 ->
  hasNewline tail = false -> startsWithDigit tail = false ->
  match tail with
  | String x t => (byteOf x <? 128) = true /\ startsWithDigit t = false
  | EmptyString => True
  end ->
  kernelVersionFromReleaseString
    (fmt.Sprint_d a +:+ "." +:+ fmt.Sprint_d b +:+ tail)
  = Ok (VersionCode a b 0).
Proof.
  intros Ha Hb Htnl Htd Hnext.
  destruct (Sprint_d_spec a) as (Da & Na & Va).
  destruct (Sprint_d_spec b) as (Db & Nb & Vb).
  destruct (release_match_two _ _ tail Da Na Db Nb Htnl Htd Hnext) as [whole Hm].
  rewrite (release_encoding _ _ _ _ _ Hm Da Na ltac:(rewrite Va; lia)
             Db Nb ltac:(rewrite Vb; lia)).
  rewrite Va, Vb. change (patchOf "") with 0. unfold clamp.
  change (252 <=? 0) with false. rewrite andb_false_r. reflexivity.
Qed.

(** Whatever character stands in front of a third number, that number is
    the patch. *)
Lemma release_separator (a b c : N) (sep : ascii) (tail : string) :
  a < 256 -> b < 256 -> c < 256 ->
  (byteOf sep <? 128) = true -> (byteOf sep =? 10) = false ->
  isDigit sep = false ->
  hasNewline tail = false -> startsWithDigit tail = false ->
  kernelVersionFromReleaseString
    (fmt.Sprint_d a +:+ "." +:+ fmt.Sprint_d b
       +:+ String sep (fmt.Sprint_d c +:+ tail))
  = Ok (VersionCode a b (clamp a b c)).
Proof.
  intros Ha Hb Hc Hsep Hnl Hsd Htnl Htd.
  destruct (Sprint_d_spec a) as (Da & Na & Va).
  destruct (Sprint_d_spec b) as (Db & Nb & Vb).
  destruct (Sprint_d_spec c) as (Dc & Nc & Vc).
  destruct (release_match _ _ _ tail sep Da Na Db Nb Dc Nc Hsep Hnl Hsd Htnl Htd)
    as [whole Hm].
  rewrite (release_encoding _ _ _ _ _ Hm Da Na ltac:(rewrite Va; lia)
             Db Nb ltac:(rewrite Vb; lia)).
  rewrite Va, Vb, ParseUint8_rendered.
  destruct (c <=? 255) eqn:E; [reflexivity|]. apply N.leb_gt in E. lia.
Qed.

End ReleaseEncoding.

(** ** Strings that are not release strings *)

Section ReleaseErrors.
Import utf8 regexp kernel.

(** The leading text of a release string, on bytes: one or more digits, a
    dot, and a digit. *)
Fixpoint dropDigits (s : string) : string :=
  match s with
  | String c s' => if isDigit c then dropDigits s' else s
  | EmptyString => ""
  end.

Definition dotThenDigit (s : string) : bool :=
  match s with
  | String d s' => (byteOf d =? 46) && startsWithDigit s'
  | EmptyString => false
  end.

Definition leadingVersion (s : string) : bool :=
  startsWithDigit s && dotThenDigit (dropDigits s).

(** The same on runes. *)
Fixpoint afterDigits (inp : list Rune) : list Rune :=
  match inp with
  | r :: rest => if digit (code r) then afterDigits rest else inp
  | [] => []
  end.

Definition dotDigit (inp : list Rune) : bool :=
  match inp with
  | d :: rest => (code d =? 46) && negb (noDigitAhead rest)
  | [] => false
  end.

Lemma afterDigits_stop (inp : list Rune) :
  noDigitAhead inp = true -> afterDigits inp = inp.
Proof.
  destruct inp as [|r rest]; [reflexivity|]. simpl. unfold digit.
  destruct (inRange 48 57 (code r)); [discriminate|reflexivity].
Qed.

Lemma afterDigits_decode (s : string) :
  afterDigits (decode s) = decode (dropDigits s).
Proof.
  induction s as [|c s IH]; [reflexivity|].
  cbn [dropDigits]. destruct (isDigit c) eqn:Ec.
  - rewrite decode_cons_ascii by (apply isDigit_ascii, Ec).
    cbn [afterDigits]. change (digit (code (runeOf c))) with (isDigit c).
    rewrite Ec. exact IH.
  - apply afterDigits_stop. rewrite head_digit. simpl. rewrite Ec. reflexivity.
Qed.

Lemma dotDigit_decode (s : string) : dotDigit (decode s) = dotThenDigit s.
Proof.
  destruct s as [|d s']; [reflexivity|].
  cbn [dotThenDigit].
  destruct (head_code d s') as [[Hd Hc]|[Hd Hc]].
  - rewrite decode_cons_ascii by exact Hd.
    cbn [dotDigit]. change (code (runeOf d)) with (byteOf d).
    rewrite head_digit, negb_involutive. reflexivity.
  - destruct (decode_unfold d s') as [-> _]. cbn [dotDigit code].
    destruct (fst (DecodeRune (String d s')) =? 46) eqn:E1;
      [apply N.eqb_eq in E1; lia|].
    destruct (byteOf d =? 46) eqn:E2; [apply N.eqb_eq in E2; lia|].
    reflexivity.
Qed.

Lemma leadingVersion_decode (s : string) :
  negb (noDigitAhead (decode s)) && dotDigit (afterDigits (decode s))
  = leadingVersion s.
Proof.
  unfold leadingVersion.
  rewrite head_digit, negb_involutive, afterDigits_decode, dotDigit_decode.
  reflexivity.
Qed.

(** What follows the first group of [releasePattern]. *)
Definition afterMajor : list regex :=
  [ RSet (lit ".");
    RGroup 2 (RPlus digit);
    ROpt (RSeq (RSet anyNotNL) (RGroup 3 (RPlus digit)));
    RStar anyNotNL;
    REnd ].

Lemma afterMajor_fails (pos : nat) (inp : list Rune) (caps : Caps) (k : Cont) :
  dotDigit inp = false -> run (RCat afterMajor) pos inp caps k = None.
Proof.
  intros H. unfold afterMajor. rewrite run_RCat_cons.
  destruct inp as [|d rest]; [reflexivity|].
  cbn [run]. unfold lit at 1. change (byteOf ".") with 46.
  simpl in H. destruct (code d =? 46); [|reflexivity].
  simpl in H. rewrite run_RCat_cons, run_RGroup. unfold RPlus. rewrite run_RSeq.
  destruct rest as [|r rest]; [reflexivity|].
  cbn [run]. simpl in H. unfold digit.
  destruct (inRange 48 57 (code r)); [discriminate|reflexivity].
Qed.

Lemma digit_not_dot (r : Rune) : digit (code r) = true -> (code r =? 46) = false.
Proof.
  unfold digit, inRange. intros H. apply andb_prop in H as [H1 _].
  apply N.leb_le in H1. apply N.eqb_neq. lia.
Qed.

Lemma star_digit_fails (k : Cont) :
  (forall pos inp caps, dotDigit inp = false -> k pos inp caps = None) ->
  forall inp pos caps,
    dotDigit (afterDigits inp) = false -> star digit pos inp caps k = None.
Proof.
  intros Hk. induction inp as [|r rest IH]; intros pos caps H.
  - apply Hk. reflexivity.
  - cbn [star]. cbn [afterDigits] in H.
    destruct (digit (code r)) eqn:Er.
    + rewrite (IH _ _ H). apply Hk. simpl. rewrite (digit_not_dot r Er).
      reflexivity.
    + apply Hk, H.
Qed.

Lemma matchAt_fails (inp : list Rune) :
  negb (noDigitAhead inp) && dotDigit (afterDigits inp) = false ->
  matchAt releasePattern 3 0 inp = None.
Proof.
  intros H. unfold matchAt. rewrite run_RGroup. unfold releasePattern.
  rewrite run_RCat_cons. cbn [run]. rewrite run_RCat_cons, run_RGroup.
  unfold RPlus. rewrite run_RSeq.
  destruct inp as [|r rest]; [reflexivity|].
  cbn [run]. simpl in H. unfold digit at 1.
  destruct (inRange 48 57 (code r)) eqn:Er; [|reflexivity].
  simpl in H. fold (digit (code r)) in Er. rewrite Er in H.
  apply star_digit_fails; [|exact H].
  intros pos inp caps Hd. apply (afterMajor_fails pos inp _ _ Hd).
Qed.

Lemma search_later (inp : list Rune) (pos : nat) :
  search releasePattern 3 (S pos) inp = None.
Proof.
  revert pos. induction inp as [|r rest IH]; intros pos;
    cbn [search]; unfold matchAt at 1; rewrite run_RGroup;
    unfold releasePattern at 1; rewrite run_RCat_cons; cbn [run];
    [reflexivity|apply IH].
Qed.

Lemma FindStringSubmatch_fails (s : string) :
  leadingVersion s = false -> FindStringSubmatch releasePattern 3 s = [].
Proof.
  intros H. rewrite <- leadingVersion_decode in H.
  unfold FindStringSubmatch.
  assert (Hs : search releasePattern 3 0 (decode s) = None).
  { destruct (decode s) as [|r rest] eqn:E; cbn [search];
      rewrite (matchAt_fails _ H); [reflexivity|apply search_later]. }
  rewrite Hs. reflexivity.
Qed.

(** A string whose leading text is not [major.minor] is rejected with
    the error that quotes it. *)
Lemma release_invalid (s : string) :
  leadingVersion s = false ->
  kernelVersionFromReleaseString s
  = Err (ErrQuote "got invalid release version " s
           " (expected format '4.3.2-1')").
Proof.
  intros H. unfold kernelVersionFromReleaseString.
  rewrite (FindStringSubmatch_fails s H). reflexivity.
Qed.

End ReleaseErrors.

(** * Concrete hosts and modules *)

Section Examples.

Definition enoent : error := ErrOS "no such file or directory".

(** A 65-byte field of [Utsname]: the text, padded with zero bytes. *)
Definition field65 (s : string) : string :=
  s +:+ kernel.zeros (65 - String.length s).

Definition utsnameOf (release : string) : syscall.Utsname :=
  {| syscall.Sysname := field65 "Linux";
     syscall.Nodename := field65 "host";
     syscall.Release := field65 release;
     syscall.Version := field65 "#1 SMP";
     syscall.Machine := field65 "x86_64";
     syscall.Domainname := field65 "(none)" |}.

(** A host without the Ubuntu and Debian files, whose [uname] reports
    [release], where only the paths of [present] exist. *)
Definition unameHost (release : string) (present : list string)
           (config : result error (gmap string string)) : Host :=
  {| os_Stat := fun path =>
       if existsb (String.eqb path) present then None else Some enoent;
     ReadFile := fun _ => Err enoent;
     Uname := Ok (utsnameOf release);
     GetSystemConfig := config |}.

(** An Ubuntu host: the signature file carries the release. *)
Definition ubuntuHost : Host :=
  {| os_Stat := fun _ => Some enoent;
     ReadFile := fun path =>
       if String.eqb path "/proc/version_signature"
       then Ok "Ubuntu 6.2.0-33.33~22.04.1-generic 6.2.16"
       else Err enoent;
     Uname := Ok (utsnameOf "6.2.0-33-generic");
     GetSystemConfig := Ok ∅ |}.

(** A Debian host: no signature file, a banner in [/proc/version]. *)
Definition debianHost : Host :=
  {| os_Stat := fun _ => Some enoent;
     ReadFile := fun path =>
       if String.eqb path "/proc/version"
       then Ok "Linux version 4.9.0-8-amd64 (gcc) #1 SMP Debian 4.9.130-2 (2018-10-27)"
       else Err enoent;
     Uname := Ok (utsnameOf "4.9.0-8-amd64");
     GetSystemConfig := Ok ∅ |}.

Definition configOf (l : list (string * string)) : gmap string string :=
  list_to_map l.

Definition fullConfig : gmap string string :=
  configOf [("CONFIG_BPF", "y"); ("CONFIG_UPROBES", "y");
            ("CONFIG_ARCH_SUPPORTS_UPROBES", "y"); ("CONFIG_DEBUG_INFO_BTF", "y")].

Definition noUprobesConfig : gmap string string :=
  configOf [("CONFIG_BPF", "y"); ("CONFIG_ARCH_SUPPORTS_UPROBES", "y")].

Definition uprobesOffConfig : gmap string string :=
  configOf [("CONFIG_BPF", "y"); ("CONFIG_UPROBES", "n");
            ("CONFIG_ARCH_SUPPORTS_UPROBES", "y"); ("CONFIG_DEBUG_INFO_BTF", "n")].

(** A rendering of a path template with one [%s]. *)
Fixpoint fillTemplate (template arg : string) : string :=
  match template with
  | String "%" (String "s" rest) => arg +:+ rest
  | String c rest => String c (fillTemplate rest arg)
  | EmptyString => ""
  end.

Definition exampleLocations : list string :=
  ["/boot/vmlinux-%s"; "/usr/lib/debug/boot/vmlinux-%s"].

Definition exampleConfig : module.PostgresConfig :=
  {| module.PostgresPath := "/usr/lib/postgresql/14/bin/postgres";
     module.FuncName := "exec_simple_query" |}.

End Examples.

(** * The properties at concrete inputs *)

Section Witnesses.
Import kernel.

Lemma ParseVersion_String_roundtrip_witness :
  String_ (VersionCode 5 15 0) = "5.15.0"
  /\ ParseVersion (String_ (VersionCode 5 15 0)) = VersionCode 5 15 0.
Proof.
  apply (ParseVersion_String_roundtrip 5 15 0); [lia|lia|lia|left; lia].
Defined.

(** [ParseVersion] applies no clamp: 4.14.252 keeps its patch number. *)
Lemma ParseVersion_keeps_patch_252 :
  ParseVersion "4.14.252" = VersionCode 4 14 252
  /\ N.land (ParseVersion "4.14.252") 255 = 252
  /\ N.land (ParseVersion "4.14.252") 255 <> 255.
Proof. repeat split; vm_compute; congruence. Qed.

Lemma release_4_14_clamped_witness :
  kernelVersionFromReleaseString ("4.14." +:+ fmt.Sprint_d 252 +:+ "-generic")
  = Ok (VersionCode 4 14 255)
  /\ N.land (ParseVersion (String_ (VersionCode 4 14 252))) 255 = 252.
Proof.
  split.
  - apply (proj1 release_4_14_clamped 252 "-generic"); [lia|reflexivity..].
  - apply (proj2 (proj2 release_4_14_clamped) 252). lia.
Defined.

Lemma IsEnableBPF_flags_witness :
  fst (ebpf.IsEnableBPF (unameHost "5.15.0" [] (Ok fullConfig)) initialState)
  = (true, None)
  /\ fst (ebpf.IsEnableBPF (unameHost "5.15.0" [] (Ok noUprobesConfig)) initialState)
     = (false, Some (ErrNew "Config not found,  item:CONFIG_UPROBES."))
  /\ fst (ebpf.IsEnableBPF (unameHost "5.15.0" [] (Ok uprobesOffConfig)) initialState)
     = (false, Some (ErrNew "Config disabled, item :CONFIG_UPROBES.")).
Proof.
  split; [|split].
  - apply (proj1 (IsEnableBPF_flags (unameHost "5.15.0" [] (Ok fullConfig))
                    initialState fullConfig eq_refl)).
    repeat constructor.
  - apply (proj1 (proj1 (proj2 (IsEnableBPF_flags
                    (unameHost "5.15.0" [] (Ok noUprobesConfig))
                    initialState noUprobesConfig eq_refl))
                    ["CONFIG_BPF"] "CONFIG_UPROBES" ["CONFIG_ARCH_SUPPORTS_UPROBES"]
                    eq_refl ltac:(repeat constructor))).
    reflexivity.
  - apply (proj2 (proj1 (proj2 (IsEnableBPF_flags
                    (unameHost "5.15.0" [] (Ok uprobesOffConfig))
                    initialState uprobesOffConfig eq_refl))
                    ["CONFIG_BPF"] "CONFIG_UPROBES" ["CONFIG_ARCH_SUPPORTS_UPROBES"]
                    eq_refl ltac:(repeat constructor)) "n").
    + reflexivity.
    + discriminate.
Defined.

Lemma IsEnableBTF_detection_witness :
  ebpf.IsEnableBTF (unameHost "5.15.0" [btfPath] (Ok uprobesOffConfig))
    exampleLocations fillTemplate initialState
  = ((true, None), mkState 0 [CallStat btfPath])
  /\ fst (ebpf.IsEnableBTF (unameHost "5.15.0" [] (Ok fullConfig))
            exampleLocations fillTemplate initialState) = (true, None)
  /\ fst (ebpf.IsEnableBTF (unameHost "5.15.0" [] (Ok uprobesOffConfig))
            exampleLocations fillTemplate initialState) = (false, None)
  /\ fst (ebpf.IsEnableBTF (unameHost "5.15.0" [] (Ok noUprobesConfig))
            exampleLocations fillTemplate initialState) = (false, None).
Proof.
  assert (Hscan : forall cfg,
    scanMisses (unameHost "5.15.0" [] (Ok cfg)) exampleLocations fillTemplate).
  { intros cfg u Hu. repeat constructor; discriminate. }
  assert (Hfixed : forall cfg,
    os_Stat (unameHost "5.15.0" [] (Ok cfg)) btfPath <> None)
    by (intros cfg; discriminate).
  split; [|split; [|split]].
  - apply (proj1 (IsEnableBTF_detection
                    (unameHost "5.15.0" [btfPath] (Ok uprobesOffConfig))
                    exampleLocations fillTemplate initialState)).
    reflexivity.
  - apply (proj1 (proj2 (IsEnableBTF_detection
                    (unameHost "5.15.0" [] (Ok fullConfig))
                    exampleLocations fillTemplate initialState)
                    fullConfig (Hfixed _) (Hscan _) eq_refl)).
    reflexivity.
  - apply (proj2 (proj2 (IsEnableBTF_detection
                    (unameHost "5.15.0" [] (Ok uprobesOffConfig))
                    exampleLocations fillTemplate initialState)
                    uprobesOffConfig (Hfixed _) (Hscan _) eq_refl)).
    discriminate.
  - apply (proj2 (proj2 (IsEnableBTF_detection
                    (unameHost "5.15.0" [] (Ok noUprobesConfig))
                    exampleLocations fillTemplate initialState)
                    noUprobesConfig (Hfixed _) (Hscan _) eq_refl)).
    discriminate.
Defined.

End Witnesses.

Section ResolutionWitnesses.
Import kernel.

Definition sigFile : string := "/proc/version_signature".
Definition bannerFile : string := "/proc/version".

Lemma CurrentKernelVersion_first_success_witness :
  CurrentKernelVersion ubuntuHost initialState
  = (Ok (VersionCode 6 2 16), mkState 0 [CallReadFile sigFile])
  /\ CurrentKernelVersion debianHost initialState
     = (Ok (VersionCode 4 9 130),
        mkState 0 [CallReadFile sigFile; CallReadFile bannerFile])
  /\ CurrentKernelVersion (unameHost "5.15.0-76-generic" [] (Ok ∅)) initialState
     = (Ok (VersionCode 5 15 0),
        mkState 0 [CallReadFile sigFile; CallReadFile bannerFile; CallUname]).
Proof.
  split; [|split].
  - apply (proj1 (CurrentKernelVersion_first_success ubuntuHost initialState)
             (VersionCode 6 2 16)).
    vm_compute. reflexivity.
  - apply (proj1 (proj2 (CurrentKernelVersion_first_success debianHost initialState))
             enoent (VersionCode 4 9 130)).
    + vm_compute. reflexivity.
    + vm_compute. reflexivity.
  - pose proof (proj1 (proj2 (proj2 (CurrentKernelVersion_first_success
                  (unameHost "5.15.0-76-generic" [] (Ok ∅)) initialState)))
                  enoent (ErrWrap "error reading /proc/version: " enoent "")
                  eq_refl eq_refl) as H.
    rewrite H. vm_compute. reflexivity.
Defined.

(** On a host whose kernel reports release 0.0.0 the first call
    succeeds with version 0, which is also the mark of an empty cache: the
    next call resolves the version again, and returns another version when
    the host answers differently. *)
Lemma HostVersion_zero_not_cached :
  fst (HostVersion (unameHost "0.0.0" [] (Ok ∅)) initialState) = Ok 0
  /\ HostVersion ubuntuHost
       (snd (HostVersion (unameHost "0.0.0" [] (Ok ∅)) initialState))
     = (Ok (VersionCode 6 2 16),
        mkState (VersionCode 6 2 16)
          [CallReadFile sigFile; CallReadFile bannerFile; CallUname;
           CallReadFile sigFile])
  /\ ~ (forall (host : Host) (st : State) (v : Version),
          fst (HostVersion host st) = Ok v ->
          forall host' : Host,
            HostVersion host' (snd (HostVersion host st))
            = (Ok v, snd (HostVersion host st))).
Proof.
  split; [vm_compute; reflexivity|].
  split; [vm_compute; reflexivity|].
  intros H.
  specialize (H (unameHost "0.0.0" [] (Ok ∅)) initialState 0
                ltac:(vm_compute; reflexivity) ubuntuHost).
  vm_compute in H. discriminate H.
Qed.

Lemma HostVersion_cached_witness :
  HostVersion (unameHost "0.0.0" [] (Ok ∅))
    (snd (HostVersion ubuntuHost initialState))
  = (Ok (VersionCode 6 2 16), snd (HostVersion ubuntuHost initialState)).
Proof.
  apply (HostVersion_cached ubuntuHost initialState (VersionCode 6 2 16)).
  - vm_compute. reflexivity.
  - vm_compute. discriminate.
Defined.

End ResolutionWitnesses.

Section PostgresWitnesses.
Import module.

Definition idleManager (m : Manager unit) : Manager unit * option error := (m, None).

Definition eventsAt (h : ebpfMap) (m : Manager unit) (name : string)
  : ebpfMap * bool * option error :=
  if String.eqb name "events" then (h, true, None) else (0, false, None).

(** An initialised module whose manager has been set up. *)
Definition readyModule : PostgresModule unit :=
  {| conf := exampleConfig;
     bpfManager := Some {| Probes := []; Maps := ["events"]; internal := tt |};
     bpfManagerOptions := zeroOptions;
     eventFuncMaps := Some ∅;
     eventMaps := [] |}.

Lemma Close_after_failed_Start_witness :
  exists m1 e,
    Start unit tt (unameHost "5.15.0" [] (Ok ∅)) (fun _ => Ok "ELF")
      (fun m _ _ => (m, None)) idleManager (eventsAt 7)
      (fst (Init unit (newModule unit exampleConfig) exampleConfig))
    = Returns (m1, Some e)
    /\ Close unit idleManager None m1 = Panics nilDereference.
Proof.
  apply (Close_after_failed_Start unit tt (unameHost "5.15.0" [] (Ok ∅))
           (fun _ => Ok "ELF") (fun m _ _ => (m, None)) idleManager idleManager
           (eventsAt 7) None exampleConfig enoent).
  reflexivity.
Defined.

Lemma DecodeFun_found_witness :
  DecodeFun unit readyModule 7 = (None, false)
  /\ exists m',
       initDecodeFun unit (eventsAt 7) readyModule = Returns (m', None)
       /\ DecodeFun unit m' 7 = (Some PostgresEvent, true)
       /\ DecodeFun unit m' 8 = (None, false).
Proof.
  split.
  - apply (proj1 (DecodeFun_found unit (eventsAt 7) readyModule 7)).
    intros (funcs & E & [f Hf]). simpl in E. injection E as <-.
    rewrite lookup_empty in Hf. discriminate Hf.
  - eexists. split; [reflexivity|].
    destruct (proj2 (proj2 (DecodeFun_found unit (eventsAt 7) readyModule 8))
                _ eq_refl eq_refl) as (mgr & h & Hm & Hg & Hh & Hother).
    injection Hm as <-. vm_compute in Hg. injection Hg as <-.
    split; [exact Hh|]. apply Hother. discriminate.
Defined.

End PostgresWitnesses.

(** * Further properties of the code *)

(** ** Version codes *)

Section VersionCodes.
Import utf8 scan kernel.

(** X1. The three components of a version built from bytes are read back
    by the shifts and masks of [String], so two such versions are equal
    only when their components are. *)
Theorem VersionCode_components (major minor patch : N) :
  major < 256 -> minor < 256 -> patch < 256 ->
  (N.shiftr (VersionCode major minor patch) 16,
   N.land (N.shiftr (VersionCode major minor patch) 8) 255,
   N.land (VersionCode major minor patch) 255) = (major, minor, patch)
  /\ VersionCode major minor patch < 2 ^ 24
  /\ (forall major' minor' patch' : N,
        major' < 256 -> minor' < 256 -> patch' < 256 ->
        VersionCode major minor patch = VersionCode major' minor' patch' ->
        major = major' /\ minor = minor' /\ patch = patch').
Proof.
  intros Ha Hb Hc. split; [|split].
  - rewrite VersionCode_major, VersionCode_minor, VersionCode_patch by assumption.
    reflexivity.
  - rewrite VersionCode_value by assumption. change (2 ^ 24) with 16777216. lia.
  - intros a' b' c' Ha' Hb' Hc' H.
    rewrite !VersionCode_value in H by assumption. lia.
Qed.

Lemma VersionCode_components_witness :
  (N.shiftr (VersionCode 5 15 76) 16,
   N.land (N.shiftr (VersionCode 5 15 76) 8) 255,
   N.land (VersionCode 5 15 76) 255) = (5, 15, 76).
Proof.
  apply (proj1 (VersionCode_components 5 15 76 ltac:(lia) ltac:(lia) ltac:(lia))).
Defined.

(** X2. Version codes built from bytes compare as their components do,
    major first, then minor, then patch. *)
Theorem VersionCode_order (a b c a' b' c' : N) :
  a < 256 -> b < 256 -> c < 256 -> a' < 256 -> b' < 256 -> c' < 256 ->
  (VersionCode a b c < VersionCode a' b' c'
   <-> a < a' \/ (a = a' /\ (b < b' \/ (b = b' /\ c < c')))).
Proof.
  intros Ha Hb Hc Ha' Hb' Hc'.
  rewrite !VersionCode_value by assumption. lia.
Qed.

Lemma VersionCode_order_witness :
  VersionCode 4 19 255 < VersionCode 5 0 0.
Proof.
  apply (proj2 (VersionCode_order 4 19 255 5 0 0 ltac:(lia) ltac:(lia) ltac:(lia)
                  ltac:(lia) ltac:(lia) ltac:(lia))).
  left. lia.
Defined.

Lemma nth_bytes_lt (vals : list N) (i : nat) :
  Forall (fun v => v < 256) vals -> nth i vals 0 < 256.
Proof.
  intros H. revert i. induction H as [|v vals Hv _ IH]; intros [|i]; simpl;
    try lia; try exact Hv. apply IH.
Qed.

Lemma ParseVersion_bytes (s : string) :
  exists a b c, a < 256 /\ b < 256 /\ c < 256
                /\ ParseVersion s = VersionCode a b c.
Proof.
  destruct (doScanf_uint8_shape versionFormat (decode s) [] eq_refl)
    as (vals & Hf & _ & Hb).
  exists (nth 0 vals 0), (nth 1 vals 0), (nth 2 vals 0).
  repeat split; try (apply nth_bytes_lt, Hb).
  unfold ParseVersion, Sscanf.
  destruct (doScanf versionFormat (decode s) []) as [stored err].
  simpl in Hf. subst stored. rewrite !uint8Operand_map. reflexivity.
Qed.

(** X3. Whatever the input, [ParseVersion] returns a version of three
    bytes, and such a version is a fixed point of rendering and parsing:
    [ParseVersion (String (ParseVersion s)) = ParseVersion s]. *)
Theorem ParseVersion_normal_form (s : string) :
  ParseVersion s < 2 ^ 24
  /\ ParseVersion (String_ (ParseVersion s)) = ParseVersion s.
Proof.
  destruct (ParseVersion_bytes s) as (a & b & c & Ha & Hb & Hc & ->).
  split.
  - rewrite VersionCode_value by assumption. change (2 ^ 24) with 16777216. lia.
  - apply ParseVersion_String_bytes; assumption.
Qed.

End VersionCodes.

(** ** [ParseVersion] on text around a version *)

Section ParseVersionEdges.
Import utf8 scan kernel.

(** A rune below 128 stands for the single byte it was read from. *)
Definition plainRune (r : Rune) : Prop :=
  code r < 128 -> raw r = String (charOf (code r)) "".

Lemma decode_plain (s : string) : Forall plainRune (decode s).
Proof.
  induction s as [|c0 s1 IH] using rune_ind; [constructor|].
  destruct (decode_unfold c0 s1) as [-> _]. constructor; [|exact IH].
  unfold plainRune. cbn [code raw]. intros Hlow.
  destruct (head_code c0 s1) as [[Hb Hc]|[_ Hhigh]]; [|lia].
  rewrite Hc. rewrite (DecodeRune_ascii c0 s1 Hb). cbn [snd takeBytes].
  unfold charOf, byteOf. rewrite ascii_N_embedding. reflexivity.
Qed.

Lemma runesOf_plain (s : string) : Forall plainRune (runesOf s).
Proof.
  induction s as [|c s IH]; constructor; [|exact IH].
  unfold plainRune, runeOf. cbn [code raw]. intros _.
  unfold charOf, byteOf. rewrite ascii_N_embedding. reflexivity.
Qed.

Lemma digit_rune_encode (r : Rune) :
  plainRune r -> isDigitRune r = true ->
  encode r = String (charOf (code r)) "" /\ isDigit (charOf (code r)) = true.
Proof.
  unfold isDigitRune, inRange. intros Hp Hd.
  apply andb_prop in Hd as [H1 H2].
  apply N.leb_le in H1. apply N.leb_le in H2.
  split.
  - unfold encode, RuneError.
    destruct (code r =? 65533) eqn:E; [apply N.eqb_eq in E; lia|].
    apply Hp. lia.
  - unfold isDigit, byteOf, charOf. rewrite N_ascii_embedding by lia.
    apply andb_true_intro. split; apply N.leb_le; lia.
Qed.

Lemma acceptDigits_digits (inp : list Rune) :
  Forall plainRune inp -> allDigits (fst (acceptDigits inp)) = true.
Proof.
  induction 1 as [|r inp Hr _ IH]; [reflexivity|].
  cbn [acceptDigits]. destruct (isDigitRune r) eqn:Ed; [|reflexivity].
  destruct (acceptDigits inp) as [tok rest]. cbn [fst] in *.
  destruct (digit_rune_encode r Hr Ed) as [-> Hc].
  rewrite append_cons, append_nil_l. simpl. rewrite Hc, IH. reflexivity.
Qed.

Lemma acceptDigits_app (ds : string) (inp : list Rune) :
  allDigits ds = true ->
  acceptDigits (runesOf ds ++ inp)
  = (ds +:+ fst (acceptDigits inp), snd (acceptDigits inp)).
Proof.
  intros Hd. induction ds as [|c ds IH].
  - simpl. rewrite append_nil_l. destruct (acceptDigits inp); reflexivity.
  - simpl in Hd. apply andb_prop in Hd as [Hc Hs].
    cbn [runesOf app acceptDigits]. unfold isDigitRune at 1.
    change (code (runeOf c)) with (byteOf c).
    rewrite isDigit_inRange, Hc, (IH Hs), encode_runeOf. reflexivity.
Qed.

(** A number that does not fit a byte is not stored. *)
Lemma scanUint8_big (ds : string) (inp : list Rune) :
  allDigits ds = true -> ds <> "" -> 256 <= decVal ds 0 ->
  Forall plainRune inp ->
  exists e, scanUint8 (runesOf ds ++ inp) = Err e.
Proof.
  intros Hd Hne Hv Hinp. unfold scanUint8.
  destruct ds as [|c ds]; [contradiction|].
  pose proof Hd as Hd'. simpl in Hd'. apply andb_prop in Hd' as [Hc _].
  cbn [runesOf app]. rewrite (SkipSpace_digit c _ Hc).
  change (runeOf c :: (runesOf ds ++ inp))%list
    with (runesOf (String c ds) ++ inp)%list.
  rewrite (acceptDigits_app _ inp Hd).
  set (more := fst (acceptDigits inp)).
  assert (Hmore : allDigits more = true) by (apply acceptDigits_digits, Hinp).
  assert (Htok : allDigits (String c ds +:+ more) = true)
    by (rewrite allDigits_app, Hd, Hmore; reflexivity).
  assert (Hval : 256 <= decVal (String c ds +:+ more) 0).
  { rewrite decVal_app. pose proof (decVal_ge more (decVal (String c ds) 0)). lia. }
  rewrite append_cons in *.
  rewrite (ParseUint_digits _ 64 (N.le_refl _) Htok ltac:(discriminate)).
  destruct (decVal (String c (ds +:+ more)) 0 <=? 2 ^ 64 - 1); [|eauto].
  destruct (decVal (String c (ds +:+ more)) 0 mod 2 ^ 8
            =? decVal (String c (ds +:+ more)) 0) eqn:E; [|eauto].
  apply N.eqb_eq in E.
  pose proof (N.mod_lt (decVal (String c (ds +:+ more)) 0) (2 ^ 8)
                ltac:(discriminate)) as Hlt.
  change (2 ^ 8) with 256 in *. lia.
Qed.

Lemma doScanf_uint8_big (format : list fmtItem) (ds : string)
      (inp : list Rune) (stored : list scanned) :
  allDigits ds = true -> ds <> "" -> 256 <= decVal ds 0 ->
  Forall plainRune inp ->
  fst (doScanf (FUint8 :: format) (runesOf ds ++ inp) stored) = stored.
Proof.
  intros Hd Hne Hv Hinp. cbn [doScanf].
  assert (Hskip : SkipSpace (runesOf ds ++ inp) = Ok (runesOf ds ++ inp)%list).
  { destruct ds as [|c ds]; [contradiction|].
    simpl in Hd. apply andb_prop in Hd as [Hc _].
    apply (SkipSpace_digit c _ Hc). }
  rewrite Hskip.
  destruct (scanUint8_big ds inp Hd Hne Hv Hinp) as [e ->]. reflexivity.
Qed.

(** X4. Text after the third number is ignored by [ParseVersion], as long
    as it does not continue that number. *)
Theorem ParseVersion_trailing_text (a b c : N) (tail : string) :
  a < 256 -> b < 256 -> c < 256 -> startsWithDigit tail = false ->
  ParseVersion (fmt.Sprint_d a +:+ "." +:+ fmt.Sprint_d b +:+ "."
                  +:+ fmt.Sprint_d c +:+ tail)
  = VersionCode a b c.
Proof.
  intros Ha Hb Hc Htail.
  destruct (Sprint_d_spec a) as (Da & Na & Va).
  destruct (Sprint_d_spec b) as (Db & Nb & Vb).
  destruct (Sprint_d_spec c) as (Dc & Nc & Vc).
  unfold ParseVersion, Sscanf, versionFormat.
  rewrite (decode_ascii _ _ (allDigits_ascii _ Da)).
  rewrite append_cons, append_nil_l, decode_cons_ascii by reflexivity.
  rewrite (decode_ascii _ _ (allDigits_ascii _ Db)).
  rewrite append_cons, append_nil_l, decode_cons_ascii by reflexivity.
  rewrite (decode_ascii _ _ (allDigits_ascii _ Dc)).
  rewrite doScanf_uint8_digits; [|assumption|assumption|rewrite Va; lia|reflexivity].
  rewrite doScanf_lit.
  rewrite doScanf_uint8_digits; [|assumption|assumption|rewrite Vb; lia|reflexivity].
  rewrite doScanf_lit.
  rewrite doScanf_uint8_digits;
    [|assumption|assumption|rewrite Vc; lia|rewrite head_digit, Htail; reflexivity].
  rewrite Va, Vb, Vc. reflexivity.
Qed.

Lemma ParseVersion_trailing_text_witness :
  ParseVersion "5.15.0-76-generic" = VersionCode 5 15 0.
Proof.
  apply (ParseVersion_trailing_text 5 15 0 "-76-generic"); [lia|lia|lia|reflexivity].
Defined.

(** A major number that does not fit a byte: nothing is stored. *)
Lemma ParseVersion_major_overflow (a : N) (rest : string) :
  256 <= a -> ParseVersion (fmt.Sprint_d a +:+ rest) = 0.
Proof.
  intros Ha.
  destruct (Sprint_d_spec a) as (Da & Na & Va).
  unfold ParseVersion, Sscanf, versionFormat.
  rewrite (decode_ascii _ _ (allDigits_ascii _ Da)).
  pose proof (doScanf_uint8_big [FLit "."; FUint8; FLit "."; FUint8]
                (fmt.Sprint_d a) (decode rest) [] Da Na
                ltac:(rewrite Va; exact Ha) (decode_plain rest)) as H.
  destruct (doScanf _ _ _) as [stored err]. simpl in H. subst stored.
  reflexivity.
Qed.

(** X5. A number of 256 or more is not stored, and the scan stops there:
    a major number that large gives version 0 whatever follows, and a minor
    number that large gives [major.0.0]. *)
Theorem ParseVersion_component_overflow :
  (forall (a : N) (rest : string),
     256 <= a -> ParseVersion (fmt.Sprint_d a +:+ rest) = 0)
  /\ (forall (a b : N) (rest : string),
        a < 256 -> 256 <= b ->
        ParseVersion (fmt.Sprint_d a +:+ "." +:+ fmt.Sprint_d b +:+ rest)
        = VersionCode a 0 0).
Proof.
  split.
  - exact ParseVersion_major_overflow.
  - intros a b rest Ha Hb.
    destruct (Sprint_d_spec a) as (Da & Na & Va).
    destruct (Sprint_d_spec b) as (Db & Nb & Vb).
    unfold ParseVersion, Sscanf, versionFormat.
    rewrite (decode_ascii _ _ (allDigits_ascii _ Da)).
    rewrite append_cons, append_nil_l, decode_cons_ascii by reflexivity.
    rewrite (decode_ascii _ _ (allDigits_ascii _ Db)).
    rewrite doScanf_uint8_digits; [|assumption|assumption|rewrite Va; lia|reflexivity].
    rewrite doScanf_lit.
    pose proof (doScanf_uint8_big [FLit "."; FUint8]
                  (fmt.Sprint_d b) (decode rest) ([] ++ [VUint8 (decVal (fmt.Sprint_d a) 0)])
                  Db Nb ltac:(rewrite Vb; exact Hb) (decode_plain rest)) as H.
    destruct (doScanf _ _ _) as [stored err]. simpl in H. subst stored.
    rewrite Va. reflexivity.
Qed.

Lemma ParseVersion_component_overflow_witness :
  ParseVersion "256.1.1" = 0 /\ ParseVersion "4.300.1" = VersionCode 4 0 0.
Proof.
  split.
  - apply (proj1 ParseVersion_component_overflow 256 ".1.1"). lia.
  - apply (proj2 ParseVersion_component_overflow 4 300 ".1"); lia.
Defined.

End ParseVersionEdges.

(** ** Release strings: results and errors *)

Section ReleaseResults.
Import utf8 regexp kernel.

Lemma encode_out (a b c : N) :
  a <= 255 -> b <= 255 -> c <= 255 ->
  u32 (u64 (u64 (u64 (u64 (a * 256) * 256) + u64 (b * 256)) + c))
  = VersionCode a b c.
Proof.
  intros Ha Hb Hc. rewrite VersionCode_value by lia.
  unfold u64, u32. rewrite two64. change (2 ^ 32) with 4294967296.
  rewrite (N.mod_small (a * 256)) by lia.
  rewrite (N.mod_small (a * 256 * 256)) by lia.
  rewrite (N.mod_small (b * 256)) by lia.
  rewrite (N.mod_small (a * 256 * 256 + b * 256)) by lia.
  rewrite (N.mod_small (a * 256 * 256 + b * 256 + c)) by lia.
  rewrite N.mod_small by lia. lia.
Qed.

(** X6. Rendering and parsing give a version back exactly when it fits
    three bytes: for a 32-bit [v],
    [ParseVersion (String v) = v] if and only if [v < 2 ^ 24]; above that
    the major number does not fit a byte and the result is 0. *)
Theorem ParseVersion_String_iff (v : N) :
  v < 2 ^ 32 ->
  (ParseVersion (String_ v) = v <-> v < 2 ^ 24)
  /\ (2 ^ 24 <= v -> ParseVersion (String_ v) = 0).
Proof.
  intros Hv32.
  assert (Hbig : 2 ^ 24 <= v -> ParseVersion (String_ v) = 0).
  { intros Hv. unfold String_.
    apply ParseVersion_major_overflow.
    rewrite N.shiftr_div_pow2. change (2 ^ 16) with 65536.
    change (2 ^ 24) with 16777216 in Hv.
    apply N.div_le_lower_bound; lia. }
  split; [|exact Hbig]. split.
  - intros Hrt. destruct (N.lt_ge_cases v (2 ^ 24)) as [Hlt|Hge]; [exact Hlt|].
    rewrite (Hbig Hge) in Hrt. change (2 ^ 24) with 16777216 in Hge. lia.
  - intros Hlt. change (2 ^ 24) with 16777216 in Hlt.
    set (a := v / 65536). set (b := (v / 256) mod 256). set (c := v mod 256).
    assert (Ha : a < 256) by (apply N.Div0.div_lt_upper_bound; lia).
    assert (Hb : b < 256) by (apply N.mod_lt; lia).
    assert (Hc : c < 256) by (apply N.mod_lt; lia).
    assert (Hv : v = VersionCode a b c).
    { rewrite VersionCode_value by assumption. unfold a, b, c.
      pose proof (N.div_mod v 256 ltac:(lia)) as H1.
      pose proof (N.div_mod (v / 256) 256 ltac:(lia)) as H2.
      replace (v / 256 / 256) with (v / 65536) in H2
        by (rewrite N.Div0.div_div; reflexivity).
      lia. }
    rewrite Hv. apply ParseVersion_String_bytes; assumption.
Qed.

Lemma ParseVersion_String_iff_witness :
  ParseVersion (String_ 16777216) = 0.
Proof.
  apply (proj2 (ParseVersion_String_iff 16777216 ltac:(reflexivity))).
  change (2 ^ 24) with 16777216. lia.
Defined.

(** A string whose leading text is not digits, a dot and a digit is
    rejected by [kernelVersionFromReleaseString], with the error that
    quotes the string. *)
Theorem release_rejected (s : string) :
  leadingVersion s = false ->
  kernelVersionFromReleaseString s
  = Err (ErrQuote "got invalid release version " s
           " (expected format '4.3.2-1')").
Proof.
  intros H. unfold kernelVersionFromReleaseString.
  rewrite (FindStringSubmatch_fails s H). reflexivity.
Qed.

Lemma release_rejected_witness :
  kernelVersionFromReleaseString "v5.15.0"
  = Err (ErrQuote "got invalid release version " "v5.15.0"
           " (expected format '4.3.2-1')").
Proof. apply (release_rejected "v5.15.0"). reflexivity. Defined.

(** X7. A version returned by [kernelVersionFromReleaseString] is built
    from three bytes: the conversion to 32 bits loses nothing. *)
Theorem release_result_bytes (s : string) (v : N) :
  kernelVersionFromReleaseString s = Ok v ->
  exists a b c, a < 256 /\ b < 256 /\ c < 256 /\ v = VersionCode a b c.
Proof.
  unfold kernelVersionFromReleaseString. intros H.
  set (parts := FindStringSubmatch releasePattern 3 s) in *.
  destruct (length parts <? 3)%nat; [discriminate|].
  pose proof (patchOf_le (nthString parts 1)) as H1.
  pose proof (patchOf_le (nthString parts 2)) as H2.
  pose proof (patchOf_le (nthString parts 3)) as H3.
  unfold patchOf in H1, H2, H3.
  destruct (strconv.ParseUint (nthString parts 1) 8) as [major [e|]];
    [discriminate|].
  destruct (strconv.ParseUint (nthString parts 2) 8) as [minor [e|]];
    [discriminate|].
  cbn [fst] in H1, H2.
  match type of H with
  | context [if ?c then 255 else ?p] =>
      assert (Hp : (if c then 255 else p) <= 255);
      [destruct c; [lia|]|set (patch := if c then 255 else p) in *]
  end.
  { destruct (4 <=? length parts)%nat; [exact H3|lia]. }
  injection H as <-.
  exists major, minor, patch. repeat split; try lia.
  apply encode_out; assumption.
Qed.

Lemma release_result_bytes_witness :
  exists a b c, a < 256 /\ b < 256 /\ c < 256
                /\ 331520 = VersionCode a b c.
Proof.
  apply (release_result_bytes "5.15.0-76-generic" 331520). reflexivity.
Defined.

End ReleaseResults.

Section ReleaseOverflow.
Import utf8 regexp kernel.

Lemma ParseUint8_big (ds : string) :
  allDigits ds = true -> ds <> "" -> 256 <= decVal ds 0 ->
  strconv.ParseUint ds 8 = (255, Some strconv.ErrRange).
Proof.
  intros Hd Hne Hv. rewrite (ParseUint_digits ds 8 ltac:(lia) Hd Hne).
  change (2 ^ 8 - 1) with 255.
  destruct (decVal ds 0 <=? 255) eqn:E; [|reflexivity].
  apply N.leb_le in E. lia.
Qed.

(** X8. A major or minor number of 256 or more makes
    [kernelVersionFromReleaseString] fail with the range error of
    [strconv.ParseUint] on that number, not with the error about the
    format of the release string. *)
Theorem release_major_minor_range :
  (forall (a b c : N) (tail : string),
     256 <= a ->
     hasNewline tail = false -> startsWithDigit tail = false ->
     kernelVersionFromReleaseString
       (fmt.Sprint_d a +:+ "." +:+ fmt.Sprint_d b +:+ "."
          +:+ fmt.Sprint_d c +:+ tail)
     = Err (ErrNum (fmt.Sprint_d a) strconv.ErrRange))
  /\ (forall (a b c : N) (tail : string),
        a < 256 -> 256 <= b ->
        hasNewline tail = false -> startsWithDigit tail = false ->
        kernelVersionFromReleaseString
          (fmt.Sprint_d a +:+ "." +:+ fmt.Sprint_d b +:+ "."
             +:+ fmt.Sprint_d c +:+ tail)
        = Err (ErrNum (fmt.Sprint_d b) strconv.ErrRange)).
Proof.
  split; intros a b c tail.
  - intros Ha Hnl Htd.
    destruct (Sprint_d_spec a) as (Da & Na & Va).
    destruct (Sprint_d_spec b) as (Db & Nb & Vb).
    destruct (Sprint_d_spec c) as (Dc & Nc & Vc).
    destruct (release_match _ _ _ tail "." Da Na Db Nb Dc Nc
                eq_refl eq_refl eq_refl Hnl Htd) as [whole Hm].
    unfold kernelVersionFromReleaseString.
    change (fmt.Sprint_d a +:+ "." +:+ fmt.Sprint_d b +:+ "."
              +:+ fmt.Sprint_d c +:+ tail)
      with (fmt.Sprint_d a +:+ "." +:+ fmt.Sprint_d b
              +:+ String "." (fmt.Sprint_d c +:+ tail)).
    rewrite Hm. cbn [length Nat.ltb Nat.leb nthString nth].
    rewrite (ParseUint8_big _ Da Na ltac:(rewrite Va; exact Ha)). reflexivity.
  - intros Ha Hb Hnl Htd.
    destruct (Sprint_d_spec a) as (Da & Na & Va).
    destruct (Sprint_d_spec b) as (Db & Nb & Vb).
    destruct (Sprint_d_spec c) as (Dc & Nc & Vc).
    destruct (release_match _ _ _ tail "." Da Na Db Nb Dc Nc
                eq_refl eq_refl eq_refl Hnl Htd) as [whole Hm].
    unfold kernelVersionFromReleaseString.
    change (fmt.Sprint_d a +:+ "." +:+ fmt.Sprint_d b +:+ "."
              +:+ fmt.Sprint_d c +:+ tail)
      with (fmt.Sprint_d a +:+ "." +:+ fmt.Sprint_d b
              +:+ String "." (fmt.Sprint_d c +:+ tail)).
    rewrite Hm. cbn [length Nat.ltb Nat.leb nthString nth].
    rewrite (ParseUint8_small _ Da Na ltac:(rewrite Va; exact Ha)).
    rewrite (ParseUint8_big _ Db Nb ltac:(rewrite Vb; exact Hb)). reflexivity.
Qed.

Lemma release_major_minor_range_witness :
  kernelVersionFromReleaseString "300.1.2-generic"
  = Err (ErrNum "300" strconv.ErrRange)
  /\ kernelVersionFromReleaseString "5.256.2"
     = Err (ErrNum "256" strconv.ErrRange).
Proof.
  split.
  - apply (proj1 release_major_minor_range 300 1 2 "-generic");
      [lia|reflexivity|reflexivity].
  - apply (proj2 release_major_minor_range 5 256 2 "");
      [lia|lia|reflexivity|reflexivity].
Defined.

(** X9. A patch number of 256 or more is no error: the range error of
    [strconv.ParseUint] is dropped and the patch component is 255. *)
Theorem release_patch_saturates (a b c : N) (tail : string) :
  a < 256 -> b < 256 -> 256 <= c ->
  hasNewline tail = false -> startsWithDigit tail = false ->
  kernelVersionFromReleaseString
    (fmt.Sprint_d a +:+ "." +:+ fmt.Sprint_d b +:+ "."
       +:+ fmt.Sprint_d c +:+ tail)
  = Ok (VersionCode a b 255).
Proof.
  intros Ha Hb Hc Hnl Htd.
  destruct (Sprint_d_spec a) as (Da & Na & Va).
  destruct (Sprint_d_spec b) as (Db & Nb & Vb).
  destruct (Sprint_d_spec c) as (Dc & Nc & Vc).
  destruct (release_match _ _ _ tail "." Da Na Db Nb Dc Nc
              eq_refl eq_refl eq_refl Hnl Htd) as [whole Hm].
  change (fmt.Sprint_d a +:+ "." +:+ fmt.Sprint_d b +:+ "."
            +:+ fmt.Sprint_d c +:+ tail)
    with (fmt.Sprint_d a +:+ "." +:+ fmt.Sprint_d b
            +:+ String "." (fmt.Sprint_d c +:+ tail)).
  rewrite (release_encoding _ _ _ _ _ Hm Da Na ltac:(rewrite Va; lia)
             Db Nb ltac:(rewrite Vb; lia)).
  rewrite Va, Vb, ParseUint8_rendered.
  destruct (c <=? 255) eqn:E; [apply N.leb_le in E; lia|].
  unfold clamp. destruct (_ && _); reflexivity.
Qed.

Lemma release_patch_saturates_witness :
  kernelVersionFromReleaseString "5.4.300-generic" = Ok (VersionCode 5 4 255).
Proof.
  apply (release_patch_saturates 5 4 300 "-generic");
    [lia|lia|lia|reflexivity|reflexivity].
Defined.

(** X10. On the rendering of a version built from bytes the two parsers
    agree, except for the clamp: [kernelVersionFromReleaseString] returns
    what [ParseVersion] returns unless the version is 4.14.252 or later in
    4.14, where it returns 4.14.255. *)
Theorem release_agrees_with_ParseVersion (a b c : N) :
  a < 256 -> b < 256 -> c < 256 ->
  kernelVersionFromReleaseString (String_ (VersionCode a b c))
  = Ok (if (a =? 4) && (b =? 14) && (252 <=? c)
        then VersionCode 4 14 255
        else ParseVersion (String_ (VersionCode a b c))).
Proof.
  intros Ha Hb Hc.
  rewrite ParseVersion_String_bytes, String_VersionCode by assumption.
  change (fmt.Sprint_d a +:+ "." +:+ fmt.Sprint_d b +:+ "." +:+ fmt.Sprint_d c)
    with (fmt.Sprint_d a +:+ "." +:+ fmt.Sprint_d b
            +:+ String "." (fmt.Sprint_d c)).
  rewrite <- (append_nil_r (fmt.Sprint_d c)).
  rewrite (release_separator a b c "." "" Ha Hb Hc eq_refl eq_refl eq_refl
             eq_refl eq_refl).
  unfold clamp.
  destruct ((a =? 4) && (b =? 14) && (252 <=? c)) eqn:E; [|reflexivity].
  apply andb_prop in E as [E _]. apply andb_prop in E as [E1 E2].
  apply N.eqb_eq in E1. apply N.eqb_eq in E2. subst. reflexivity.
Qed.

Lemma release_agrees_with_ParseVersion_witness :
  kernelVersionFromReleaseString (String_ (VersionCode 4 14 253))
  = Ok (VersionCode 4 14 255)
  /\ kernelVersionFromReleaseString (String_ (VersionCode 5 15 253))
     = Ok (ParseVersion (String_ (VersionCode 5 15 253))).
Proof.
  split.
  - apply (release_agrees_with_ParseVersion 4 14 253); lia.
  - apply (release_agrees_with_ParseVersion 5 15 253); lia.
Defined.

End ReleaseOverflow.

(** ** The release field of [uname] *)

Section UnameStrings.
Import kernel.

Fixpoint hasNul (s : string) : bool :=
  match s with
  | EmptyString => false
  | String c s' => (byteOf c =? 0) || hasNul s'
  end.

Lemma untilNul_noNul (s : string) : hasNul (untilNul s) = false.
Proof.
  induction s as [|c s IH]; [reflexivity|]. simpl.
  destruct (byteOf c =? 0) eqn:E; [reflexivity|]. simpl. rewrite E, IH.
  reflexivity.
Qed.

Lemma untilNul_prefix (s : string) : exists rest, s = untilNul s +:+ rest.
Proof.
  induction s as [|c s [rest IH]]; [exists ""; reflexivity|]. simpl.
  destruct (byteOf c =? 0); [exists (String c s); reflexivity|].
  exists rest. rewrite append_cons, <- IH. reflexivity.
Qed.

Lemma untilNul_id (s : string) : hasNul s = false -> untilNul s = s.
Proof.
  induction s as [|c s IH]; [reflexivity|]. simpl. intros H.
  apply orb_false_elim in H as [Hc Hs]. rewrite Hc, (IH Hs). reflexivity.
Qed.

Lemma trimRightNul_noNul (u : string) : hasNul u = false -> trimRightNul u = u.
Proof.
  induction u as [|c u IH]; [reflexivity|]. simpl. intros H.
  apply orb_false_elim in H as [Hc Hu]. rewrite (IH Hu), Hc.
  destruct u; reflexivity.
Qed.

Lemma trimRightNul_zeros (n : nat) (u : string) :
  hasNul u = false ->
  trimRightNul (zeros n +:+ u)
  = match u with EmptyString => "" | _ => zeros n +:+ u end.
Proof.
  intros Hu. induction n as [|n IH].
  - simpl. rewrite append_nil_l, (trimRightNul_noNul u Hu).
    destruct u; reflexivity.
  - cbn [zeros]. rewrite append_cons. cbn [trimRightNul]. rewrite IH.
    destruct u as [|c u]; [reflexivity|].
    destruct (zeros n +:+ String c u) eqn:E; [|reflexivity].
    destruct n; discriminate E.
Qed.

Lemma trimLeftNul_zeros (n : nat) (u : string) :
  hasNul u = false -> trimLeftNul (zeros n +:+ u) = u.
Proof.
  intros Hu. induction n as [|n IH].
  - simpl. rewrite append_nil_l. destruct u as [|c u]; [reflexivity|].
    simpl in *. apply orb_false_elim in Hu as [Hc _]. rewrite Hc. reflexivity.
  - cbn [zeros]. rewrite append_cons. cbn [trimLeftNul]. exact IH.
Qed.

(** X11. The release string that [currentVersionUname] parses is the
    bytes of the buffer before its first zero byte: the zero bytes that
    [utsnameStr] puts in front are removed by the trim.  It is what
    [charsToString] of package [ebpf] computes from the same buffer, it
    holds no zero byte and it is a prefix of the buffer. *)
Theorem utsnameStr_trimmed (buf : string) :
  TrimNul (utsnameStr buf) = ebpf.charsToString buf
  /\ hasNul (ebpf.charsToString buf) = false
  /\ (exists rest, buf = ebpf.charsToString buf +:+ rest)
  /\ (hasNul buf = false -> ebpf.charsToString buf = buf).
Proof.
  unfold ebpf.charsToString. split; [|split; [|split]].
  - unfold TrimNul, utsnameStr.
    rewrite (trimRightNul_zeros _ _ (untilNul_noNul buf)).
    destruct (untilNul buf) eqn:E; [reflexivity|].
    rewrite <- E. apply trimLeftNul_zeros, untilNul_noNul.
  - apply untilNul_noNul.
  - apply untilNul_prefix.
  - apply untilNul_id.
Qed.

End UnameStrings.

(** ** The cache of [HostVersion] *)

Section HostVersionCache.
Import kernel.

Lemma HostVersion_run (host : Host) (st : State) :
  HostVersion host st
  = if hostVersion st =? 0
    then match CurrentKernelVersion host st with
         | (Ok kv, st1) => (Ok kv, mkState kv (trace st1))
         | (Err err, st1) => (Err err, st1)
         end
    else (Ok (hostVersion st), st).
Proof.
  unfold HostVersion, bind, getHostVersion.
  destruct (hostVersion st =? 0); simpl; [|reflexivity].
  destruct (CurrentKernelVersion host st) as [[kv|err] st1]; reflexivity.
Qed.

Lemma CurrentKernelVersion_keeps_cache (host : Host) (st : State) :
  hostVersion (snd (CurrentKernelVersion host st)) = hostVersion st.
Proof.
  rewrite CurrentKernelVersion_run.
  destruct (ubuntuResult host); [reflexivity|].
  destruct (debianResult host); reflexivity.
Qed.

(** X12. [HostVersion] writes the cache only when resolution succeeds:
    after a success the package variable holds the version returned; after
    a failure it is still 0, and the next call resolves again on the host
    it then finds. *)
Theorem HostVersion_cache_update (host : Host) (st : State) :
  (forall v, fst (HostVersion host st) = Ok v ->
     hostVersion (snd (HostVersion host st)) = v)
  /\ (forall e, fst (HostVersion host st) = Err e ->
        hostVersion (snd (HostVersion host st)) = 0
        /\ forall host' : Host,
             fst (HostVersion host' (snd (HostVersion host st)))
             = fst (CurrentKernelVersion host' (snd (HostVersion host st)))).
Proof.
  rewrite (HostVersion_run host st).
  pose proof (CurrentKernelVersion_keeps_cache host st) as Hkeep.
  destruct (hostVersion st =? 0) eqn:Ecached.
  - apply N.eqb_eq in Ecached.
    destruct (CurrentKernelVersion host st) as [[kv|err] st1]; simpl in *.
    + split; [intros v Hv; injection Hv as <-; reflexivity|].
      intros e He. discriminate He.
    + split; [intros v Hv; discriminate Hv|].
      intros e _. rewrite Ecached in Hkeep. split; [exact Hkeep|].
      intros host'. rewrite HostVersion_run, Hkeep. simpl.
      destruct (CurrentKernelVersion host' st1) as [[kv|err'] st2];
        reflexivity.
  - simpl. split; [intros v Hv; injection Hv as <-; reflexivity|].
    intros e He. discriminate He.
Qed.

Lemma HostVersion_cache_update_witness :
  hostVersion (snd (HostVersion ubuntuHost initialState)) = VersionCode 6 2 16
  /\ hostVersion
       (snd (HostVersion (unameHost "no-release" [] (Ok ∅)) initialState)) = 0.
Proof.
  split.
  - apply (proj1 (HostVersion_cache_update ubuntuHost initialState)).
    vm_compute. reflexivity.
  - apply (proj2 (HostVersion_cache_update
                    (unameHost "no-release" [] (Ok ∅)) initialState)
             (ErrQuote "got invalid release version " "no-release"
                " (expected format '4.3.2-1')")).
    vm_compute. reflexivity.
Defined.

End HostVersionCache.

Lemma utsnameStr_trimmed_witness :
  kernel.TrimNul (kernel.utsnameStr (field65 "5.15.0-76-generic"))
  = "5.15.0-76-generic"
  /\ ebpf.charsToString "6.1.0" = "6.1.0".
Proof.
  split.
  - rewrite (proj1 (utsnameStr_trimmed (field65 "5.15.0-76-generic"))).
    reflexivity.
  - apply (proj2 (proj2 (proj2 (utsnameStr_trimmed "6.1.0")))). reflexivity.
Defined.

(** ** The Ubuntu signature *)

Section UbuntuSignature.
Import utf8 scan kernel.

(** A word: ASCII bytes that are not spaces. *)
Fixpoint allWord (s : string) : bool :=
  match s with
  | EmptyString => true
  | String c s' => (byteOf c <? 128) && negb (isSpace (byteOf c)) && allWord s'
  end.

(** Blanks: spaces and tabs. *)
Fixpoint allBlank (s : string) : bool :=
  match s with
  | EmptyString => true
  | String c s' => ((byteOf c =? 32) || (byteOf c =? 9)) && allBlank s'
  end.

(** The input ends, or goes on with a space. *)
Definition spaceAhead (inp : list Rune) : bool :=
  match inp with
  | r :: _ => isSpace (code r)
  | [] => true
  end.

Lemma allWord_ascii (w : string) : allWord w = true -> isAscii w = true.
Proof.
  induction w as [|c w IH]; simpl; [reflexivity|]. intros H.
  apply andb_prop in H as [H Hw]. apply andb_prop in H as [Hc _].
  rewrite Hc, (IH Hw). reflexivity.
Qed.

Lemma allBlank_ascii (b : string) : allBlank b = true -> isAscii b = true.
Proof.
  induction b as [|c b IH]; simpl; [reflexivity|]. intros H.
  apply andb_prop in H as [Hc Hb]. rewrite (IH Hb), andb_true_r.
  apply N.ltb_lt. apply orb_prop in Hc as [Hc|Hc]; apply N.eqb_eq in Hc; lia.
Qed.

Lemma not_space_not_nl (b : N) :
  isSpace b = false -> (b =? 13) = false /\ (b =? 10) = false.
Proof.
  intros H. split; apply N.eqb_neq; intros ->; discriminate H.
Qed.

Lemma SkipSpace_word (c : ascii) (rest : list Rune) :
  isSpace (byteOf c) = false ->
  SkipSpace (runeOf c :: rest) = Ok (runeOf c :: rest).
Proof.
  intros H. cbn [SkipSpace]. change (code (runeOf c)) with (byteOf c).
  destruct (not_space_not_nl _ H) as [-> ->]. rewrite H. reflexivity.
Qed.

Lemma tokenNotSpace_word (w : string) (rest : list Rune) :
  allWord w = true -> spaceAhead rest = true ->
  tokenNotSpace (runesOf w ++ rest) = (w, rest).
Proof.
  intros Hw Hrest. induction w as [|c w IH].
  - simpl. destruct rest as [|r rest]; [reflexivity|].
    simpl in *. rewrite Hrest. reflexivity.
  - simpl in Hw. apply andb_prop in Hw as [Hc Hw].
    apply andb_prop in Hc as [_ Hc]. apply negb_true_iff in Hc.
    cbn [runesOf app tokenNotSpace]. change (code (runeOf c)) with (byteOf c).
    rewrite Hc, (IH Hw), encode_runeOf. reflexivity.
Qed.

Lemma convertString_word (w : string) (rest : list Rune) :
  allWord w = true -> w <> "" -> spaceAhead rest = true ->
  convertString (runesOf w ++ rest) = Ok (w, rest).
Proof.
  intros Hw Hne Hrest. unfold convertString.
  destruct w as [|c w]; [contradiction|].
  pose proof Hw as Hw'. simpl in Hw'. apply andb_prop in Hw' as [Hc _].
  apply andb_prop in Hc as [_ Hc]. apply negb_true_iff in Hc.
  cbn [runesOf app]. rewrite !(SkipSpace_word c _ Hc).
  change (runeOf c :: (runesOf w ++ rest))%list
    with (runesOf (String c w) ++ rest)%list.
  rewrite (tokenNotSpace_word _ _ Hw Hrest). reflexivity.
Qed.

Lemma doScanf_string_word (format : list fmtItem) (w : string)
      (rest : list Rune) (stored : list scanned) :
  allWord w = true -> w <> "" -> spaceAhead rest = true ->
  doScanf (FString :: format) (runesOf w ++ rest) stored
  = doScanf format rest (stored ++ [VString w]).
Proof.
  intros Hw Hne Hrest. cbn [doScanf].
  assert (Hskip : SkipSpace (runesOf w ++ rest) = Ok (runesOf w ++ rest)%list).
  { destruct w as [|c w]; [contradiction|].
    simpl in Hw. apply andb_prop in Hw as [Hc _].
    apply andb_prop in Hc as [_ Hc]. apply negb_true_iff in Hc.
    apply (SkipSpace_word c _ Hc). }
  rewrite Hskip, (convertString_word w rest Hw Hne Hrest). reflexivity.
Qed.

Lemma blank_is_space (c : ascii) :
  (byteOf c =? 32) || (byteOf c =? 9) = true ->
  isSpace (byteOf c) = true /\ (byteOf c =? 10) = false.
Proof.
  intros H. apply orb_prop in H as [H|H]; apply N.eqb_eq in H; rewrite H;
    split; reflexivity.
Qed.

Lemma skipBlanks_blanks (b w : string) (rest : list Rune) :
  allBlank b = true -> allWord w = true -> w <> "" ->
  skipBlanks (runesOf b ++ runesOf w ++ rest) = (runesOf w ++ rest)%list.
Proof.
  intros Hb Hw Hne. induction b as [|c b IH].
  - simpl. destruct w as [|x w]; [contradiction|].
    simpl in Hw. apply andb_prop in Hw as [Hx _].
    apply andb_prop in Hx as [_ Hx]. apply negb_true_iff in Hx.
    cbn [runesOf app skipBlanks]. change (code (runeOf x)) with (byteOf x).
    rewrite Hx. reflexivity.
  - simpl in Hb. apply andb_prop in Hb as [Hc Hb].
    destruct (blank_is_space c Hc) as [Hs Hn].
    cbn [runesOf app skipBlanks]. change (code (runeOf c)) with (byteOf c).
    rewrite Hs, Hn. simpl. apply IH, Hb.
Qed.

Lemma doScanf_space_blanks (format : list fmtItem) (b w : string)
      (rest : list Rune) (stored : list scanned) :
  allBlank b = true -> b <> "" -> allWord w = true -> w <> "" ->
  doScanf (FSpace :: format) (runesOf b ++ runesOf w ++ rest) stored
  = doScanf format (runesOf w ++ rest) stored.
Proof.
  intros Hb Hbne Hw Hne. cbn [doScanf].
  assert (Hadv : advanceSpace (runesOf b ++ runesOf w ++ rest)
                 = Ok (runesOf w ++ rest)%list).
  { pose proof (skipBlanks_blanks b w rest Hb Hw Hne) as Hskip.
    destruct b as [|c b]; [contradiction|].
    simpl in Hb. apply andb_prop in Hb as [Hc _].
    destruct (blank_is_space c Hc) as [Hs Hn].
    unfold advanceSpace. cbn [runesOf app] in *.
    change (code (runeOf c)) with (byteOf c). rewrite Hs, Hn. cbn [negb].
    rewrite Hskip. reflexivity. }
  rewrite Hadv. reflexivity.
Qed.

(** What may follow the third field: nothing, or a space then anything. *)
Definition endsField (rest : string) : bool :=
  match rest with
  | String c _ => (byteOf c <? 128) && isSpace (byteOf c)
  | EmptyString => true
  end.

Lemma endsField_spaceAhead (rest : string) :
  endsField rest = true -> spaceAhead (decode rest) = true.
Proof.
  destruct rest as [|c rest]; [reflexivity|]. cbn [endsField]. intros H.
  apply andb_prop in H as [Hc Hs].
  rewrite decode_cons_ascii by exact Hc. exact Hs.
Qed.

(** X13. A signature of three fields separated by blanks: the release
    string that [parseUbuntuVersion] parses is the third field; the first
    two fields, and whatever follows the third after a space or a newline,
    do not matter. *)
Theorem parseUbuntuVersion_third_field (w1 b1 w2 b2 w3 rest : string) :
  allWord w1 = true -> w1 <> "" ->
  allBlank b1 = true -> b1 <> "" ->
  allWord w2 = true -> w2 <> "" ->
  allBlank b2 = true -> b2 <> "" ->
  allWord w3 = true -> w3 <> "" ->
  endsField rest = true ->
  parseUbuntuVersion (w1 +:+ b1 +:+ w2 +:+ b2 +:+ w3 +:+ rest)
  = kernelVersionFromReleaseString w3.
Proof.
  intros W1 N1 B1 M1 W2 N2 B2 M2 W3 N3 Hrest.
  unfold parseUbuntuVersion, Sscanf, ubuntuFormat.
  rewrite (decode_ascii _ _ (allWord_ascii _ W1)).
  rewrite (decode_ascii _ _ (allBlank_ascii _ B1)).
  rewrite (decode_ascii _ _ (allWord_ascii _ W2)).
  rewrite (decode_ascii _ _ (allBlank_ascii _ B2)).
  rewrite (decode_ascii _ _ (allWord_ascii _ W3)).
  rewrite doScanf_string_word; [|assumption|assumption|].
  2:{ destruct b1 as [|c b]; [contradiction|]. simpl in B1.
      apply andb_prop in B1 as [Hc _]. apply (blank_is_space c Hc). }
  rewrite doScanf_space_blanks by assumption.
  rewrite doScanf_string_word; [|assumption|assumption|].
  2:{ destruct b2 as [|c b]; [contradiction|]. simpl in B2.
      apply andb_prop in B2 as [Hc _]. apply (blank_is_space c Hc). }
  rewrite doScanf_space_blanks by assumption.
  rewrite doScanf_string_word;
    [|assumption|assumption|apply endsField_spaceAhead, Hrest].
  reflexivity.
Qed.

Lemma parseUbuntuVersion_third_field_witness :
  parseUbuntuVersion
    ("Ubuntu" +:+ " " +:+ "5.4.0-42.46-generic" +:+ " " +:+ "5.4.44"
       +:+ String (charOf 10) "")
  = kernelVersionFromReleaseString "5.4.44".
Proof.
  apply (parseUbuntuVersion_third_field "Ubuntu" " " "5.4.0-42.46-generic" " "
           "5.4.44" (String (charOf 10) ""));
    first [reflexivity | discriminate].
Defined.

End UbuntuSignature.

Section UbuntuShortSignature.
Import utf8 scan kernel.

(** X14. A signature with fewer than three fields is an error of the
    scan, reported as the end of the input: with no field, with one, and
    with two fields separated by blanks. *)
Theorem parseUbuntuVersion_too_short :
  parseUbuntuVersion "" = Err (ErrScan ErrEOF)
  /\ (forall w1 : string,
        allWord w1 = true -> w1 <> "" ->
        parseUbuntuVersion w1 = Err (ErrScan ErrEOF))
  /\ (forall w1 b1 w2 : string,
        allWord w1 = true -> w1 <> "" ->
        allBlank b1 = true -> b1 <> "" ->
        allWord w2 = true -> w2 <> "" ->
        parseUbuntuVersion (w1 +:+ b1 +:+ w2) = Err (ErrScan ErrEOF)).
Proof.
  split; [reflexivity|]. split.
  - intros w1 W1 N1. unfold parseUbuntuVersion, Sscanf, ubuntuFormat.
    rewrite (decode_ascii_all _ (allWord_ascii _ W1)).
    rewrite <- (app_nil_r (runesOf w1)).
    rewrite doScanf_string_word; [|assumption|assumption|reflexivity].
    reflexivity.
  - intros w1 b1 w2 W1 N1 B1 M1 W2 N2.
    unfold parseUbuntuVersion, Sscanf, ubuntuFormat.
    rewrite (decode_ascii _ _ (allWord_ascii _ W1)).
    rewrite (decode_ascii _ _ (allBlank_ascii _ B1)).
    rewrite (decode_ascii_all _ (allWord_ascii _ W2)).
    rewrite <- (app_nil_r (runesOf w2)).
    rewrite doScanf_string_word; [|assumption|assumption|].
    2:{ destruct b1 as [|c b]; [contradiction|]. simpl in B1.
        apply andb_prop in B1 as [Hc _]. apply (blank_is_space c Hc). }
    rewrite doScanf_space_blanks by assumption.
    rewrite doScanf_string_word; [|assumption|assumption|reflexivity].
    reflexivity.
Qed.

Lemma parseUbuntuVersion_too_short_witness :
  parseUbuntuVersion "Ubuntu" = Err (ErrScan ErrEOF)
  /\ parseUbuntuVersion ("Ubuntu" +:+ " " +:+ "5.4.0-42.46-generic")
     = Err (ErrScan ErrEOF).
Proof.
  split.
  - apply (proj1 (proj2 parseUbuntuVersion_too_short) "Ubuntu");
      first [reflexivity | discriminate].
  - apply (proj2 (proj2 parseUbuntuVersion_too_short)
             "Ubuntu" " " "5.4.0-42.46-generic");
      first [reflexivity | discriminate].
Defined.

End UbuntuShortSignature.

(** ** Feature detection: what is probed, and which errors come out *)

Section Detection.
Import ebpf.

Variable host : Host.
Variable locations : list string.
Variable Sprintf : string -> string -> string.

Definition statCalls (locs : list string) (release : string) : list Call :=
  map (fun loc => CallStat (Sprintf loc release)) locs.

Lemma scanLocations_hit (pre post : list string) (loc release : string)
      (st : State) :
  Forall (fun l => os_Stat host (Sprintf l release) <> None) pre ->
  os_Stat host (Sprintf loc release) = None ->
  scanLocations host Sprintf (pre ++ loc :: post) release st
  = (true, logged st (statCalls (pre ++ [loc]) release)).
Proof.
  intros Hpre Hloc. revert st.
  induction Hpre as [|l pre Hl _ IH]; intros st.
  - cbn [app scanLocations]. unfold bind, stat, call, ret. simpl.
    rewrite Hloc. reflexivity.
  - cbn [app scanLocations]. unfold bind, stat, call, ret. simpl.
    destruct (os_Stat host (Sprintf l release)) eqn:E; [|contradiction].
    rewrite IH. unfold logged. simpl. rewrite <- app_assoc. reflexivity.
Qed.

(** X15. When the fixed path is absent and a location of the table holds
    a kernel image, [IsEnableBTF] returns true as soon as the first such
    location is found: the locations after it are not probed and the
    kernel configuration is not read. *)
Theorem IsEnableBTF_scan_hit (pre post : list string) (loc : string)
        (u : syscall.Utsname) (st : State) :
  locations = (pre ++ loc :: post)%list ->
  os_Stat host btfPath <> None ->
  Uname host = Ok u ->
  Forall (fun l => os_Stat host (Sprintf l (charsToString (syscall.Release u)))
                   <> None) pre ->
  os_Stat host (Sprintf loc (charsToString (syscall.Release u))) = None ->
  IsEnableBTF host locations Sprintf st
  = ((true, None),
     logged st (CallStat btfPath :: CallUname
                  :: statCalls (pre ++ [loc]) (charsToString (syscall.Release u)))).
Proof.
  intros Hlocs Hfixed Hu Hpre Hloc.
  unfold IsEnableBTF, checkKernelBTF, bind at 1 2, stat, call, ret.
  cbn [fst snd]. fold btfPath.
  destruct (os_Stat host btfPath) eqn:E; [|contradiction].
  unfold findVMLinux, getOSUnamer, bind, call, ret. cbn [fst snd].
  rewrite Hu. cbn [Release]. rewrite Hlocs.
  rewrite (scanLocations_hit pre post loc _ _ Hpre Hloc).
  unfold logged. simpl. rewrite <- !app_assoc. reflexivity.
Qed.

(** X16. An error of [IsEnableBTF] is the error of reading the kernel
    configuration, and comes with the answer false; a failure of [uname]
    or of [os.Stat] is never reported. *)
Theorem IsEnableBTF_error (st : State) (found : bool) (e : error) :
  fst (IsEnableBTF host locations Sprintf st) = (found, Some e) ->
  found = false /\ GetSystemConfig host = Err e.
Proof.
  unfold IsEnableBTF, bind.
  destruct (checkKernelBTF host locations Sprintf st) as [[b err] st1].
  assert (Hrest : forall st2,
    fst ((do c <- getSystemConfig host;
          match c with
          | Err e0 => ret (false, Some e0)
          | Ok KernelConfig =>
              match KernelConfig !! "CONFIG_DEBUG_INFO_BTF" with
              | None => ret (false, None)
              | Some bc =>
                  if negb (String.eqb bc "y") then ret (false, None)
                  else ret (true, None)
              end
          end) st2) = (found, Some e) ->
    found = false /\ GetSystemConfig host = Err e).
  { intros st2. unfold bind, getSystemConfig, call, ret. simpl.
    destruct (GetSystemConfig host) as [cfg|e0].
    - destruct (cfg !! "CONFIG_DEBUG_INFO_BTF") as [bc|]; [|discriminate].
      destruct (String.eqb bc "y"); discriminate.
    - simpl. intros H. injection H as <- <-. split; reflexivity. }
  destruct b; [destruct err|]; try apply Hrest.
  simpl. discriminate.
Qed.

End Detection.

Section DetectionWitnesses.
Import ebpf.

Definition threeLocations : list string :=
  ["/boot/vmlinux-%s"; "/lib/modules/%s/build/vmlinux";
   "/usr/lib/debug/boot/vmlinux-%s"].

Definition imageHost : Host :=
  unameHost "5.15.0" ["/lib/modules/5.15.0/build/vmlinux";
                      "/usr/lib/debug/boot/vmlinux-5.15.0"] (Ok ∅).

Lemma IsEnableBTF_scan_hit_witness :
  IsEnableBTF imageHost threeLocations fillTemplate initialState
  = ((true, None),
     mkState 0 [CallStat btfPath; CallUname;
                CallStat "/boot/vmlinux-5.15.0";
                CallStat "/lib/modules/5.15.0/build/vmlinux"]).
Proof.
  apply (IsEnableBTF_scan_hit imageHost threeLocations fillTemplate
           ["/boot/vmlinux-%s"] ["/usr/lib/debug/boot/vmlinux-%s"]
           "/lib/modules/%s/build/vmlinux" (utsnameOf "5.15.0") initialState).
  - reflexivity.
  - discriminate.
  - reflexivity.
  - repeat constructor. discriminate.
  - reflexivity.
Defined.

Lemma IsEnableBTF_error_witness :
  false = false
  /\ GetSystemConfig (unameHost "5.15.0" [] (Err enoent)) = Err enoent.
Proof.
  apply (IsEnableBTF_error (unameHost "5.15.0" [] (Err enoent))
           exampleLocations fillTemplate initialState false enoent).
  reflexivity.
Defined.

End DetectionWitnesses.

Section EnableBPFConverse.
Import ebpf.

Lemma checkFlags_true (cfg : gmap string string) (items : list string) :
  fst (checkFlags cfg items) = true ->
  Forall (fun f => cfg !! f = Some "y") items.
Proof.
  induction items as [|f items IH]; [constructor|]. cbn [checkFlags].
  destruct (cfg !! f) as [bc|] eqn:E; [|discriminate].
  destruct (String.eqb bc "y") eqn:Ey; [|discriminate]. simpl.
  intros H. apply String.eqb_eq in Ey. subst bc.
  constructor; [exact E|apply IH, H].
Qed.

Lemma checkFlags_consistent (cfg : gmap string string) (items : list string) :
  fst (checkFlags cfg items) = true <-> snd (checkFlags cfg items) = None.
Proof.
  induction items as [|f items IH]; [split; reflexivity|]. cbn [checkFlags].
  destruct (cfg !! f) as [bc|]; [|split; discriminate].
  destruct (String.eqb bc "y"); [exact IH|split; discriminate].
Qed.

Lemma IsEnableBPF_run (host : Host) (st : State) :
  IsEnableBPF host st
  = (match GetSystemConfig host with
     | Err e => (false, Some e)
     | Ok cfg => checkFlags cfg requiredFlags
     end,
     mkState (hostVersion st) (trace st ++ [CallGetSystemConfig])).
Proof.
  unfold IsEnableBPF, getSystemConfig, bind, call, ret.
  destruct (GetSystemConfig host); reflexivity.
Qed.

(** X17. [IsEnableBPF] answers true only when the configuration could be
    read and holds ["y"] for each of the three flags; its answer is true
    exactly when its error is nil; and the only thing it reads from the
    host is the kernel configuration. *)
Theorem IsEnableBPF_true_only (host : Host) (st : State) :
  (fst (fst (IsEnableBPF host st)) = true ->
   exists cfg, GetSystemConfig host = Ok cfg
               /\ Forall (fun f => cfg !! f = Some "y") requiredFlags)
  /\ (fst (fst (IsEnableBPF host st)) = true
      <-> snd (fst (IsEnableBPF host st)) = None)
  /\ snd (IsEnableBPF host st)
     = mkState (hostVersion st) (trace st ++ [CallGetSystemConfig]).
Proof.
  rewrite IsEnableBPF_run. cbn [fst snd].
  destruct (GetSystemConfig host) as [cfg|e].
  - split; [|split; [apply checkFlags_consistent|reflexivity]].
    intros H. exists cfg. split; [reflexivity|apply checkFlags_true, H].
  - split; [discriminate|]. split; [split; discriminate|reflexivity].
Qed.

Lemma IsEnableBPF_true_only_witness :
  exists cfg, GetSystemConfig (unameHost "5.15.0" [] (Ok fullConfig)) = Ok cfg
              /\ Forall (fun f => cfg !! f = Some "y") requiredFlags.
Proof.
  apply (proj1 (IsEnableBPF_true_only (unameHost "5.15.0" [] (Ok fullConfig))
                  initialState)).
  reflexivity.
Defined.

End EnableBPFConverse.

(** ** The life cycle of the Postgres module *)

Section PostgresLifeCycle.
Import module.

Variable ManagerState : Type.
Variable freshManager : ManagerState.
Variable host : Host.
Variable Asset : string -> result error string.
Variable InitWithOptions :
  Manager ManagerState -> string -> Options -> Manager ManagerState * option error.
Variable Manager_Start : Manager ManagerState -> Manager ManagerState * option error.
Variable Manager_Stop : Manager ManagerState -> Manager ManagerState * option error.
Variable GetMap : Manager ManagerState -> string -> ebpfMap * bool * option error.
Variable Module_Close : option error.

Abbreviation LModule := (PostgresModule ManagerState).
Abbreviation start :=
  (Start ManagerState freshManager host Asset InitWithOptions Manager_Start GetMap).
Abbreviation close := (Close ManagerState Manager_Stop Module_Close).

Lemma initDecodeFun_cases (m : LModule) (m' : LModule) (e : option error) :
  initDecodeFun _ GetMap m = Returns (m', e) ->
  (e <> None /\ m' = m)
  \/ (e = None
      /\ exists h funcs,
           eventFuncMaps _ m = Some funcs
           /\ eventFuncMaps _ m' = Some (<[h := PostgresEvent]> funcs)
           /\ eventMaps _ m' = (eventMaps _ m ++ [h])%list
           /\ bpfManager _ m' = bpfManager _ m
           /\ conf _ m' = conf _ m).
Proof.
  unfold initDecodeFun. intros H.
  destruct (bpfManager _ m) as [mgr|] eqn:Em; [|discriminate].
  destruct (GetMap mgr "events") as [[h found] o].
  destruct found, o as [err|]; simpl in H.
  - injection H as <- <-. left. split; [discriminate|reflexivity].
  - destruct (eventFuncMaps _ m) as [funcs|] eqn:Ef; [|discriminate].
    injection H as <- <-. right. split; [reflexivity|].
    exists h, funcs. simpl. repeat split; reflexivity.
  - injection H as <- <-. left. split; [discriminate|reflexivity].
  - injection H as <- <-. left. split; [discriminate|reflexivity].
Qed.

(** What [Start] does before the decode binding, when nothing fails. *)
Lemma Start_cases (m m' : LModule) (e : option error) :
  start m = Returns (m', e) ->
  (e <> None /\ m' = m)
  \/ (exists mgr m1,
        bpfManager _ m1 = Some mgr
        /\ eventFuncMaps _ m1 = eventFuncMaps _ m
        /\ eventMaps _ m1 = eventMaps _ m
        /\ conf _ m1 = conf _ m
        /\ ((e <> None /\ m' = m1)
            \/ initDecodeFun _ GetMap m1 = Returns (m', e))).
Proof.
  unfold Start, setupManagers. intros H.
  destruct (Asset "user/bytecode/postgres_kern.o") as [byteBuf|e0].
  2:{ injection H as <- <-. left. split; [discriminate|reflexivity]. }
  destruct (os_Stat host (PostgresPath (conf _ m))) as [err|].
  { injection H as <- <-. left. split; [discriminate|reflexivity]. }
  cbn [bpfManager bpfManagerOptions] in H.
  match type of H with
  | context [InitWithOptions ?mg ?b ?o] =>
      destruct (InitWithOptions mg b o) as [mgr1 [err|]]
  end.
  { injection H as <- <-. right. eexists _, _.
    split; [|split; [|split; [|split]]].
    5: (left; split; [discriminate|reflexivity]).
    all: reflexivity. }
  destruct (Manager_Start mgr1) as [mgr2 [err|]].
  { injection H as <- <-. right. eexists _, _.
    split; [|split; [|split; [|split]]].
    5: (left; split; [discriminate|reflexivity]).
    all: reflexivity. }
  right. eexists _, _.
  split; [|split; [|split; [|split]]].
  5: (right; exact H).
  all: reflexivity.
Qed.

(** X18. A successful [Start] appends one map handle to [Events] and
    binds the Postgres decoder to it, leaving the other bindings as they
    were.  On a module fresh from [Init] the result has exactly one event
    map, [DecodeFun] finds a decoder exactly for the handles of [Events],
    and [Close] on it returns. *)
Theorem Start_success (m m' : LModule) :
  start m = Returns (m', None) ->
  (exists h funcs,
     eventFuncMaps _ m = Some funcs
     /\ Events _ m' = (Events _ m ++ [h])%list
     /\ DecodeFun _ m' h = (Some PostgresEvent, true)
     /\ (forall em, em <> h -> DecodeFun _ m' em = DecodeFun _ m em)
     /\ (eventFuncMaps _ m = Some ∅ -> Events _ m = [] ->
         forall em, snd (DecodeFun _ m' em) = true <-> In em (Events _ m')))
  /\ (exists m'' e, close m' = Returns (m'', e)).
Proof.
  intros H. destruct (Start_cases m m' None H) as [[Hne _]|Hc];
    [contradiction|].
  destruct Hc as (mgr & m1 & Hmgr & Hf & Hev & _ & [[Hne _]|Hinit]);
    [contradiction|].
  destruct (initDecodeFun_cases m1 m' None Hinit) as [[Hne _]|[_ Hb]];
    [contradiction|].
  destruct Hb as (h & funcs & Hf1 & Hf' & Hev' & Hm' & _).
  split.
  - exists h, funcs. unfold Events, DecodeFun.
    rewrite Hf', Hev', Hev, <- Hf, Hf1.
    split; [reflexivity|]. split; [reflexivity|].
    split; [rewrite lookup_insert_eq; reflexivity|].
    split.
    + intros em Hne. rewrite lookup_insert_ne by congruence. reflexivity.
    + intros Hempty Hnil em. injection Hempty as ->. rewrite Hnil. simpl.
      destruct (decide (h = em)) as [->|Hne].
      * rewrite lookup_insert_eq. simpl. tauto.
      * rewrite lookup_insert_ne, lookup_empty by exact Hne. simpl.
        split; [discriminate|]. intros [Heq|[]]. contradiction.
  - unfold Close. rewrite Hm', Hmgr.
    destruct (Manager_Stop mgr) as [mgr1 [e|]]; eexists _, _; reflexivity.
Qed.


(** X20. When the asset and the binary are there, [Start] creates the
    manager before anything else can fail, so [Close] returns after such
    a [Start], failed or not; when [Stop] fails, [Close] wraps its error
    and the base type's [Close] is not called. *)
Theorem Close_after_manager_created (m m' : LModule) (e : option error)
        (byteBuf : string) :
  Asset "user/bytecode/postgres_kern.o" = Ok byteBuf ->
  os_Stat host (PostgresPath (conf _ m)) = None ->
  start m = Returns (m', e) ->
  exists mgr,
    bpfManager _ m' = Some mgr
    /\ close m'
       = match Manager_Stop mgr with
         | (mgr1, Some err) =>
             Returns (setManager _ m' mgr1,
                      Some (ErrWrap "couldn't stop manager " err "."))
         | (mgr1, None) => Returns (setManager _ m' mgr1, Module_Close)
         end.
Proof.
  intros Hasset Hstat H.
  assert (Hmgr : exists mgr, bpfManager _ m' = Some mgr).
  { unfold Start, setupManagers in H. rewrite Hasset, Hstat in H.
    cbn [bpfManager bpfManagerOptions] in H.
    match type of H with
    | context [InitWithOptions ?mg ?b ?o] =>
        destruct (InitWithOptions mg b o) as [mgr1 [err|]]
    end; [injection H as <- <-; eexists; reflexivity|].
    destruct (Manager_Start mgr1) as [mgr2 [err|]];
      [injection H as <- <-; eexists; reflexivity|].
    destruct (initDecodeFun_cases _ m' e H) as [[_ ->]|[_ Hb]];
      [eexists; reflexivity|].
    destruct Hb as (h & funcs & _ & _ & _ & -> & _). eexists; reflexivity. }
  destruct Hmgr as [mgr Hmgr]. exists mgr. split; [exact Hmgr|].
  unfold Close. rewrite Hmgr. reflexivity.
Qed.

End PostgresLifeCycle.

Section PostgresLifeCycleWitnesses.
Import module.

Definition postgresHost : Host :=
  unameHost "5.15.0" ["/usr/lib/postgresql/14/bin/postgres"] (Ok ∅).

Definition goodAsset (name : string) : result error string := Ok "ELF".

Definition goodInit (m : Manager unit) (image : string) (o : Options)
  : Manager unit * option error := (m, None).

Definition initialised : PostgresModule unit :=
  fst (Init unit (newModule unit exampleConfig) exampleConfig).

Definition startExample (m : PostgresModule unit)
  : outcome (PostgresModule unit * option error) :=
  Start unit tt postgresHost goodAsset goodInit idleManager (eventsAt 7) m.

Definition startedModule : PostgresModule unit :=
  match startExample initialised with
  | Returns (m', _) => m'
  | Panics _ => initialised
  end.

Lemma Start_success_witness :
  exists m'' e, Close unit idleManager None startedModule = Returns (m'', e).
Proof.
  apply (proj2 (Start_success unit tt postgresHost goodAsset goodInit
                  idleManager idleManager (eventsAt 7) None
                  initialised startedModule eq_refl)).
Defined.


Lemma Close_after_manager_created_witness :
  exists mgr,
    bpfManager unit startedModule = Some mgr
    /\ Close unit idleManager None startedModule
       = match idleManager mgr with
         | (mgr1, Some err) =>
             Returns (setManager unit startedModule mgr1,
                      Some (ErrWrap "couldn't stop manager " err "."))
         | (mgr1, None) => Returns (setManager unit startedModule mgr1, None)
         end.
Proof.
  apply (Close_after_manager_created unit tt postgresHost goodAsset goodInit
           idleManager idleManager (eventsAt 7) None
           initialised startedModule None "ELF");
    reflexivity.
Defined.

End PostgresLifeCycleWitnesses.

(** ** Every resolved version fits three bytes *)

Section ResolvedVersions.
Import kernel.

Definition threeBytes (v : N) : Prop :=
  exists a b c, a < 256 /\ b < 256 /\ c < 256 /\ v = VersionCode a b c.

Lemma release_three_bytes (s : string) (v : N) :
  kernelVersionFromReleaseString s = Ok v -> threeBytes v.
Proof.
  unfold kernelVersionFromReleaseString. intros H.
  set (parts := regexp.FindStringSubmatch releasePattern 3 s) in *.
  destruct (length parts <? 3)%nat; [discriminate|].
  pose proof (patchOf_le (nthString parts 1)) as H1.
  pose proof (patchOf_le (nthString parts 2)) as H2.
  pose proof (patchOf_le (nthString parts 3)) as H3.
  unfold patchOf in H1, H2, H3.
  destruct (strconv.ParseUint (nthString parts 1) 8) as [major [e|]];
    [discriminate|].
  destruct (strconv.ParseUint (nthString parts 2) 8) as [minor [e|]];
    [discriminate|].
  cbn [fst] in H1, H2.
  match type of H with
  | context [if ?c then 255 else ?p] =>
      assert (Hp : (if c then 255 else p) <= 255);
      [destruct c; [lia|]|set (patch := if c then 255 else p) in *]
  end.
  { destruct (4 <=? length parts)%nat; [exact H3|lia]. }
  injection H as <-.
  exists major, minor, patch. repeat split; try lia.
  apply encode_out; assumption.
Qed.

(** X21. Every version that [CurrentKernelVersion] returns, whichever
    strategy produced it, is built from three bytes, and so is every
    version that [HostVersion] returns from an empty cache. *)
Theorem resolved_version_three_bytes (host : Host) (st : State) (v : N) :
  (fst (CurrentKernelVersion host st) = Ok v -> threeBytes v)
  /\ (hostVersion st = 0 -> fst (HostVersion host st) = Ok v -> threeBytes v).
Proof.
  assert (Hc : fst (CurrentKernelVersion host st) = Ok v -> threeBytes v).
  { rewrite CurrentKernelVersion_run.
    assert (Hu : forall w, ubuntuResult host = Ok w -> threeBytes w).
    { unfold ubuntuResult, parseUbuntuVersion. intros w.
      destruct (ReadFile host "/proc/version_signature"); [|discriminate].
      destruct (scan.Sscanf _ _) as [stored [e|]]; [discriminate|].
      apply release_three_bytes. }
    assert (Hd : forall w, debianResult host = Ok w -> threeBytes w).
    { unfold debianResult, parseDebianVersion. intros w.
      destruct (ReadFile host "/proc/version"); [|discriminate].
      destruct (negb _); [discriminate|]. apply release_three_bytes. }
    assert (Hn : forall w, unameResult host = Ok w -> threeBytes w).
    { unfold unameResult. intros w.
      destruct (Uname host); [|discriminate]. apply release_three_bytes. }
    destruct (ubuntuResult host) as [w|] eqn:E1.
    { simpl. intros H. injection H as <-. apply Hu. reflexivity. }
    destruct (debianResult host) as [w|] eqn:E2.
    { simpl. intros H. injection H as <-. apply Hd. reflexivity. }
    simpl. apply Hn. }
  split; [exact Hc|].
  intros Hempty. rewrite HostVersion_run, Hempty. cbn [N.eqb].
  destruct (CurrentKernelVersion host st) as [[kv|err] st1]; simpl in *.
  - intros H. injection H as <-. apply Hc. reflexivity.
  - discriminate.
Qed.

Lemma resolved_version_three_bytes_witness :
  threeBytes (VersionCode 6 2 16).
Proof.
  apply (proj1 (resolved_version_three_bytes ubuntuHost initialState
                  (VersionCode 6 2 16))).
  vm_compute. reflexivity.
Defined.

End ResolvedVersions.

(** ** What a match consumes *)

Section MatcherSoundness.
Import utf8 regexp.

(** [consumes re pos pre rest]: the pattern [re], started at position
    [pos], can consume exactly the runes [pre] when [rest] follows. *)
Fixpoint consumes (re : regex) (pos : nat) (pre rest : list Rune) : Prop :=
  match re with
  | REmpty => pre = []
  | RBegin => pre = [] /\ pos = O
  | REnd => pre = [] /\ rest = []
  | RSet p => exists r, pre = [r] /\ p (code r) = true
  | RStar p => Forall (fun r => p (code r) = true) pre
  | RSeq r1 r2 =>
      exists p1 p2,
        pre = (p1 ++ p2)%list
        /\ consumes r1 pos p1 (p2 ++ rest)
        /\ consumes r2 (pos + length p1) p2 rest
  | ROpt r => pre = [] \/ consumes r pos pre rest
  | RGroup _ r => consumes r pos pre rest
  end.

(** A pattern without capturing groups. *)
Fixpoint groupFree (re : regex) : bool :=
  match re with
  | RSeq r1 r2 => groupFree r1 && groupFree r2
  | ROpt r => groupFree r
  | RGroup _ _ => false
  | _ => true
  end.

Lemma star_sound (p : N -> bool) (inp : list Rune) (pos : nat) (caps : Caps)
      (k : Cont) (c : Caps) :
  star p pos inp caps k = Some c ->
  exists pre rest,
    inp = (pre ++ rest)%list
    /\ Forall (fun r => p (code r) = true) pre
    /\ k (pos + length pre)%nat rest caps = Some c.
Proof.
  revert pos. induction inp as [|r inp IH]; intros pos H.
  - exists [], []. simpl in *. rewrite Nat.add_0_r. auto.
  - cbn [star] in H. destruct (p (code r)) eqn:Er.
    + destruct (star p (S pos) inp caps k) as [c'|] eqn:Es.
      * injection H as <-.
        destruct (IH _ Es) as (pre & rest & -> & Hall & Hk).
        exists (r :: pre), rest. simpl. rewrite Nat.add_succ_r.
        repeat split; [constructor; assumption|exact Hk].
      * exists [], (r :: inp). simpl. rewrite Nat.add_0_r. auto.
    + exists [], (r :: inp). simpl. rewrite Nat.add_0_r. auto.
Qed.

(** A successful run called its continuation after consuming a prefix of
    the input that the pattern describes; without capturing groups the
    groups are passed on unchanged. *)
Lemma run_sound (re : regex) :
  forall (pos : nat) (inp : list Rune) (caps : Caps) (k : Cont) (c : Caps),
    run re pos inp caps k = Some c ->
    exists pre rest caps',
      inp = (pre ++ rest)%list
      /\ consumes re pos pre rest
      /\ k (pos + length pre)%nat rest caps' = Some c
      /\ (groupFree re = true -> caps' = caps).
Proof.
  induction re as [| | |p|p|r1 IH1 r2 IH2|r IH|i r IH];
    intros pos inp caps k c H; cbn [run] in H.
  - exists [], inp, caps. simpl. rewrite Nat.add_0_r. auto.
  - destruct pos; [|discriminate].
    exists [], inp, caps. simpl. auto.
  - destruct inp; [|discriminate].
    exists [], [], caps. simpl. rewrite Nat.add_0_r. auto.
  - destruct inp as [|r rest]; [discriminate|].
    destruct (p (code r)) eqn:Er; [|discriminate].
    exists [r], rest, caps. simpl. rewrite Nat.add_1_r.
    repeat split; eauto.
  - destruct (star_sound _ _ _ _ _ _ H) as (pre & rest & -> & Hall & Hk).
    exists pre, rest, caps. auto.
  - destruct (IH1 _ _ _ _ _ H) as (p1 & rest1 & caps1 & -> & Hc1 & Hk1 & Hg1).
    destruct (IH2 _ _ _ _ _ Hk1) as (p2 & rest & caps2 & -> & Hc2 & Hk2 & Hg2).
    exists (p1 ++ p2)%list, rest, caps2.
    rewrite <- app_assoc, length_app, Nat.add_assoc.
    repeat split; [|exact Hk2|].
    + cbn [consumes]. exists p1, p2. auto.
    + cbn [groupFree]. intros Hg. apply andb_prop in Hg as [G1 G2].
      rewrite (Hg2 G2), (Hg1 G1). reflexivity.
  - destruct (run r pos inp caps k) as [c'|] eqn:Er.
    + injection H as <-.
      destruct (IH _ _ _ _ _ Er) as (pre & rest & caps' & -> & Hc & Hk & Hg).
      exists pre, rest, caps'. cbn [consumes groupFree]. auto.
    + exists [], inp, caps. simpl. rewrite Nat.add_0_r. auto.
  - destruct (IH _ _ _ _ _ H) as (pre & rest & caps' & -> & Hc & Hk & _).
    exists pre, rest. eexists. cbn [consumes groupFree].
    split; [reflexivity|]. split; [exact Hc|]. split; [exact Hk|discriminate].
Qed.

Lemma search_sound (re : regex) (groups : nat) (inp : list Rune) (pos : nat)
      (c : Caps) :
  search re groups pos inp = Some c ->
  exists skipped pre rest,
    inp = (skipped ++ pre ++ rest)%list
    /\ consumes re (pos + length skipped) pre rest.
Proof.
  revert pos. induction inp as [|r inp IH]; intros pos H; cbn [search] in H.
  - destruct (matchAt re groups pos []) as [c'|] eqn:Em; [|discriminate].
    unfold matchAt in Em.
    destruct (run_sound _ _ _ _ _ _ Em) as (pre & rest & _ & Hin & Hc & _).
    exists [], pre, rest. simpl. rewrite Nat.add_0_r. auto.
  - destruct (matchAt re groups pos (r :: inp)) as [c'|] eqn:Em.
    + unfold matchAt in Em.
      destruct (run_sound _ _ _ _ _ _ Em) as (pre & rest & _ & Hin & Hc & _).
      exists [], pre, rest. simpl. rewrite Nat.add_0_r. auto.
    + destruct (IH _ H) as (skipped & pre & rest & -> & Hc).
      exists (r :: skipped), pre, rest. simpl.
      rewrite Nat.add_succ_r. auto.
Qed.

(** A match found in a string lies between runes of the string. *)
Lemma FindStringSubmatch_sound (re : regex) (groups : nat) (s : string) :
  FindStringSubmatch re groups s <> [] ->
  exists skipped pre rest,
    decode s = (skipped ++ pre ++ rest)%list
    /\ consumes re (length skipped) pre rest.
Proof.
  unfold FindStringSubmatch. intros H.
  destruct (search re groups 0 (decode s)) as [c|] eqn:Es; [|contradiction].
  apply (search_sound _ _ _ _ _ Es).
Qed.

End MatcherSoundness.

(** ** Newlines in release strings *)

Section ReleaseNewline.
Import utf8 regexp kernel.

(** No class of the pattern accepts a newline. *)
Fixpoint nlFree (re : regex) : Prop :=
  match re with
  | RSet p | RStar p => p 10 = false
  | RSeq r1 r2 => nlFree r1 /\ nlFree r2
  | ROpt r | RGroup _ r => nlFree r
  | _ => True
  end.

Definition notNewline (r : Rune) : Prop := code r <> 10.

Lemma consumes_nlFree (re : regex) :
  forall pos pre rest,
    nlFree re -> consumes re pos pre rest -> Forall notNewline pre.
Proof.
  induction re as [| | |p|p|r1 IH1 r2 IH2|r IH|i r IH];
    intros pos pre rest Hnl Hc; cbn [consumes nlFree] in *.
  - subst. constructor.
  - destruct Hc as [-> _]. constructor.
  - destruct Hc as [-> _]. constructor.
  - destruct Hc as (r & -> & Hp). repeat constructor.
    intros E. unfold notNewline in *. rewrite E in Hp. congruence.
  - induction Hc as [|r pre Hp _ IH]; constructor; [|exact IH].
    intros E. rewrite E in Hp. congruence.
  - destruct Hnl as [N1 N2]. destruct Hc as (p1 & p2 & -> & C1 & C2).
    apply Forall_app. split; [eapply IH1|eapply IH2]; eassumption.
  - destruct Hc as [->|Hc]; [constructor|eapply IH; eassumption].
  - eapply IH; eassumption.
Qed.

Lemma releasePattern_nlFree : nlFree releasePattern.
Proof. cbn. repeat split. Qed.

(** [releasePattern] is anchored at both ends. *)
Lemma releasePattern_anchored (pos : nat) (pre rest : list Rune) :
  consumes releasePattern pos pre rest -> pos = O /\ rest = [].
Proof.
  unfold releasePattern. cbn [RCat consumes].
  intros (p1 & q1 & -> & [-> Hpos] & H). split; [exact Hpos|].
  destruct H as (p2 & q2 & -> & _ & H).
  destruct H as (p3 & q3 & -> & _ & H).
  destruct H as (p4 & q4 & -> & _ & H).
  destruct H as (p5 & q5 & -> & _ & H).
  destruct H as (p6 & q6 & -> & _ & H).
  destruct H as (p7 & q7 & -> & [-> Hend] & ->).
  simpl in Hend. exact Hend.
Qed.

Lemma hasNewline_after_rune (c0 : ascii) (s1 : string) :
  hasNewline (dropBytes (snd (DecodeRune (String c0 s1))) (String c0 s1))
  = hasNewline s1.
Proof.
  assert (Hcont : forall lo hi (c : ascii) s,
    128 <= lo -> inRange lo hi (byteOf c) = true ->
    hasNewline (String c s) = hasNewline s).
  { intros lo hi c s Hlo Hr. unfold inRange in Hr.
    apply andb_prop in Hr as [Hr _]. apply N.leb_le in Hr. simpl.
    destruct (byteOf c =? 10) eqn:E; [apply N.eqb_eq in E; lia|reflexivity]. }
  unfold DecodeRune.
  destruct (byteOf c0 <? 128); [reflexivity|].
  destruct ((byteOf c0 <? 194) || (244 <? byteOf c0)); [reflexivity|].
  destruct s1 as [|c1 s2]; [reflexivity|].
  match goal with |- context [negb (inRange ?lo ?hi ?b)] =>
    assert (Hlo : 128 <= lo)
      by (destruct (byteOf c0 =? 224); [lia|destruct (byteOf c0 =? 240); lia]);
    destruct (inRange lo hi b) eqn:R1 end; cbn [negb]; [|reflexivity].
  pose proof (Hcont _ _ c1 s2 Hlo R1) as H1.
  destruct (byteOf c0 <? 224); [cbn [snd dropBytes]; symmetry; exact H1|].
  destruct s2 as [|c2 s3]; [reflexivity|].
  destruct (inRange 128 191 (byteOf c2)) eqn:R2; cbn [negb]; [|reflexivity].
  pose proof (Hcont 128 191 c2 s3 ltac:(lia) R2) as H2.
  destruct (byteOf c0 <? 240);
    [cbn [snd dropBytes]; rewrite H1, H2; reflexivity|].
  destruct s3 as [|c3 s4]; [reflexivity|].
  destruct (inRange 128 191 (byteOf c3)) eqn:R3; cbn [negb]; [|reflexivity].
  pose proof (Hcont 128 191 c3 s4 ltac:(lia) R3) as H3.
  cbn [snd dropBytes]. rewrite H1, H2, H3. reflexivity.
Qed.

(** A newline byte is always a rune of its own. *)
Lemma decode_newline (s : string) :
  hasNewline s = true -> ~ Forall notNewline (decode s).
Proof.
  induction s as [|c0 s1 IH] using rune_ind; [discriminate|].
  intros Hnl Hall. destruct (decode_unfold c0 s1) as [Hd _].
  rewrite Hd in Hall.
  pose proof (Forall_inv Hall) as Hhead.
  pose proof (Forall_inv_tail Hall) as Htail.
  unfold notNewline in Hhead. cbn [code] in Hhead.
  cbn [hasNewline] in Hnl. destruct (byteOf c0 =? 10) eqn:E.
  - apply N.eqb_eq in E. apply Hhead.
    destruct (head_code c0 s1) as [[_ ->]|[Hb _]]; [exact E|lia].
  - cbn [orb] in Hnl. apply IH; [|exact Htail].
    rewrite hasNewline_after_rune. exact Hnl.
Qed.

(** A release string that holds a newline anywhere, also as its
    last byte, is rejected: no part of the pattern matches a newline and
    the pattern must reach the end of the string. *)
Theorem release_newline_rejected (s : string) :
  hasNewline s = true ->
  kernelVersionFromReleaseString s
  = Err (ErrQuote "got invalid release version " s
           " (expected format '4.3.2-1')").
Proof.
  intros Hnl. unfold kernelVersionFromReleaseString.
  destruct (FindStringSubmatch releasePattern 3 s) as [|w parts] eqn:Em;
    [reflexivity|].
  exfalso.
  destruct (FindStringSubmatch_sound releasePattern 3 s) as
    (skipped & pre & rest & Hd & Hc); [rewrite Em; discriminate|].
  destruct (releasePattern_anchored _ _ _ Hc) as [Hpos ->].
  destruct skipped; [|discriminate Hpos].
  apply (decode_newline s Hnl). rewrite Hd, app_nil_r. simpl.
  apply (consumes_nlFree _ _ _ _ releasePattern_nlFree Hc).
Qed.

Lemma release_newline_rejected_witness :
  kernelVersionFromReleaseString ("5.15.0" +:+ String (charOf 10) "")
  = Err (ErrQuote "got invalid release version "
           ("5.15.0" +:+ String (charOf 10) "")
           " (expected format '4.3.2-1')").
Proof.
  apply (release_newline_rejected ("5.15.0" +:+ String (charOf 10) "")).
  reflexivity.
Defined.

End ReleaseNewline.

(** ** Exactly which strings are release strings *)

Section ReleaseAccepted.
Import utf8 regexp kernel.

Fixpoint takeDigits (s : string) : string :=
  match s with
  | String c s' => if isDigit c then String c (takeDigits s') else ""
  | EmptyString => ""
  end.

Lemma digits_split (s : string) :
  s = takeDigits s +:+ dropDigits s
  /\ allDigits (takeDigits s) = true
  /\ startsWithDigit (dropDigits s) = false.
Proof.
  induction s as [|c s (IH1 & IH2 & IH3)]; [repeat split|].
  cbn [takeDigits dropDigits]. destruct (isDigit c) eqn:E.
  - rewrite append_cons, <- IH1. simpl. rewrite E, IH2. auto.
  - rewrite append_nil_l. simpl. rewrite E. auto.
Qed.

Lemma takeDigits_nonempty (s : string) :
  startsWithDigit s = true -> takeDigits s <> "".
Proof.
  destruct s as [|c s]; [discriminate|]. simpl. intros ->. discriminate.
Qed.

(** All capturing groups of the pattern have an index of [n] or more. *)
Fixpoint groupsFrom (n : nat) (re : regex) : bool :=
  match re with
  | RSeq r1 r2 => groupsFrom n r1 && groupsFrom n r2
  | ROpt r => groupsFrom n r
  | RGroup i r => (n <=? i)%nat && groupsFrom n r
  | _ => true
  end.

(** A run leaves the groups below [n] as they are. *)
Lemma run_keeps (n : nat) (re : regex) :
  forall (pos : nat) (inp : list Rune) (caps : Caps) (k : Cont) (c : Caps),
    groupsFrom n re = true ->
    run re pos inp caps k = Some c ->
    exists pos' rest caps',
      k pos' rest caps' = Some c
      /\ length caps' = length caps
      /\ (forall i, (i < n)%nat -> caps' !! i = caps !! i).
Proof.
  induction re as [| | |p|p|r1 IH1 r2 IH2|r IH|i r IH];
    intros pos inp caps k c Hg H; cbn [run groupsFrom] in *.
  - eauto 6.
  - destruct pos; [eauto 6|discriminate].
  - destruct inp; [eauto 6|discriminate].
  - destruct inp as [|r rest]; [discriminate|].
    destruct (p (code r)); [eauto 6|discriminate].
  - destruct (star_sound _ _ _ _ _ _ H) as (pre & rest & _ & _ & Hk). eauto 6.
  - apply andb_prop in Hg as [G1 G2].
    destruct (IH1 _ _ _ _ _ G1 H) as (pos1 & rest1 & caps1 & Hk1 & L1 & K1).
    destruct (IH2 _ _ _ _ _ G2 Hk1) as (pos2 & rest2 & caps2 & Hk2 & L2 & K2).
    exists pos2, rest2, caps2. repeat split; [exact Hk2|congruence|].
    intros j Hj. rewrite (K2 j Hj). apply K1, Hj.
  - destruct (run r pos inp caps k) as [c'|] eqn:Er.
    + injection H as <-. apply (IH _ _ _ _ _ Hg Er).
    + eauto 6.
  - apply andb_prop in Hg as [Gi G]. apply Nat.leb_le in Gi.
    destruct (IH _ _ _ _ _ G H) as (pos1 & rest1 & caps1 & Hk1 & L1 & K1).
    eexists _, _, _. split; [exact Hk1|]. unfold Caps in *. split.
    + rewrite length_insert. exact L1.
    + intros j Hj. rewrite list_lookup_insert_ne by lia. apply K1, Hj.
Qed.

Lemma opt_succeeds (r : regex) (inp : list Rune) (pos : nat) (caps : Caps)
      (k : Cont) (c0 : Caps) :
  k pos inp caps = Some c0 -> exists c, run (ROpt r) pos inp caps k = Some c.
Proof.
  intros H. cbn [run]. destruct (run r pos inp caps k); eauto.
Qed.

(** What follows the second group of [releasePattern]. *)
Definition afterMinor : regex :=
  RCat [ ROpt (RSeq (RSet anyNotNL) (RGroup 3 (RPlus digit)));
         RStar anyNotNL;
         REnd ].

Lemma afterMinor_succeeds (rest : list Rune) (pos : nat) (d1 d2 : string)
      (k : Cont) :
  Forall (fun r => anyNotNL (code r) = true) rest ->
  (forall pos' inp' caps',
     exists w, k pos' inp' caps' = Some (<[0%nat := Some w]> caps')) ->
  exists w d3,
    run afterMinor pos rest [None; Some d1; Some d2; None] k
    = Some [Some w; Some d1; Some d2; d3].
Proof.
  intros Hall Hk.
  assert (Hsome : exists c,
    run afterMinor pos rest [None; Some d1; Some d2; None] k = Some c).
  { unfold afterMinor. rewrite run_RCat_cons.
    destruct (Hk (pos + length rest)%nat [] [None; Some d1; Some d2; None])
      as [w Hw].
    eapply opt_succeeds. rewrite run_RCat_cons.
    apply star_any_to_end; [exact Hall|].
    rewrite run_RCat_cons. cbn [run]. rewrite run_RCat_nil. exact Hw. }
  destruct Hsome as [c Hc]. rewrite Hc.
  destruct (run_keeps 3 afterMinor _ _ _ _ _ eq_refl Hc)
    as (pos' & rest' & caps' & Hk' & Hlen & Hkeep).
  destruct (Hk pos' rest' caps') as [w Hw]. rewrite Hw in Hk'.
  injection Hk' as <-.
  destruct caps' as [|c0 [|c1 [|c2 [|c3 [|? ?]]]]]; try discriminate Hlen.
  pose proof (Hkeep 1%nat ltac:(lia)) as K1.
  pose proof (Hkeep 2%nat ltac:(lia)) as K2.
  simpl in K1, K2. injection K1 as ->. injection K2 as ->.
  exists w, c3. reflexivity.
Qed.

End ReleaseAccepted.

Section ReleaseFormatError.
Import utf8 regexp kernel.

Lemma byte_is_dot (c : ascii) : (byteOf c =? 46) = true -> c = "."%char.
Proof.
  intros H. apply N.eqb_eq in H. unfold byteOf in H.
  rewrite <- (ascii_N_embedding c), H. reflexivity.
Qed.

Lemma hasNewline_app (a b : string) :
  hasNewline (a +:+ b) = hasNewline a || hasNewline b.
Proof.
  induction a as [|c a IH]; [reflexivity|].
  rewrite append_cons. simpl. rewrite IH, orb_assoc. reflexivity.
Qed.

(** A string with the leading text of a release string and no newline
    matches [releasePattern]; its first two groups are the two numbers. *)
Lemma release_match_any (s : string) :
  leadingVersion s = true -> hasNewline s = false ->
  exists whole d2 d3 rest,
    s = takeDigits s +:+ "." +:+ d2 +:+ rest
    /\ allDigits (takeDigits s) = true /\ takeDigits s <> ""
    /\ allDigits d2 = true /\ d2 <> ""
    /\ FindStringSubmatch releasePattern 3 s = [whole; takeDigits s; d2; d3].
Proof.
  unfold leadingVersion. intros Hlead Hnl.
  apply andb_prop in Hlead as [Hhead Hdot].
  destruct (digits_split s) as (Hs & D1 & _).
  pose proof (takeDigits_nonempty s Hhead) as N1.
  set (d1 := takeDigits s) in *.
  destruct (dropDigits s) as [|dot s'] eqn:Edrop; [discriminate|].
  cbn [dotThenDigit] in Hdot. apply andb_prop in Hdot as [Hdot Hs'].
  apply byte_is_dot in Hdot. subst dot.
  destruct (digits_split s') as (Hs2 & D2 & T2).
  pose proof (takeDigits_nonempty s' Hs') as N2.
  set (d2 := takeDigits s') in *. set (rest := dropDigits s') in *.
  assert (Hform : s = d1 +:+ "." +:+ d2 +:+ rest).
  { rewrite Hs at 1. rewrite Hs2 at 1. reflexivity. }
  assert (Hrnl : hasNewline rest = false).
  { rewrite Hform in Hnl. rewrite !hasNewline_app in Hnl.
    apply orb_false_elim in Hnl as [_ Hnl].
    apply orb_false_elim in Hnl as [_ Hnl].
    apply orb_false_elim in Hnl as [_ Hnl]. exact Hnl. }
  set (inp := (runesOf d1 ++ runeOf "." :: runesOf d2 ++ decode rest)%list).
  set (k0 := fun (pos' : nat) (inp' : list Rune) (caps' : Caps) =>
               @Some Caps (<[0%nat := Some (rawOf (firstn (pos' - 0) inp))]> caps')).
  destruct (afterMinor_succeeds (decode rest)
              (S (0 + String.length d1) + String.length d2) d1 d2 k0
              (decode_noNewline rest Hrnl)) as (w & d3 & Hrun).
  { intros pos' inp' caps'. eexists. reflexivity. }
  assert (Hm : matchAt releasePattern 3 0 inp
               = Some [Some w; Some d1; Some d2; d3]).
  { unfold matchAt. rewrite run_RGroup. fold k0. unfold releasePattern.
    rewrite run_RCat_cons. cbn [run]. cbv beta.
    rewrite run_RCat_cons. unfold inp at 1.
    apply group_plus_digits; [assumption..|reflexivity|].
    rewrite run_RCat_cons, set_lit.
    rewrite run_RCat_cons. apply group_plus_digits;
      [assumption..|rewrite head_digit, T2; reflexivity|].
    exact Hrun. }
  exists w, d2, (match d3 with Some t => t | None => "" end), rest.
  repeat split; try assumption.
  unfold FindStringSubmatch. rewrite Hform.
  rewrite (decode_ascii _ _ (allDigits_ascii _ D1)).
  rewrite append_cons, append_nil_l, decode_cons_ascii by reflexivity.
  rewrite (decode_ascii _ _ (allDigits_ascii _ D2)).
  fold inp. rewrite (search_first _ _ _ _ _ Hm). reflexivity.
Qed.

(** X22. [kernelVersionFromReleaseString] reports the format error
    exactly for the strings that hold a newline or do not start with
    digits, a dot and a digit.  Every other string either gives a version
    or the range error of its major or minor number. *)
Theorem release_format_error_iff (s : string) :
  (kernelVersionFromReleaseString s
   = Err (ErrQuote "got invalid release version " s
            " (expected format '4.3.2-1')")
   <-> leadingVersion s = false \/ hasNewline s = true)
  /\ (leadingVersion s = true -> hasNewline s = false ->
      (exists v, kernelVersionFromReleaseString s = Ok v)
      \/ (exists num, kernelVersionFromReleaseString s
                      = Err (ErrNum num strconv.ErrRange))).
Proof.
  assert (Hacc : leadingVersion s = true -> hasNewline s = false ->
    (exists v, kernelVersionFromReleaseString s = Ok v)
    \/ (exists num, kernelVersionFromReleaseString s
                    = Err (ErrNum num strconv.ErrRange))).
  { intros Hlead Hnl.
    destruct (release_match_any s Hlead Hnl)
      as (whole & d2 & d3 & rest & _ & D1 & N1 & D2 & N2 & Hm).
    unfold kernelVersionFromReleaseString. rewrite Hm.
    cbn [length Nat.ltb Nat.leb nthString nth].
    rewrite (ParseUint_digits _ 8 ltac:(lia) D1 N1).
    destruct (decVal (takeDigits s) 0 <=? 2 ^ 8 - 1); [|right; eauto].
    rewrite (ParseUint_digits _ 8 ltac:(lia) D2 N2).
    destruct (decVal d2 0 <=? 2 ^ 8 - 1); [left; eauto|right; eauto]. }
  split; [|exact Hacc]. split.
  - intros Herr.
    destruct (leadingVersion s) eqn:Hlead; [|left; reflexivity].
    destruct (hasNewline s) eqn:Hnl; [right; reflexivity|].
    destruct (Hacc eq_refl eq_refl) as [[v Hv]|[num Hn]];
      rewrite Herr in *; discriminate.
  - intros [Hlead|Hnl].
    + apply release_invalid, Hlead.
    + unfold kernelVersionFromReleaseString.
      destruct (FindStringSubmatch releasePattern 3 s) as [|w parts] eqn:Em;
        [reflexivity|].
      exfalso.
      destruct (FindStringSubmatch_sound releasePattern 3 s) as
        (skipped & pre & rest & Hd & Hc); [rewrite Em; discriminate|].
      destruct (releasePattern_anchored _ _ _ Hc) as [Hpos ->].
      destruct skipped; [|discriminate Hpos].
      apply (decode_newline s Hnl). rewrite Hd, app_nil_r. simpl.
      apply (consumes_nlFree _ _ _ _ releasePattern_nlFree Hc).
Qed.

Lemma release_format_error_iff_witness :
  (exists v, kernelVersionFromReleaseString "6.1-rc3" = Ok v)
  \/ (exists num, kernelVersionFromReleaseString "6.1-rc3"
                  = Err (ErrNum num strconv.ErrRange)).
Proof.
  apply (proj2 (release_format_error_iff "6.1-rc3")); reflexivity.
Defined.

End ReleaseFormatError.

(** ** The Debian banner *)

Section DebianBanner.
Import utf8 regexp kernel.

Fixpoint prefixOf (t s : string) : bool :=
  match t, s with
  | EmptyString, _ => true
  | String a t', String b s' => (byteOf a =? byteOf b) && prefixOf t' s'
  | String _ _, EmptyString => false
  end.

(** [t] occurs somewhere in [s]. *)
Fixpoint occursIn (t s : string) : bool :=
  prefixOf t s
  || match s with
     | String _ s' => occursIn t s'
     | EmptyString => false
     end.

Lemma prefixOf_app (t b : string) : prefixOf t (t +:+ b) = true.
Proof.
  induction t as [|c t IH]; [reflexivity|].
  rewrite append_cons. simpl. rewrite N.eqb_refl, IH. reflexivity.
Qed.

Lemma occursIn_app (t a b : string) : occursIn t (a +:+ t +:+ b) = true.
Proof.
  induction a as [|c a IH].
  - rewrite append_nil_l. destruct (t +:+ b) eqn:E; simpl;
      rewrite <- E, prefixOf_app; reflexivity.
  - rewrite append_cons. cbn [occursIn]. rewrite IH. apply orb_true_r.
Qed.

Lemma rawOf_app (a b : list Rune) : rawOf (a ++ b) = rawOf a +:+ rawOf b.
Proof.
  induction a as [|r a IH]; [reflexivity|].
  simpl. rewrite IH, append_assoc. reflexivity.
Qed.

(** The runes that a literal text consumes are the bytes of the text. *)
Lemma consumes_RLits (t : string) (pos : nat) (pre rest : list Rune) :
  isAscii t = true ->
  consumes (RLits t) pos pre rest ->
  Forall plainRune pre -> rawOf pre = t.
Proof.
  revert pos pre. induction t as [|c t IH]; intros pos pre Ha Hc Hp;
    cbn [RLits consumes] in Hc.
  - subst. reflexivity.
  - destruct Hc as (p1 & p2 & -> & (r & -> & Hr) & Hc2).
    simpl in Ha. apply andb_prop in Ha as [Hlow Ha]. apply N.ltb_lt in Hlow.
    apply Forall_app in Hp as [Hp1 Hp2].
    rewrite rawOf_app, (IH _ _ Ha Hc2 Hp2). simpl.
    unfold lit in Hr. apply N.eqb_eq in Hr.
    pose proof (Forall_inv Hp1) as Hplain. unfold plainRune in Hplain.
    rewrite Hplain by (rewrite Hr; exact Hlow).
    rewrite Hr. unfold charOf, byteOf. rewrite ascii_N_embedding. reflexivity.
Qed.

(** A match of [debianVersionRegex] contains the text [ SMP Debian ]. *)
Lemma debian_match_text (s : string) :
  FindStringSubmatch debianVersionRegex 1 s <> [] ->
  occursIn " SMP Debian " s = true.
Proof.
  intros Hm.
  destruct (FindStringSubmatch_sound _ _ _ Hm) as (skipped & pre & rest & Hd & Hc).
  unfold debianVersionRegex in Hc. cbn [RCat consumes] in Hc.
  destruct Hc as (p0 & q0 & -> & _ & Hc).
  destruct Hc as (p1 & q1 & -> & Hlit & _).
  pose proof (decode_plain s) as Hplain. rewrite Hd in Hplain.
  apply Forall_app in Hplain as [_ Hplain].
  apply Forall_app in Hplain as [Hplain _].
  apply Forall_app in Hplain as [_ Hplain].
  apply Forall_app in Hplain as [Hplain _].
  pose proof (consumes_RLits " SMP Debian " _ _ _ eq_refl Hlit Hplain) as Htext.
  rewrite <- (rawOf_decode s), Hd.
  rewrite !rawOf_app, Htext.
  rewrite <- !append_assoc. rewrite append_assoc.
  rewrite (append_assoc _ " SMP Debian " _).
  apply occursIn_app.
Qed.

(** X23. A banner that does not contain the text [ SMP Debian ] is not a
    Debian banner: [parseDebianVersion] fails with the error that repeats
    the banner. *)
Theorem parseDebianVersion_other_banner (str : string) :
  occursIn " SMP Debian " str = false ->
  parseDebianVersion str
  = Err (ErrNew ("failed to parse kernel version from /proc/version: " +:+ str)).
Proof.
  intros Hno. unfold parseDebianVersion.
  destruct (FindStringSubmatch debianVersionRegex 1 str) as [|w parts] eqn:Em;
    [reflexivity|].
  exfalso. rewrite debian_match_text in Hno; [discriminate|].
  rewrite Em. discriminate.
Qed.

Lemma parseDebianVersion_other_banner_witness :
  parseDebianVersion "Linux version 5.15.0-76-generic (buildd@lcy02) #83-Ubuntu SMP"
  = Err (ErrNew ("failed to parse kernel version from /proc/version: "
                   +:+ "Linux version 5.15.0-76-generic (buildd@lcy02) #83-Ubuntu SMP")).
Proof.
  apply (parseDebianVersion_other_banner
           "Linux version 5.15.0-76-generic (buildd@lcy02) #83-Ubuntu SMP").
  reflexivity.
Defined.

End DebianBanner.

Section DebianMatch.
Import utf8 regexp kernel.

Lemma plus_digits (ds : string) (rest : list Rune) (pos : nat)
      (caps : Caps) (k : Cont) (c : Caps) :
  allDigits ds = true -> ds <> "" -> noDigitAhead rest = true ->
  k (pos + String.length ds)%nat rest caps = Some c ->
  run (RPlus digit) pos (runesOf ds ++ rest) caps k = Some c.
Proof.
  intros Hd Hne Hrest Hk.
  destruct ds as [|x ds]; [contradiction|].
  pose proof Hd as Hd'. simpl in Hd'. apply andb_prop in Hd' as [Hx Hs].
  unfold RPlus. rewrite run_RSeq. cbn [run]. cbn [runesOf app].
  change (code (runeOf x)) with (byteOf x).
  change (digit (byteOf x)) with (isDigit x). rewrite Hx.
  apply star_run; [apply digits_Forall, Hs|].
  rewrite star_stop by (apply noDigitAhead_stop, Hrest).
  rewrite length_runesOf.
  replace (S pos + String.length ds)%nat
    with (pos + String.length (String x ds))%nat by (simpl; lia).
  exact Hk.
Qed.

Lemma run_RLits (t : string) (rest : list Rune) (pos : nat) (caps : Caps)
      (k : Cont) :
  run (RLits t) pos (runesOf t ++ rest) caps k
  = k (pos + String.length t)%nat rest caps.
Proof.
  revert pos. induction t as [|c t IH]; intros pos.
  - simpl. rewrite Nat.add_0_r. reflexivity.
  - cbn [RLits runesOf app]. rewrite run_RSeq, set_lit, IH.
    simpl. rewrite Nat.add_succ_r. reflexivity.
Qed.

Lemma runesOf_app (a b : string) :
  runesOf (a +:+ b) = (runesOf a ++ runesOf b)%list.
Proof.
  induction a as [|c a IH]; [reflexivity|].
  rewrite append_cons. simpl. rewrite IH. reflexivity.
Qed.

Lemma length_append (a b : string) :
  String.length (a +:+ b) = (String.length a + String.length b)%nat.
Proof.
  induction a as [|c a IH]; [reflexivity|].
  rewrite append_cons. simpl. rewrite IH. reflexivity.
Qed.

(** The input goes on with a space and the letter S. *)
Definition startsSpaceS (inp : list Rune) : bool :=
  match inp with
  | r0 :: r1 :: _ => (code r0 =? 32) && (code r1 =? 83)
  | _ => false
  end.

Fixpoint anySpaceS (inp : list Rune) : bool :=
  startsSpaceS inp
  || match inp with
     | _ :: rest => anySpaceS rest
     | [] => false
     end.

Lemma star_none (p : N -> bool) (k : Cont) :
  (forall pos inp caps, startsSpaceS inp = false -> k pos inp caps = None) ->
  forall inp pos caps,
    anySpaceS inp = false -> star p pos inp caps k = None.
Proof.
  intros Hk. induction inp as [|r rest IH]; intros pos caps H.
  - apply Hk. reflexivity.
  - cbn [anySpaceS] in H. apply orb_false_elim in H as [H0 Hrest].
    cbn [star]. destruct (p (code r)); [rewrite (IH _ _ Hrest)|]; apply Hk, H0.
Qed.

Lemma notS_anySpaceS (inp : list Rune) :
  Forall (fun r => code r <> 83) inp -> forall x, anySpaceS (x :: inp) = false.
Proof.
  induction 1 as [|r inp Hr _ IH]; intros x.
  - reflexivity.
  - cbn [anySpaceS] in *. specialize (IH r). rewrite IH.
    cbn [startsSpaceS].
    destruct (code r =? 83) eqn:E; [apply N.eqb_eq in E; contradiction|].
    rewrite andb_false_r. reflexivity.
Qed.

Fixpoint hasByte (b : N) (s : string) : bool :=
  match s with
  | EmptyString => false
  | String c s' => (byteOf c =? b) || hasByte b s'
  end.

Lemma hasByte_dropBytes (b : N) (n : nat) (s : string) :
  hasByte b s = false -> hasByte b (dropBytes n s) = false.
Proof.
  revert s. induction n as [|n IH]; intros [|c s] H; try exact H; try reflexivity.
  simpl in H. apply orb_false_elim in H as [_ H]. apply IH, H.
Qed.

(** A byte below 128 that is not in the string is not among its runes. *)
Lemma decode_noByte (b : N) (s : string) :
  b < 128 -> hasByte b s = false ->
  Forall (fun r => code r <> b) (decode s).
Proof.
  intros Hb. induction s as [|c0 s1 IH] using rune_ind; intros H; [constructor|].
  destruct (decode_unfold c0 s1) as [-> _].
  constructor; [|apply IH, hasByte_dropBytes, H].
  cbn [code]. cbn [hasByte] in H. apply orb_false_elim in H as [Hc _].
  apply N.eqb_neq in Hc.
  destruct (head_code c0 s1) as [[_ ->]|[_ Hhigh]]; [exact Hc|lia].
Qed.

Lemma runesOf_noByte (b : N) (s : string) :
  hasByte b s = false -> Forall (fun r => code r <> b) (runesOf s).
Proof.
  induction s as [|c s IH]; intros H; [constructor|].
  simpl in H. apply orb_false_elim in H as [Hc Hs].
  constructor; [apply N.eqb_neq, Hc|apply IH, Hs].
Qed.

Lemma digits_noByte (b : N) (ds : string) :
  b < 48 \/ 57 < b -> allDigits ds = true -> hasByte b ds = false.
Proof.
  intros Hb. induction ds as [|c ds IH]; [reflexivity|]. simpl. intros H.
  apply andb_prop in H as [Hc Hs]. rewrite (IH Hs), orb_false_r.
  unfold isDigit in Hc. apply andb_prop in Hc as [H1 H2].
  apply N.leb_le in H1. apply N.leb_le in H2. apply N.eqb_neq. lia.
Qed.

Lemma hasByte_app (b : N) (x y : string) :
  hasByte b (x +:+ y) = hasByte b x || hasByte b y.
Proof.
  induction x as [|c x IH]; [reflexivity|].
  rewrite append_cons. simpl. rewrite IH, orb_assoc. reflexivity.
Qed.

(** What follows the leading [.*] of [debianVersionRegex]. *)
Definition debianCore : list regex :=
  [ RLits " SMP Debian ";
    RGroup 1 (RCat [ RPlus digit; RSet (lit "."); RPlus digit;
                     RSet anyNotNL; RPlus digit; RSet (lit "-");
                     RPlus digit ]);
    ROpt (RSeq (RSet (lit "+")) (RStar alnum));
    RStar anyNotNL ].

Lemma debianCore_fails (pos : nat) (inp : list Rune) (caps : Caps) (k : Cont) :
  startsSpaceS inp = false -> run (RCat debianCore) pos inp caps k = None.
Proof.
  intros H. unfold debianCore. rewrite run_RCat_cons.
  cbn [RLits]. rewrite run_RSeq.
  destruct inp as [|r0 inp]; [reflexivity|].
  cbn [run]. unfold lit at 1. change (byteOf " ") with 32.
  destruct (code r0 =? 32) eqn:E0; [|reflexivity].
  destruct inp as [|r1 inp]; [reflexivity|].
  unfold lit at 1. change (byteOf "S") with 83.
  simpl in H. rewrite E0 in H. simpl in H. rewrite H. reflexivity.
Qed.

Definition debianTail : regex :=
  RCat [ ROpt (RSeq (RSet (lit "+")) (RStar alnum)); RStar anyNotNL ].

Lemma star_succeeds (p : N -> bool) (k : Cont) (caps : Caps) :
  (forall pos inp, exists c, k pos inp caps = Some c) ->
  forall inp pos, exists c, star p pos inp caps k = Some c.
Proof.
  intros Hk. induction inp as [|r rest IH]; intros pos; cbn [star].
  - apply Hk.
  - destruct (p (code r)); [|apply Hk].
    destruct (IH (S pos)) as [c ->]. eauto.
Qed.

Lemma debianTail_succeeds (rest : list Rune) (pos : nat) (ver : string)
      (k : Cont) :
  (forall pos' inp' caps',
     exists w, k pos' inp' caps' = Some (<[0%nat := Some w]> caps')) ->
  exists w, run debianTail pos rest [None; Some ver] k = Some [Some w; Some ver].
Proof.
  intros Hk.
  assert (Hsome : exists c, run debianTail pos rest [None; Some ver] k = Some c).
  { unfold debianTail. rewrite run_RCat_cons.
    assert (Hstar : forall pos0 inp0, exists c,
      run (RCat [RStar anyNotNL]) pos0 inp0 [None; Some ver] k = Some c).
    { intros pos0 inp0. rewrite run_RCat_cons. cbn [run].
      apply star_succeeds. intros pos1 inp1. rewrite run_RCat_nil.
      destruct (Hk pos1 inp1 [None; Some ver]) as [w Hw]. eauto. }
    destruct (Hstar pos rest) as [c0 Hc0].
    eapply opt_succeeds. exact Hc0. }
  destruct Hsome as [c Hc]. rewrite Hc.
  destruct (run_keeps 2 debianTail _ _ _ _ _ eq_refl Hc)
    as (pos' & rest' & caps' & Hk' & Hlen & Hkeep).
  destruct (Hk pos' rest' caps') as [w Hw]. rewrite Hw in Hk'.
  injection Hk' as <-.
  destruct caps' as [|c0 [|c1 [|? ?]]]; try discriminate Hlen.
  pose proof (Hkeep 1%nat ltac:(lia)) as K1.
  simpl in K1. injection K1 as ->.
  exists w. reflexivity.
Qed.

Lemma anySpaceS_cons (r : Rune) (inp : list Rune) :
  (code r =? 32) = false -> anySpaceS (r :: inp) = anySpaceS inp.
Proof.
  intros H. cbn [anySpaceS]. destruct inp as [|r1 inp]; [reflexivity|].
  cbn [startsSpaceS]. rewrite H. reflexivity.
Qed.

Lemma isAscii_app (x y : string) : isAscii (x +:+ y) = isAscii x && isAscii y.
Proof.
  induction x as [|c x IH]; [reflexivity|].
  rewrite append_cons. simpl. rewrite IH, andb_assoc. reflexivity.
Qed.

(** The release text of a Debian banner: [a.b.c-d]. *)
Definition debianRelease (a b c d : string) : string :=
  a +:+ "." +:+ b +:+ "." +:+ c +:+ "-" +:+ d.

Lemma runesOf_debianRelease (a b c d : string) (rest : list Rune) :
  (runesOf (debianRelease a b c d) ++ rest
   = runesOf a ++ runeOf "." :: runesOf b ++ runeOf "." :: runesOf c
       ++ runeOf "-" :: runesOf d ++ rest)%list.
Proof.
  unfold debianRelease. rewrite !runesOf_app.
  repeat (rewrite <- app_assoc; cbn [runesOf app]). reflexivity.
Qed.

(** The group of [debianVersionRegex] takes the whole release text. *)
Lemma debianRelease_run (a b c d : string) (rest : list Rune) (pos : nat)
      (caps : Caps) (k : Cont) (r : Caps) :
  allDigits a = true -> a <> "" ->
  allDigits b = true -> b <> "" ->
  allDigits c = true -> c <> "" ->
  allDigits d = true -> d <> "" ->
  noDigitAhead rest = true ->
  k (pos + String.length (debianRelease a b c d))%nat rest
    (<[1%nat := Some (debianRelease a b c d)]> caps) = Some r ->
  run (RGroup 1 (RCat [ RPlus digit; RSet (lit "."); RPlus digit;
                        RSet anyNotNL; RPlus digit; RSet (lit "-");
                        RPlus digit ]))
      pos (runesOf (debianRelease a b c d) ++ rest) caps k = Some r.
Proof.
  intros Ha Na Hb Nb Hc Nc Hd Nd Hrest Hk.
  rewrite run_RGroup.
  match goal with |- run _ _ _ _ ?kk = _ => set (kG := kk) end.
  rewrite runesOf_debianRelease.
  rewrite run_RCat_cons. apply plus_digits; [exact Ha|exact Na|reflexivity|].
  rewrite run_RCat_cons, set_lit.
  rewrite run_RCat_cons. apply plus_digits; [exact Hb|exact Nb|reflexivity|].
  rewrite run_RCat_cons, set_any by reflexivity.
  rewrite run_RCat_cons. apply plus_digits; [exact Hc|exact Nc|reflexivity|].
  rewrite run_RCat_cons, set_lit.
  rewrite run_RCat_cons. apply plus_digits; [exact Hd|exact Nd|exact Hrest|].
  rewrite run_RCat_nil. subst kG. cbv beta.
  match goal with
  | |- k ?p _ _ = _ =>
      replace p with (pos + String.length (debianRelease a b c d))%nat
        by (unfold debianRelease; rewrite !length_append; simpl; lia)
  end.
  rewrite firstn_runes, rawOf_runesOf. exact Hk.
Qed.

(** X24. A Debian banner: plain text without a newline, the text
    [ SMP Debian ], a release [a.b.c-d], and a remainder that holds no
    letter S and does not go on with a digit.  [parseDebianVersion] gives
    what [kernelVersionFromReleaseString] gives for the release. *)
Theorem parseDebianVersion_banner (pre a b c d rest : string) :
  isAscii pre = true -> hasNewline pre = false ->
  allDigits a = true -> a <> "" ->
  allDigits b = true -> b <> "" ->
  allDigits c = true -> c <> "" ->
  allDigits d = true -> d <> "" ->
  startsWithDigit rest = false -> hasByte 83 rest = false ->
  parseDebianVersion (pre +:+ " SMP Debian " +:+ debianRelease a b c d +:+ rest)
  = kernelVersionFromReleaseString (debianRelease a b c d).
Proof.
  intros Hpre Hnl Ha Na Hb Nb Hc Nc Hd Nd Hrest HS.
  set (ver := debianRelease a b c d).
  assert (Hasc : isAscii ver = true).
  { unfold ver, debianRelease. rewrite !isAscii_app.
    rewrite (allDigits_ascii a), (allDigits_ascii b), (allDigits_ascii c),
      (allDigits_ascii d) by assumption.
    reflexivity. }
  assert (HverS : hasByte 83 ver = false).
  { unfold ver, debianRelease. rewrite !hasByte_app.
    rewrite (digits_noByte 83 a), (digits_noByte 83 b), (digits_noByte 83 c),
      (digits_noByte 83 d) by first [assumption | right; lia].
    reflexivity. }
  assert (Hin : decode (pre +:+ " SMP Debian " +:+ ver +:+ rest)
                = (runesOf pre ++ runesOf " SMP Debian " ++ runesOf ver
                     ++ decode rest)%list).
  { rewrite decode_ascii by exact Hpre.
    rewrite (decode_ascii " SMP Debian ") by reflexivity.
    rewrite decode_ascii by exact Hasc. reflexivity. }
  assert (Hm : exists w,
             matchAt debianVersionRegex 1 0
               (decode (pre +:+ " SMP Debian " +:+ ver +:+ rest))
             = Some [Some w; Some ver]).
  { rewrite Hin. unfold matchAt. rewrite run_RGroup.
    match goal with |- context [run _ _ _ _ ?kk] => set (k0 := kk) end.
    assert (Hk0 : forall pos' inp' caps',
               exists w, k0 pos' inp' caps' = Some (<[0%nat := Some w]> caps')).
    { intros pos' inp' caps'. eexists. reflexivity. }
    set (P := (0 + length (runesOf pre) + String.length " SMP Debian "
               + String.length ver)%nat).
    destruct (debianTail_succeeds (decode rest) P ver k0 Hk0) as [w Hw].
    exists w. unfold debianVersionRegex. rewrite run_RCat_cons. cbn [run].
    apply star_run;
      [rewrite <- decode_ascii_all by exact Hpre; apply decode_noNewline, Hnl|].
    change (runesOf " SMP Debian ")
      with (runeOf " " :: runesOf "SMP Debian ").
    rewrite <- app_comm_cons. cbn [star].
    change (anyNotNL (code (runeOf " "))) with true. cbv iota.
    rewrite star_none.
    - cbv beta. rewrite app_comm_cons.
      change (runeOf " " :: runesOf "SMP Debian ")
        with (runesOf " SMP Debian ").
      rewrite run_RCat_cons, run_RLits, run_RCat_cons.
      apply debianRelease_run; try assumption.
      rewrite head_digit, Hrest. reflexivity.
    - intros pos' inp' caps' H'. cbv beta. apply debianCore_fails, H'.
    - change (runesOf "SMP Debian ")
        with (runeOf "S" :: runeOf "M" :: runeOf "P" :: runeOf " "
                :: runesOf "Debian ").
      rewrite <- !app_comm_cons.
      rewrite !anySpaceS_cons by reflexivity.
      apply notS_anySpaceS. apply Forall_app. split.
      + apply runesOf_noByte. reflexivity.
      + apply Forall_app. split.
        * apply runesOf_noByte, HverS.
        * apply decode_noByte; [lia|exact HS]. }
  destruct Hm as [w Hm].
  unfold parseDebianVersion, FindStringSubmatch.
  rewrite (search_first _ _ _ _ _ Hm). reflexivity.
Qed.

Lemma parseDebianVersion_banner_witness :
  parseDebianVersion
    ("Linux version 4.19.0-8-amd64 (gcc version 8.3.0 (Debian 8.3.0-6)) #1"
       +:+ " SMP Debian " +:+ debianRelease "4" "19" "98" "1"
       +:+ " (2020-01-26)")
  = kernelVersionFromReleaseString (debianRelease "4" "19" "98" "1").
Proof.
  apply (parseDebianVersion_banner
           "Linux version 4.19.0-8-amd64 (gcc version 8.3.0 (Debian 8.3.0-6)) #1"
           "4" "19" "98" "1" " (2020-01-26)");
    first [reflexivity | discriminate].
Defined.

End DebianMatch.
